(** * The preprocessing-layers notebook, embedded and verified

    Source: [notebook/preprocessing_layers.ipynb].  The notebook is a linear
    script over pandas dataframes, [tf.data] pipelines and Keras
    preprocessing layers.  The embedding follows the notebook cell by cell:

    - dataframes are mutable objects living in a store ([Pandas]);
    - a [tf.data] dataset is the lazy pipeline description the calls build,
      with an iteration function giving the elements it yields ([TfData]);
    - preprocessing layers carry the state that [adapt] learns ([Keras]);
    - the three functions the notebook defines are functions here, and its
      code cells are lists of statements run in a state-and-exception
      monad. *)

From Stdlib Require Import ZArith List String Reals Lra Lia.
From Stdlib Require OrderedTypeEx Sorted.
From stdpp Require Import gmap strings list.
From stdpp Require sorting.

Open Scope string_scope.

(** ** Exceptions and results *)

(** What a Python call can raise.  [InvalidArgumentError] and
    [UnimplementedError] are the classes of [tf.errors]; their messages vary
    with the version of the framework and only their gist is kept.
    [LibraryError] stands for any failure reported by a library whose
    internals are not part of the notebook (network, file system,
    training). *)
Inductive Exn : Type :=
| KeyError (key : string)
| ValueError (msg : string)
| TypeError (msg : string)
| NameError (var : string)
| InvalidArgumentError (msg : string)
| UnimplementedError (msg : string)
| LibraryError (call : string) (code : nat).

Inductive Res (A : Type) : Type :=
| Ok (a : A)
| Raise (e : Exn).
Arguments Ok {A} a.
Arguments Raise {A} e.

#[global] Instance Res_ret : MRet Res := λ A a, Ok a.
#[global] Instance Res_bind : MBind Res := λ A B k m,
  match m with
  | Ok a => k a
  | Raise e => Raise e
  end.

Section MapM.
Context {A B : Type} (f : A → Res B).

(** Apply a fallible function along a list; the first failure wins. *)
Definition list_mapM : list A → Res (list B) :=
  fix go (l : list A) : Res (list B) :=
    match l with
    | [] => Ok []
    | a :: l' => b ← f a; bs ← go l'; Ok (b :: bs)
    end.
End MapM.

Definition is_ok {A} (r : Res A) : bool :=
  match r with Ok _ => true | Raise _ => false end.

(** ** Cells and tensors *)

(** A value of the CSV: the dataset has integer and string columns. *)
Inductive Cell : Type :=
| CInt (z : Z)
| CStr (s : string).

Definition cell_eqb (a b : Cell) : bool :=
  match a, b with
  | CInt x, CInt y => Z.eqb x y
  | CStr x, CStr y => String.eqb x y
  | _, _ => false
  end.

#[local] Set Warnings "-register-all".

(** A tensor of any rank: a scalar, or a stack of tensors along a new
    leading axis. *)
Inductive Tensor (A : Type) : Type :=
| T0 (a : A)
| TN (ts : list (Tensor A)).
Arguments T0 {A} a.
Arguments TN {A} ts.

Fixpoint tmap {A B} (f : A → B) (t : Tensor A) : Tensor B :=
  match t with
  | T0 a => T0 (f a)
  | TN ts => TN (List.map (tmap f) ts)
  end.

(** The scalars of a tensor, in row-major order. *)
Fixpoint leaves {A} (t : Tensor A) : list A :=
  match t with
  | T0 a => [a]
  | TN ts => List.concat (List.map leaves ts)
  end.

(** Apply a fallible scalar function to every scalar of a tensor. *)
Fixpoint tmapM {A B} (f : A → Res B) (t : Tensor A) : Res (Tensor B) :=
  match t with
  | T0 a => b ← f a; Ok (T0 b)
  | TN ts => ts' ← list_mapM (tmapM f) ts; Ok (TN ts')
  end.

(** A rank-1 tensor. *)
Definition vec {A} (l : list A) : Tensor A := TN (List.map T0 l).

(** ** Pandas dataframes *)

Module Pandas.

(** A dataframe: the row labels and the columns in their order. *)
Record DataFrame : Type := mkDF {
  index : list Z;
  cols : list (string * list Cell)
}.

(** [len(df)] is the number of rows. *)
Definition len (df : DataFrame) : nat := length (index df).

Fixpoint lookup_col (c : string) (l : list (string * list Cell))
  : option (list Cell) :=
  match l with
  | [] => None
  | (c', v) :: l' => if String.eqb c c' then Some v else lookup_col c l'
  end.

Definition has_col (c : string) (df : DataFrame) : bool :=
  match lookup_col c (cols df) with Some _ => true | None => false end.

(** [df[c]] *)
Definition getitem (df : DataFrame) (c : string) : Res (list Cell) :=
  match lookup_col c (cols df) with
  | Some v => Ok v
  | None => Raise (KeyError c)
  end.

(** Column assignment keeps the position of an existing column and
    appends a new one. *)
Fixpoint assign (c : string) (v : list Cell) (l : list (string * list Cell))
  : list (string * list Cell) :=
  match l with
  | [] => [(c, v)]
  | (c', v') :: l' =>
      if String.eqb c c' then (c, v) :: l' else (c', v') :: assign c v l'
  end.

(** [df[c] = v] *)
Definition setitem (df : DataFrame) (c : string) (v : list Cell)
  : Res DataFrame :=
  if Nat.eqb (length v) (len df)
  then Ok (mkDF (index df) (assign c v (cols df)))
  else Raise (ValueError "Length of values does not match length of index").

Definition remove_cols (cs : list string) (l : list (string * list Cell))
  : list (string * list Cell) :=
  List.filter (fun p => negb (existsb (String.eqb (fst p)) cs)) l.

(** A list of labels as Python prints it, for labels without quotes or
    escapes. *)
Definition py_list (labels : list string) : string :=
  "[" ++ String.concat ", " (List.map (fun c => "'" ++ c ++ "'") labels)
  ++ "]".

(** [df.drop(columns=cs)]: a new dataframe; labels that are not columns
    raise a [KeyError] that lists them. *)
Definition drop (df : DataFrame) (cs : list string) : Res DataFrame :=
  match List.filter (fun c => negb (has_col c df)) cs with
  | [] => Ok (mkDF (index df) (remove_cols cs (cols df)))
  | missing => Raise (KeyError (py_list missing ++ " not found in axis"))
  end.

(** [series == v] *)
Definition series_eq (s : list Cell) (v : Cell) : list bool :=
  List.map (fun x => cell_eqb x v) s.

(** [np.where(cond, x, y)] with scalar [x] and [y]. *)
Definition np_where (cond : list bool) (x y : Cell) : list Cell :=
  List.map (fun b : bool => if b then x else y) cond.

End Pandas.
Import Pandas.

(** ** tf.data pipelines *)

Module TfData.

(** The integers of [int64], the dtype of the integer columns. *)
Definition int64 (z : Z) : bool :=
  (Z.leb (- 2 ^ 63) z && Z.ltb z (2 ^ 63))%Z.

(** A column converts to a tensor when it holds strings only or [int64]
    integers only.  A column that mixes the two, or holds an integer
    outside [int64], is a column of Python objects that no tensor dtype
    takes. *)
Definition convertible (col : list Cell) : bool :=
  forallb (fun c => match c with CStr _ => true | CInt _ => false end) col
  || forallb (fun c => match c with CInt z => int64 z | CStr _ => false end)
             col.

(** The pipeline a chain of dataset calls describes. *)
Inductive Dataset : Type :=
| from_tensor_slices (features : list (string * list Cell))
                     (labels : list Cell)
| shuffle (buffer_size : nat) (ds : Dataset)
| batch (batch_size : nat) (ds : Dataset)
| prefetch (buffer_size : nat) (ds : Dataset)
| map_feature (name : string) (ds : Dataset)
| take (count : nat) (ds : Dataset).

(** An element a dataset yields: a (features, label) pair, or the single
    tensor that [dataset.map(lambda x, y: x[name])] leaves. *)
Inductive Elem : Type :=
| EPair (x : list (string * Tensor Cell)) (y : Tensor Cell)
| ESingle (t : Tensor Cell).

Fixpoint lookup_feature (name : string) (x : list (string * Tensor Cell))
  : Res (Tensor Cell) :=
  match x with
  | [] => Raise (KeyError name)
  | (k, t) :: x' => if String.eqb name k then Ok t else lookup_feature name x'
  end.

(** Row [i] of the feature dictionary. *)
Definition slice_features (features : list (string * list Cell)) (i : nat)
  : Res (list (string * Tensor Cell)) :=
  list_mapM (fun p : string * list Cell =>
              match snd p !! i with
              | Some c => Ok (fst p, T0 c)
              | None => Raise (ValueError "Dimensions must be equal")
              end) features.

(** Element [i] of [from_tensor_slices((features, labels))]. *)
Definition slice_at (features : list (string * list Cell))
    (labels : list Cell) (i : nat) : Res Elem :=
  x ← slice_features features i;
  match labels !! i with
  | Some y => Ok (EPair x (T0 y))
  | None => Raise (ValueError "Dimensions must be equal")
  end.

Definition same_length (n : nat) (features : list (string * list Cell))
  : bool :=
  forallb (fun p : string * list Cell => Nat.eqb (length (snd p)) n) features.

(** The components are sliced along their first axis, which they must
    share. *)
Definition slices (features : list (string * list Cell))
    (labels : list Cell) : Res (list Elem) :=
  if same_length (length labels) features
  then list_mapM (slice_at features labels) (seq 0 (length labels))
  else Raise (ValueError "Dimensions must be equal").

(** Consecutive groups of [n] elements; the last group may be shorter. *)
Fixpoint chunks_aux {A} (fuel n : nat) (l : list A) : list (list A) :=
  match fuel with
  | O => []
  | S fuel' =>
      match l with
      | [] => []
      | _ :: _ => firstn n l :: chunks_aux fuel' n (skipn n l)
      end
  end.

Definition chunks {A} (n : nat) (l : list A) : list (list A) :=
  chunks_aux (length l) n l.

Definition single_of (e : Elem) : Res (Tensor Cell) :=
  match e with
  | ESingle t => Ok t
  | EPair _ _ => Raise (TypeError "expected a single component")
  end.

Definition pair_of (e : Elem)
  : Res (list (string * Tensor Cell) * Tensor Cell) :=
  match e with
  | EPair x y => Ok (x, y)
  | ESingle _ => Raise (TypeError "expected a (features, label) pair")
  end.

(** Stack the elements of one batch component by component. *)
Definition stack (group : list Elem) : Res Elem :=
  match group with
  | [] => Raise (ValueError "empty batch")
  | ESingle _ :: _ =>
      ts ← list_mapM single_of group;
      Ok (ESingle (TN ts))
  | EPair x0 _ :: _ =>
      ps ← list_mapM pair_of group;
      x ← list_mapM (fun k : string =>
                      ts ← list_mapM (fun p : list (string * Tensor Cell)
                                              * Tensor Cell =>
                                       lookup_feature k (fst p)) ps;
                      Ok (k, TN ts))
                   (List.map fst x0);
      Ok (EPair x (TN (List.map snd ps)))
  end.

Section Iterate.
(** The order in which a shuffle stage yields what it receives. *)
Variable sigma : list Elem → list Elem.

(** The elements one pass over the dataset yields. *)
Fixpoint iterate (ds : Dataset) : Res (list Elem) :=
  match ds with
  | from_tensor_slices features labels => slices features labels
  | shuffle _ ds' => es ← iterate ds'; Ok (sigma es)
  | batch n ds' =>
      es ← iterate ds';
      match n with
      | O => Raise (ValueError "batch_size must be greater than zero")
      | S _ => list_mapM stack (chunks n es)
      end
  | prefetch _ ds' => iterate ds'
  | map_feature name ds' =>
      es ← iterate ds';
      list_mapM (fun e : Elem =>
                  p ← pair_of e;
                  t ← lookup_feature name (fst p);
                  Ok (ESingle t)) es
  | take count ds' => es ← iterate ds'; Ok (firstn count es)
  end.

(** Every scalar a dataset of single tensors yields, in order. *)
Definition values (ds : Dataset) : Res (list Cell) :=
  es ← iterate ds;
  ts ← list_mapM single_of es;
  Ok (List.concat (List.map leaves ts)).
End Iterate.

(** *** Building a pipeline

    The calls that build a pipeline run eagerly: each checks its arguments
    when it is called, before any element is read. *)

(** [tf.data.Dataset.from_tensor_slices((features, labels))]: every
    component is converted to a tensor. *)
Definition Dataset_from_tensor_slices (features : list (string * list Cell))
    (labels : list Cell) : Res Dataset :=
  if forallb (fun p : string * list Cell => convertible (snd p)) features
     && convertible labels
  then Ok (from_tensor_slices features labels)
  else Raise (ValueError "Failed to convert a NumPy array to a Tensor").

(** [ds.shuffle(buffer_size=n)] *)
Definition Dataset_shuffle (buffer_size : nat) (ds : Dataset) : Res Dataset :=
  match buffer_size with
  | O => Raise (InvalidArgumentError "buffer_size must be greater than zero")
  | S _ => Ok (shuffle buffer_size ds)
  end.

(** [ds.batch(n)] *)
Definition Dataset_batch (batch_size : nat) (ds : Dataset) : Res Dataset :=
  match batch_size with
  | O => Raise (InvalidArgumentError "Batch size must be greater than zero")
  | S _ => Ok (batch batch_size ds)
  end.

(** [ds.prefetch(n)] *)
Definition Dataset_prefetch (buffer_size : nat) (ds : Dataset) : Res Dataset :=
  Ok (prefetch buffer_size ds).

End TfData.
Import TfData.

(** ** Keras preprocessing layers and the functional graph *)

Module Keras.

#[local] Open Scope R_scope.

(** *** Statistics *)

Definition sum (l : list R) : R := fold_right Rplus 0 l.

Definition mean_of (l : list R) : R := sum l / INR (length l).

(** The population variance. *)
Definition variance_of (l : list R) : R :=
  sum (List.map (fun x => (x - mean_of l) * (x - mean_of l)) l)
  / INR (length l).

Definition std_of (l : list R) : R := sqrt (variance_of l).

(** [backend.epsilon()] *)
Definition epsilon : R := / 10000000.

Definition to_float (c : Cell) : Res R :=
  match c with
  | CInt z => Ok (IZR z)
  | CStr _ =>
      Raise (UnimplementedError "Cast string to float is not supported")
  end.

(** *** Normalization *)

(** The state of a [Normalization(axis=None)] layer: one mean and one
    variance for the whole feature. *)
Record Normalization : Type := mkNormalization {
  mean : R;
  variance : R
}.

(** A layer that has not been adapted leaves its input unchanged. *)
Definition Normalization_new : Normalization := mkNormalization 0 1.

(** Modelled from the spec: the statistics half of the framework's
    normalization adapter, whose code is not in the repository.  It
    "learns summary statistics (mean/variance ...) from a dataset pass":
    the mean and the variance of every value the pass yields. *)
Definition adapt_statistics (data : list R) : Normalization :=
  match data with
  | [] => Normalization_new
  | _ :: _ => mkNormalization (mean_of data) (variance_of data)
  end.

(** Modelled from the spec: the transform half of the framework's
    normalization adapter, "a deterministic transform (normalization)":
    centre on the learned mean and divide by the learned deviation, the
    divisor being kept away from zero by [epsilon]. *)
Definition normalize (l : Normalization) (x : R) : R :=
  (x - mean l) / Rmax (sqrt (variance l)) epsilon.

(** [layer(tensor)] *)
Definition Normalization_call (l : Normalization) (t : Tensor Cell)
  : Res (Tensor R) :=
  tmapM (fun c : Cell => x ← to_float c; Ok (normalize l x)) t.

(** *** StringLookup and IntegerLookup *)

Inductive LookupKind : Type := StringLookup | IntegerLookup.

(** The state of a lookup layer.  Index 0 is the out-of-vocabulary slot;
    the tokens of [vocabulary] take the indices from 1 on. *)
Record IndexLookup : Type := mkIndexLookup {
  kind : LookupKind;
  max_tokens : option nat;
  vocabulary : list Cell
}.

Definition IndexLookup_new (k : LookupKind) (max_tokens : option nat)
  : Res IndexLookup :=
  match max_tokens with
  | Some n =>
      if Nat.leb n 1
      then Raise (ValueError "If set, max_tokens must be greater than 1")
      else Ok (mkIndexLookup k max_tokens [])
  | None => Ok (mkIndexLookup k max_tokens [])
  end.

Definition accepts (k : LookupKind) (c : Cell) : bool :=
  match k, c with
  | StringLookup, CStr _ => true
  | IntegerLookup, CInt _ => true
  | _, _ => false
  end.

Definition check_token (k : LookupKind) (c : Cell) : Res Cell :=
  if accepts k c then Ok c
  else Raise (TypeError "token of the wrong dtype for the lookup layer").

Definition count_token (c : Cell) (data : list Cell) : nat :=
  length (List.filter (cell_eqb c) data).

(** The distinct tokens, in order of first occurrence. *)
Fixpoint distinct (data : list Cell) : list Cell :=
  match data with
  | [] => []
  | c :: data' =>
      c :: List.filter (fun c' => negb (cell_eqb c c')) (distinct data')
  end.

Definition cell_ltb (a b : Cell) : bool :=
  match a, b with
  | CInt x, CInt y => Z.ltb x y
  | CStr x, CStr y =>
      match String.compare x y with Lt => true | _ => false end
  | CInt _, CStr _ => true
  | CStr _, CInt _ => false
  end.

(** More frequent tokens first; among equally frequent ones the greater
    token first. *)
Definition before (a b : Cell * nat) : bool :=
  Nat.ltb (snd b) (snd a)
  || (Nat.eqb (snd a) (snd b) && cell_ltb (fst b) (fst a)).

Fixpoint insert_desc (x : Cell * nat) (l : list (Cell * nat))
  : list (Cell * nat) :=
  match l with
  | [] => [x]
  | y :: l' => if before x y then x :: l else y :: insert_desc x l'
  end.

Definition sort_desc (l : list (Cell * nat)) : list (Cell * nat) :=
  fold_right insert_desc [] l.

Definition truncate (max_tokens : option nat) (tokens : list Cell)
  : list Cell :=
  match max_tokens with
  | Some n => firstn (n - 1) tokens
  | None => tokens
  end.

(** Modelled from the spec: the vocabulary half of the framework's lookup
    adapter, whose code is not in the repository.  It "learns ...
    vocabulary-to-index mappings" from a dataset pass: the distinct tokens
    by decreasing frequency, cut so that with the out-of-vocabulary slot
    at most [max_tokens] indices are in use. *)
Definition learn_vocabulary (max_tokens : option nat) (data : list Cell)
  : list Cell :=
  truncate max_tokens
    (List.map fst
       (sort_desc (List.map (fun c => (c, count_token c data))
                            (distinct data)))).

Definition adapt_vocabulary (l : IndexLookup) (data : list Cell)
  : Res IndexLookup :=
  tokens ← list_mapM (check_token (kind l)) data;
  Ok (mkIndexLookup (kind l) (max_tokens l)
        (learn_vocabulary (max_tokens l) tokens)).

(** [index.vocabulary_size()] counts the out-of-vocabulary slot. *)
Definition vocabulary_size (l : IndexLookup) : nat :=
  S (length (vocabulary l)).

Fixpoint position (c : Cell) (tokens : list Cell) : option nat :=
  match tokens with
  | [] => None
  | c' :: tokens' =>
      if cell_eqb c c' then Some O
      else match position c tokens' with
           | Some i => Some (S i)
           | None => None
           end
  end.

(** The index of one token. *)
Definition lookup_index (l : IndexLookup) (c : Cell) : nat :=
  match position c (vocabulary l) with
  | Some i => S i
  | None => O
  end.

(** [index(tensor)] *)
Definition IndexLookup_call (l : IndexLookup) (t : Tensor Cell)
  : Res (Tensor nat) :=
  tmapM (fun c : Cell => c' ← check_token (kind l) c;
                         Ok (lookup_index l c')) t.

(** *** CategoryEncoding *)

(** [CategoryEncoding(num_tokens=n)]; the output mode is the default,
    multi-hot. *)
Record CategoryEncoding : Type := mkCategoryEncoding {
  num_tokens : nat
}.

(** Position [i] of the result is 1 when [i] is among the indices. *)
Definition multi_hot (n : nat) (idxs : list nat) : list R :=
  List.map (fun i => if existsb (Nat.eqb i) idxs then 1 else 0) (seq 0 n).

Definition one_hot (n : nat) (i : nat) : list R := multi_hot n [i].

(** The indices of a rank-1 tensor, when it is one. *)
Fixpoint scalars {A} (ts : list (Tensor A)) : option (list A) :=
  match ts with
  | [] => Some []
  | T0 a :: ts' =>
      match scalars ts' with
      | Some l => Some (a :: l)
      | None => None
      end
  | TN _ :: _ => None
  end.

Definition encode_sample (n : nat) (idxs : list nat) : Res (Tensor R) :=
  if forallb (fun i => Nat.ltb i n) idxs
  then Ok (vec (multi_hot n idxs))
  else Raise (ValueError "Input values must be in the range [0, num_tokens)").

(** Modelled from the spec: the framework's category encoder, whose code
    is not in the repository, "a deterministic transform (... one-hot
    encoding)".  A scalar or a rank-1 tensor is one sample; a rank-2
    tensor is a batch of samples, encoded row by row. *)
Definition CategoryEncoding_call (e : CategoryEncoding) (t : Tensor nat)
  : Res (Tensor R) :=
  match t with
  | T0 i => encode_sample (num_tokens e) [i]
  | TN ts =>
      match scalars ts with
      | Some idxs => encode_sample (num_tokens e) idxs
      | None =>
          rows ← list_mapM
                   (fun row : Tensor nat =>
                      match row with
                      | T0 i => encode_sample (num_tokens e) [i]
                      | TN r =>
                          match scalars r with
                          | Some idxs => encode_sample (num_tokens e) idxs
                          | None => Raise (ValueError "rank above 2")
                          end
                      end) ts;
          Ok (TN rows)
      end
  end.

(** *** The functional graph *)

(** A symbolic tensor: the node of the graph that produces it. *)
Inductive Sym : Type :=
| Input (name : string) (dtype : option string)
| Normalize (l : Normalization) (x : Sym)
| Encode (index : IndexLookup) (encoder : CategoryEncoding) (x : Sym)
| Concatenate (xs : list Sym)
| Dense (units : nat) (activation : option string) (x : Sym)
| Dropout (rate : R) (x : Sym).

Record Compile : Type := mkCompile {
  optimizer : string;
  loss : string;
  metrics : list string
}.

Record Model : Type := mkModel {
  inputs : list Sym;
  output : Sym;
  compiled : option Compile;
  weights : list R
}.

End Keras.
Import Keras.

(** ** The store of dataframe objects, and the monad of the notebook *)

(** Python variables hold references; [copy] allocates, [pop] and column
    assignment mutate in place.  Saved models live in the file system. *)
Definition loc := nat.

Record Mem : Type := mkMem {
  heap : gmap loc DataFrame;
  files : gmap string Model
}.

Definition empty_mem : Mem := mkMem ∅ ∅.

(** A computation reads and writes the store and may raise; what it wrote
    before raising stays written. *)
Definition M (A : Type) : Type := Mem → Res A * Mem.

#[global] Instance M_ret : MRet M := λ A a m, (Ok a, m).
#[global] Instance M_bind : MBind M := λ A B k c m,
  match c m with
  | (Ok a, m') => k a m'
  | (Raise e, m') => (Raise e, m')
  end.

Definition raise {A} (e : Exn) : M A := λ m, (Raise e, m).
Definition lift {A} (r : Res A) : M A := λ m, (r, m).

(** Dereference a dataframe variable. *)
Definition deref (l : loc) : M DataFrame :=
  fun m => match heap m !! l with
           | Some df => (Ok df, m)
           | None => (Raise (NameError "dataframe"), m)
           end.

Definition alloc (df : DataFrame) : M loc :=
  fun m => let l := fresh (dom (heap m)) in
           (Ok l, mkMem (<[l := df]> (heap m)) (files m)).

Definition update (l : loc) (df : DataFrame) : M unit :=
  fun m => (Ok tt, mkMem (<[l := df]> (heap m)) (files m)).

(** [df.copy()]: a new object with the same contents. *)
Definition copy (l : loc) : M loc :=
  df ← deref l; alloc df.

(** [df.pop(c)]: returns the column and removes it from the object. *)
Definition pop (l : loc) (c : string) : M (list Cell) :=
  df ← deref l;
  v ← lift (getitem df c);
  update l (mkDF (index df) (remove_cols [c] (cols df)));;
  mret v.

(** ** The notebook's input pipeline (cell 8) *)

(** [[
def df_to_dataset(dataframe, shuffle=True, batch_size=32):
  dataframe = dataframe.copy()
  labels = dataframe.pop('target')
  ds = tf.data.Dataset.from_tensor_slices((dict(dataframe), labels))
  if shuffle:
    ds = ds.shuffle(buffer_size=len(dataframe))
  ds = ds.batch(batch_size)
  ds = ds.prefetch(batch_size)
  return ds
]] *)
Definition df_to_dataset (dataframe : loc) (shuffle_flag : bool)
    (batch_size : nat) : M Dataset :=
  dataframe ← copy dataframe;
  labels ← pop dataframe "target";
  df ← deref dataframe;
  ds ← lift (Dataset_from_tensor_slices (cols df) labels);
  ds ← (if shuffle_flag then lift (Dataset_shuffle (len df) ds) else mret ds);
  ds ← lift (Dataset_batch batch_size ds);
  ds ← lift (Dataset_prefetch batch_size ds);
  mret ds.

(** The keyword defaults of [df_to_dataset]. *)
Definition default_shuffle : bool := true.
Definition default_batch_size : nat := 32.

(** The object the function works on once the label column is popped, and
    the dataset it slices from that object. *)
Definition popped (df : DataFrame) : DataFrame :=
  mkDF (index df) (remove_cols ["target"] (cols df)).

Definition source_of (df : DataFrame) (labels : list Cell) : Dataset :=
  from_tensor_slices (cols (popped df)) labels.

(** The stages of the function after the label is popped: the calls that
    build the pipeline, each of which may refuse its argument. *)
Definition stages (df : DataFrame) (labels : list Cell) (sh : bool)
    (bs : nat) : Res Dataset :=
  ds ← Dataset_from_tensor_slices (cols (popped df)) labels;
  ds ← (if sh then Dataset_shuffle (len df) ds else Ok ds);
  ds ← Dataset_batch bs ds;
  Dataset_prefetch bs ds.

(** ** The notebook's preprocessing layers (cells 11 and 13) *)

Section PreprocessingLayers.
(** The order in which the shuffle stage of a dataset yields its rows
    during the pass that [adapt] makes. *)
Variable sigma : list Elem → list Elem.

(** [normalizer.adapt(feature_ds)] *)
Definition Normalization_adapt (normalizer : Normalization)
    (feature_ds : Dataset) : Res Normalization :=
  data ← values sigma feature_ds;
  xs ← list_mapM to_float data;
  Ok (adapt_statistics xs).

(** [[
def get_normalization_layer(name, dataset):
  normalizer = preprocessing.Normalization(axis=None)
  feature_ds = dataset.map(lambda x, y: x[name])
  normalizer.adapt(feature_ds)
  return normalizer
]] *)
Definition get_normalization_layer (name : string) (dataset : Dataset)
  : Res Normalization :=
  let normalizer := Normalization_new in
  let feature_ds := map_feature name dataset in
  normalizer ← Normalization_adapt normalizer feature_ds;
  Ok normalizer.

(** [index.adapt(feature_ds)] *)
Definition IndexLookup_adapt (index : IndexLookup) (feature_ds : Dataset)
  : Res IndexLookup :=
  data ← values sigma feature_ds;
  adapt_vocabulary index data.

(** What the lambda returned by [get_category_encoding_layer] captures. *)
Record CategoryLayer : Type := mkCategoryLayer {
  index_layer : IndexLookup;
  encoder_layer : CategoryEncoding
}.

(** [[
def get_category_encoding_layer(name, dataset, dtype, max_tokens=None):
  if dtype == 'string':
    index = preprocessing.StringLookup(max_tokens=max_tokens)
  else:
    index = preprocessing.IntegerLookup(max_tokens=max_tokens)
  feature_ds = dataset.map(lambda x, y: x[name])
  index.adapt(feature_ds)
  encoder = preprocessing.CategoryEncoding(num_tokens=index.vocabulary_size())
  return lambda feature: encoder(index(feature))
]] *)
Definition get_category_encoding_layer (name : string) (dataset : Dataset)
    (dtype : string) (max_tokens : option nat) : Res CategoryLayer :=
  index ← (if String.eqb dtype "string"
           then IndexLookup_new StringLookup max_tokens
           else IndexLookup_new IntegerLookup max_tokens);
  let feature_ds := map_feature name dataset in
  index ← IndexLookup_adapt index feature_ds;
  let encoder := mkCategoryEncoding (vocabulary_size index) in
  Ok (mkCategoryLayer index encoder).

End PreprocessingLayers.

(** [lambda feature: encoder(index(feature))] *)
Definition CategoryLayer_call (layer : CategoryLayer) (feature : Tensor Cell)
  : Res (Tensor R) :=
  indices ← IndexLookup_call (index_layer layer) feature;
  CategoryEncoding_call (encoder_layer layer) indices.

(** ** The top-level script *)

(** *** Cell 6: the label *)

(** [[
dataframe['target'] = np.where(dataframe['AdoptionSpeed']==4, 0, 1)
]] *)
Definition create_target (dataframe : loc) : M unit :=
  df ← deref dataframe;
  speed ← lift (getitem df "AdoptionSpeed");
  let target := np_where (series_eq speed (CInt 4)) (CInt 0) (CInt 1) in
  df' ← lift (setitem df "target" target);
  update dataframe df'.

Definition unused_columns : list string := ["AdoptionSpeed"; "Description"].

(** [[
dataframe = dataframe.drop(columns=['AdoptionSpeed', 'Description'])
]] *)
Definition drop_unused (dataframe : loc) : M loc :=
  df ← deref dataframe;
  df' ← lift (drop df unused_columns);
  alloc df'.

(** *** Values, globals and the libraries *)

(** What a global variable of the notebook can hold. *)
Inductive Val : Type :=
| VNat (n : nat)
| VRef (l : loc)
| VDataset (ds : Dataset)
| VFeatures (x : list (string * Tensor Cell))
| VTensor (t : Tensor Cell)
| VFloats (t : Tensor R)
| VNormalization (l : Normalization)
| VCategoryLayer (l : CategoryLayer)
| VSym (x : Sym)
| VSyms (xs : list Sym)
| VModel (m : Model)
| VReal (r : R)
| VSample (kv : list (string * Cell)).

(** The calls whose results the notebook cannot determine: the network,
    the file system, the random split, training and inference. *)
Record Library : Type := mkLibrary {
  get_file : string → string → Res unit;
  read_csv : string → Res DataFrame;
  train_test_split : DataFrame → R → Res (DataFrame * DataFrame);
  shuffle_order : list Elem → list Elem;
  plot_model : Model → Res unit;
  fit : Model → Dataset → nat → Dataset → Res (list R);
  evaluate : Model → Dataset → Res (R * R);
  initializer : Sym → list R;
  save_model : Model → Res Model;
  load_model : Model → Res Model;
  predict : Model → list (string * Tensor Cell) → Res (Tensor R)
}.

Definition dataset_url : string :=
  "http://storage.googleapis.com/download.tensorflow.org/data/"
  ++ "petfinder-mini.zip".
Definition csv_file : string :=
  "gs://cloud-training/mlongcp/v3.0_MLonGC/toy_data/petfinder-mini_toy.csv".

(** *** Statements *)

(** The statements of the notebook's code cells.  Variables are named as
    in the notebook. *)
Inductive Stmt : Type :=
| S_get_file
| S_read_csv (dst : string)
| S_head (src : string)
| S_create_target (df : string)
| S_drop_unused (df : string)
| S_train_test_split (dst1 dst2 src : string)
| S_print_len (src : string)
| S_assign_nat (dst : string) (n : nat)
| S_df_to_dataset (dst src : string) (shuffle_kw : option bool)
                  (batch_size_kw : option string)
| S_take_one (dst_x dst_y src : string)
| S_print_keys (src : string)
| S_print_item (src key : string)
| S_print_var (src : string)
| S_getitem (dst src key : string)
| S_get_normalization_layer (dst name ds : string)
| S_get_category_encoding_layer (dst name ds dtype : string)
                                (max_tokens : option nat)
| S_apply (dst : option string) (layer arg : string)
| S_new_list (dst : string)
| S_Input (dst name : string) (dtype : option string)
| S_append (lst elem : string)
| S_concatenate (dst src : string)
| S_Dense (dst : string) (units : nat) (activation : option string)
          (src : string)
| S_Dropout (dst : string) (rate : R) (src : string)
| S_Model (dst ins out : string)
| S_compile (model : string)
| S_plot_model (model : string)
| S_fit (model train val : string) (epochs : nat)
| S_evaluate (dst_loss dst_acc model ds : string)
| S_save (model path : string)
| S_load_model (dst path : string)
| S_sample (dst : string)
| S_convert_to_tensor (dst src : string)
| S_predict (dst model arg : string)
| S_sigmoid (dst src : string)
| S_print_percent (src : string).

(** *** Reading the globals *)

Abbreviation Globals := (gmap string Val).

Definition var (g : Globals) (x : string) : M Val :=
  match g !! x with
  | Some v => mret v
  | None => raise (NameError x)
  end.

Definition get_ref (g : Globals) (x : string) : M loc :=
  v ← var g x;
  match v with VRef l => mret l | _ => raise (TypeError x) end.

Definition get_nat (g : Globals) (x : string) : M nat :=
  v ← var g x;
  match v with VNat n => mret n | _ => raise (TypeError x) end.

Definition get_dataset (g : Globals) (x : string) : M Dataset :=
  v ← var g x;
  match v with VDataset ds => mret ds | _ => raise (TypeError x) end.

Definition get_features (g : Globals) (x : string)
  : M (list (string * Tensor Cell)) :=
  v ← var g x;
  match v with VFeatures f => mret f | _ => raise (TypeError x) end.

Definition get_floats (g : Globals) (x : string) : M (Tensor R) :=
  v ← var g x;
  match v with VFloats t => mret t | _ => raise (TypeError x) end.

Definition get_sym (g : Globals) (x : string) : M Sym :=
  v ← var g x;
  match v with VSym t => mret t | _ => raise (TypeError x) end.

Definition get_syms (g : Globals) (x : string) : M (list Sym) :=
  v ← var g x;
  match v with VSyms ts => mret ts | _ => raise (TypeError x) end.

Definition get_model (g : Globals) (x : string) : M Model :=
  v ← var g x;
  match v with VModel m => mret m | _ => raise (TypeError x) end.

Definition get_sample (g : Globals) (x : string) : M (list (string * Cell)) :=
  v ← var g x;
  match v with VSample kv => mret kv | _ => raise (TypeError x) end.

Definition write_file (path : string) (saved : Model) : M unit :=
  λ m, (Ok tt, mkMem (heap m) (<[path := saved]> (files m))).

Definition read_file (path : string) : M Model :=
  λ m, match files m !! path with
       | Some saved => (Ok saved, m)
       | None => (Raise (LibraryError "load_model" 2), m)
       end.

(** The row of cell 25. *)
Definition sample : list (string * Cell) :=
  [ ("Type", CStr "Cat"); ("Age", CInt 3); ("Breed1", CStr "Tabby");
    ("Gender", CStr "Male"); ("Color1", CStr "Black");
    ("Color2", CStr "White"); ("MaturitySize", CStr "Small");
    ("FurLength", CStr "Short"); ("Vaccinated", CStr "No");
    ("Sterilized", CStr "No"); ("Health", CStr "Healthy");
    ("Fee", CInt 100); ("PhotoAmt", CInt 2) ].

(** [tf.nn.sigmoid], in exact arithmetic.  The framework computes in
    [float32], where a value close to 0 or to 1 is rounded to it. *)
Definition sigmoid (x : R) : R := (1 / (1 + exp (- x)))%R.

(** *** What each statement does *)

Section Exec.
Variable lib : Library.

(** [layer(arg)], or [layer(arg, training=...)] when the framework runs
    the graph.  On a tensor the layer computes; on a symbolic tensor it
    adds a node to the graph.  Neither preprocessing layer consults the
    training flag. *)
Definition apply_layer (training : bool) (f a : Val) : M Val :=
  match f, a with
  | VNormalization l, VTensor t =>
      y ← lift (Normalization_call l t); mret (VFloats y)
  | VNormalization l, VSym x => mret (VSym (Normalize l x))
  | VCategoryLayer l, VTensor t =>
      y ← lift (CategoryLayer_call l t); mret (VFloats y)
  | VCategoryLayer l, VSym x =>
      mret (VSym (Encode (index_layer l) (encoder_layer l) x))
  | _, _ => raise (TypeError "object is not callable on this argument")
  end.

Definition exec (s : Stmt) (g : Globals) : M Globals :=
  match s with
  | S_get_file =>
      lift (get_file lib "petfinder_mini.zip" dataset_url);;
      mret g
  | S_read_csv dst =>
      df ← lift (read_csv lib csv_file);
      l ← alloc df;
      mret (<[dst := VRef l]> g)
  | S_head src =>
      l ← get_ref g src;
      deref l;;
      mret g
  | S_create_target df =>
      l ← get_ref g df;
      create_target l;;
      mret g
  | S_drop_unused df =>
      l ← get_ref g df;
      l' ← drop_unused l;
      mret (<[df := VRef l']> g)
  | S_train_test_split dst1 dst2 src =>
      l ← get_ref g src;
      df ← deref l;
      parts ← lift (train_test_split lib df (2 / 10)%R);
      l1 ← alloc (fst parts);
      l2 ← alloc (snd parts);
      mret (<[dst2 := VRef l2]> (<[dst1 := VRef l1]> g))
  | S_print_len src =>
      l ← get_ref g src;
      deref l;;
      mret g
  | S_assign_nat dst n =>
      mret (<[dst := VNat n]> g)
  | S_df_to_dataset dst src shuffle_kw batch_size_kw =>
      l ← get_ref g src;
      bs ← match batch_size_kw with
           | Some x => get_nat g x
           | None => mret default_batch_size
           end;
      ds ← df_to_dataset l (default default_shuffle shuffle_kw) bs;
      mret (<[dst := VDataset ds]> g)
  | S_take_one dst_x dst_y src =>
      ds ← get_dataset g src;
      es ← lift (iterate (shuffle_order lib) (take 1 ds));
      match es with
      | [EPair x y] =>
          mret (<[dst_y := VTensor y]> (<[dst_x := VFeatures x]> g))
      | _ => raise (ValueError "cannot unpack one (features, label) pair")
      end
  | S_print_keys src =>
      get_features g src;;
      mret g
  | S_print_item src key =>
      x ← get_features g src;
      lift (lookup_feature key x);;
      mret g
  | S_print_var src =>
      var g src;;
      mret g
  | S_getitem dst src key =>
      x ← get_features g src;
      t ← lift (lookup_feature key x);
      mret (<[dst := VTensor t]> g)
  | S_get_normalization_layer dst name ds =>
      d ← get_dataset g ds;
      l ← lift (get_normalization_layer (shuffle_order lib) name d);
      mret (<[dst := VNormalization l]> g)
  | S_get_category_encoding_layer dst name ds dtype max_tokens =>
      d ← get_dataset g ds;
      l ← lift (get_category_encoding_layer (shuffle_order lib)
                  name d dtype max_tokens);
      mret (<[dst := VCategoryLayer l]> g)
  | S_apply dst layer arg =>
      f ← var g layer;
      a ← var g arg;
      r ← apply_layer false f a;
      mret (match dst with Some d => <[d := r]> g | None => g end)
  | S_new_list dst =>
      mret (<[dst := VSyms []]> g)
  | S_Input dst name dtype =>
      mret (<[dst := VSym (Input name dtype)]> g)
  | S_append lst elem =>
      xs ← get_syms g lst;
      x ← get_sym g elem;
      mret (<[lst := VSyms (xs ++ [x])]> g)
  | S_concatenate dst src =>
      xs ← get_syms g src;
      mret (<[dst := VSym (Concatenate xs)]> g)
  | S_Dense dst units activation src =>
      x ← get_sym g src;
      mret (<[dst := VSym (Dense units activation x)]> g)
  | S_Dropout dst rate src =>
      x ← get_sym g src;
      mret (<[dst := VSym (Dropout rate x)]> g)
  | S_Model dst ins out =>
      xs ← get_syms g ins;
      y ← get_sym g out;
      mret (<[dst := VModel (mkModel xs y None (initializer lib y))]> g)
  | S_compile model =>
      m ← get_model g model;
      mret (<[model := VModel
                (mkModel (inputs m) (output m)
                   (Some (mkCompile "adam"
                            "BinaryCrossentropy(from_logits=True)"
                            ["accuracy"]))
                   (weights m))]> g)
  | S_plot_model model =>
      m ← get_model g model;
      lift (plot_model lib m);;
      mret g
  | S_fit model train val epochs =>
      m ← get_model g model;
      dt ← get_dataset g train;
      dv ← get_dataset g val;
      w ← lift (fit lib m dt epochs dv);
      mret (<[model := VModel
                (mkModel (inputs m) (output m) (compiled m) w)]> g)
  | S_evaluate dst_loss dst_acc model ds =>
      m ← get_model g model;
      d ← get_dataset g ds;
      la ← lift (evaluate lib m d);
      mret (<[dst_acc := VReal (snd la)]> (<[dst_loss := VReal (fst la)]> g))
  | S_save model path =>
      m ← get_model g model;
      saved ← lift (save_model lib m);
      write_file path saved;;
      mret g
  | S_load_model dst path =>
      saved ← read_file path;
      m ← lift (load_model lib saved);
      mret (<[dst := VModel m]> g)
  | S_sample dst =>
      mret (<[dst := VSample sample]> g)
  | S_convert_to_tensor dst src =>
      kv ← get_sample g src;
      mret (<[dst := VFeatures
                (List.map (λ p : string * Cell, (fst p, vec [snd p])) kv)]> g)
  | S_predict dst model arg =>
      m ← get_model g model;
      x ← get_features g arg;
      y ← lift (predict lib m x);
      mret (<[dst := VFloats y]> g)
  | S_sigmoid dst src =>
      t ← get_floats g src;
      match t with
      | TN (row :: _) => mret (<[dst := VFloats (tmap sigmoid row)]> g)
      | _ => raise (ValueError "index 0 is out of bounds")
      end
  | S_print_percent src =>
      get_floats g src;;
      mret g
  end.

(** Statements run one after the other; the first that raises ends the
    run.  The result comes with the statements that were entered. *)
Fixpoint run (script : list Stmt) (g : Globals) (m : Mem)
  : Res Globals * Mem * list Stmt :=
  match script with
  | [] => (Ok g, m, [])
  | s :: script' =>
      match exec s g m with
      | (Ok g', m') =>
          let '(r, m'', entered) := run script' g' m' in
          (r, m'', s :: entered)
      | (Raise e, m') => (Raise e, m', [s])
      end
  end.

End Exec.

(** *** The cells, by execution count *)

Definition cell_4 : list Stmt :=
  [ S_get_file;
    S_read_csv "dataframe" ].

Definition cell_5 : list Stmt :=
  [ S_head "dataframe" ].

Definition cell_6 : list Stmt :=
  [ S_create_target "dataframe";
    S_drop_unused "dataframe" ].

Definition cell_7 : list Stmt :=
  [ S_train_test_split "train" "test" "dataframe";
    S_train_test_split "train" "val" "train";
    S_print_len "train";
    S_print_len "val";
    S_print_len "test" ].

Definition cell_9 : list Stmt :=
  [ S_assign_nat "batch_size" 5;
    S_df_to_dataset "train_ds" "train" None None ].

Definition cell_10 : list Stmt :=
  [ S_take_one "train_features" "label_batch" "train_ds";
    S_print_keys "train_features";
    S_print_item "train_features" "Age";
    S_print_var "label_batch" ].

Definition cell_12 : list Stmt :=
  [ S_getitem "photo_count_col" "train_features" "PhotoAmt";
    S_get_normalization_layer "layer" "PhotoAmt" "train_ds";
    S_apply None "layer" "photo_count_col" ].

Definition cell_14 : list Stmt :=
  [ S_getitem "type_col" "train_features" "Type";
    S_get_category_encoding_layer "layer" "Type" "train_ds" "string" None;
    S_apply None "layer" "type_col" ].

Definition cell_15 : list Stmt :=
  [ S_getitem "type_col" "train_features" "Age";
    S_get_category_encoding_layer "category_encoding_layer" "Age" "train_ds"
                                  "int64" (Some 5);
    S_apply None "category_encoding_layer" "type_col" ].

Definition cell_16 : list Stmt :=
  [ S_assign_nat "batch_size" 256;
    S_df_to_dataset "train_ds" "train" None (Some "batch_size");
    S_df_to_dataset "val_ds" "val" (Some false) (Some "batch_size");
    S_df_to_dataset "test_ds" "test" (Some false) (Some "batch_size") ].

Definition numeric_headers : list string := ["PhotoAmt"; "Fee"].

(** The body of [for header in ['PhotoAmt', 'Fee']]. *)
Definition numeric_body (header : string) : list Stmt :=
  [ S_Input "numeric_col" header None;
    S_get_normalization_layer "normalization_layer" header "train_ds";
    S_apply (Some "encoded_numeric_col") "normalization_layer" "numeric_col";
    S_append "all_inputs" "numeric_col";
    S_append "encoded_features" "encoded_numeric_col" ].

Definition cell_17 : list Stmt :=
  [ S_new_list "all_inputs";
    S_new_list "encoded_features" ]
  ++ flat_map numeric_body numeric_headers.

Definition cell_18 : list Stmt :=
  [ S_Input "age_col" "Age" (Some "int64");
    S_get_category_encoding_layer "encoding_layer" "Age" "train_ds"
                                  "int64" (Some 5);
    S_apply (Some "encoded_age_col") "encoding_layer" "age_col";
    S_append "all_inputs" "age_col";
    S_append "encoded_features" "encoded_age_col" ].

Definition categorical_cols : list string :=
  [ "Type"; "Color1"; "Color2"; "Gender"; "MaturitySize";
    "FurLength"; "Vaccinated"; "Sterilized"; "Health"; "Breed1" ].

(** The body of [for header in categorical_cols]. *)
Definition categorical_body (header : string) : list Stmt :=
  [ S_Input "categorical_col" header (Some "string");
    S_get_category_encoding_layer "encoding_layer" header "train_ds"
                                  "string" (Some 5);
    S_apply (Some "encoded_categorical_col") "encoding_layer"
            "categorical_col";
    S_append "all_inputs" "categorical_col";
    S_append "encoded_features" "encoded_categorical_col" ].

Definition cell_19 : list Stmt :=
  flat_map categorical_body categorical_cols.

Definition cell_20 : list Stmt :=
  [ S_concatenate "all_features" "encoded_features";
    S_Dense "x" 32 (Some "relu") "all_features";
    S_Dropout "x" (5 / 10)%R "x";
    S_Dense "output" 1 None "x";
    S_Model "model" "all_inputs" "output";
    S_compile "model" ].

Definition cell_21 : list Stmt :=
  [ S_plot_model "model" ].

Definition cell_22 : list Stmt :=
  [ S_fit "model" "train_ds" "val_ds" 10 ].

Definition cell_23 : list Stmt :=
  [ S_evaluate "loss" "accuracy" "model" "test_ds";
    S_print_var "accuracy" ].

Definition cell_24 : list Stmt :=
  [ S_save "model" "my_pet_classifier";
    S_load_model "reloaded_model" "my_pet_classifier" ].

Definition cell_25 : list Stmt :=
  [ S_sample "sample";
    S_convert_to_tensor "input_dict" "sample";
    S_predict "predictions" "reloaded_model" "input_dict";
    S_sigmoid "prob" "predictions";
    S_print_percent "prob" ].

(** The cells whose only purpose is to show a pipeline and three layers at
    work; nothing they bind is read by the cells that build the model. *)
Definition demonstration : list Stmt :=
  cell_9 ++ cell_10 ++ cell_12 ++ cell_14 ++ cell_15.

Definition notebook : list Stmt :=
  cell_4 ++ cell_5 ++ cell_6 ++ cell_7
  ++ demonstration
  ++ cell_16 ++ cell_17 ++ cell_18 ++ cell_19 ++ cell_20 ++ cell_21
  ++ cell_22 ++ cell_23 ++ cell_24 ++ cell_25.

(** ** Layers as objects

    A preprocessing layer is an object: its constructor allocates it,
    [adapt] writes its state and a call reads it.  The two functions of
    cells 11 and 13 are given here once more, with the objects they
    create; what they leave in an object is the state that the functions
    above return. *)

Module Objects.

Inductive LayerState : Type :=
| SNormalization (l : Normalization)
| SIndexLookup (l : IndexLookup)
| SCategoryEncoding (e : CategoryEncoding).

(** The layer objects that exist. *)
Abbreviation Layers := (gmap loc LayerState).

Definition L (A : Type) : Type := Layers → Res A * Layers.

#[global] Instance L_ret : MRet L := λ A a h, (Ok a, h).
#[global] Instance L_bind : MBind L := λ A B k c h,
  match c h with
  | (Ok a, h') => k a h'
  | (Raise e, h') => (Raise e, h')
  end.

Definition fail {A} (e : Exn) : L A := λ h, (Raise e, h).
Definition result {A} (r : Res A) : L A := λ h, (r, h).

(** A constructor call: a new object. *)
Definition new_layer (s : LayerState) : L loc :=
  λ h, let l := fresh (dom h) in (Ok l, <[l := s]> h).

Definition state_of (l : loc) : L LayerState :=
  λ h, match h !! l with
       | Some s => (Ok s, h)
       | None => (Raise (NameError "layer"), h)
       end.

Definition set_state (l : loc) (s : LayerState) : L unit :=
  λ h, (Ok tt, <[l := s]> h).

(** What the two functions return: the normalization layer itself, or
    [lambda feature: encoder(index(feature))], which holds the two layers
    it calls. *)
Inductive Callable : Type :=
| layer_object (normalizer : loc)
| encoding_lambda (encoder index : loc).

Section Functions.
Variable sigma : list Elem → list Elem.

(** [normalizer.adapt(feature_ds)] *)
Definition Normalization_adapt (normalizer : loc) (feature_ds : Dataset)
  : L unit :=
  s ← state_of normalizer;
  match s with
  | SNormalization l =>
      l' ← result (Normalization_adapt sigma l feature_ds);
      set_state normalizer (SNormalization l')
  | _ => fail (TypeError "not a Normalization layer")
  end.

(** [index.adapt(feature_ds)] *)
Definition IndexLookup_adapt (index : loc) (feature_ds : Dataset) : L unit :=
  s ← state_of index;
  match s with
  | SIndexLookup l =>
      l' ← result (IndexLookup_adapt sigma l feature_ds);
      set_state index (SIndexLookup l')
  | _ => fail (TypeError "not a lookup layer")
  end.

(** [index.vocabulary_size()] *)
Definition vocabulary_size (index : loc) : L nat :=
  s ← state_of index;
  match s with
  | SIndexLookup l => mret (Keras.vocabulary_size l)
  | _ => fail (TypeError "not a lookup layer")
  end.

(** [preprocessing.StringLookup(max_tokens=...)] and
    [preprocessing.IntegerLookup(max_tokens=...)] *)
Definition IndexLookup_new (k : LookupKind) (max_tokens : option nat)
  : L loc :=
  l ← result (Keras.IndexLookup_new k max_tokens);
  new_layer (SIndexLookup l).

(** [[
def get_normalization_layer(name, dataset):
  normalizer = preprocessing.Normalization(axis=None)
  feature_ds = dataset.map(lambda x, y: x[name])
  normalizer.adapt(feature_ds)
  return normalizer
]] *)
Definition get_normalization_layer (name : string) (dataset : Dataset)
  : L Callable :=
  normalizer ← new_layer (SNormalization Normalization_new);
  let feature_ds := map_feature name dataset in
  Normalization_adapt normalizer feature_ds;;
  mret (layer_object normalizer).

(** [[
def get_category_encoding_layer(name, dataset, dtype, max_tokens=None):
  if dtype == 'string':
    index = preprocessing.StringLookup(max_tokens=max_tokens)
  else:
    index = preprocessing.IntegerLookup(max_tokens=max_tokens)
  feature_ds = dataset.map(lambda x, y: x[name])
  index.adapt(feature_ds)
  encoder = preprocessing.CategoryEncoding(num_tokens=index.vocabulary_size())
  return lambda feature: encoder(index(feature))
]] *)
Definition get_category_encoding_layer (name : string) (dataset : Dataset)
    (dtype : string) (max_tokens : option nat) : L Callable :=
  index ← (if String.eqb dtype "string"
           then IndexLookup_new StringLookup max_tokens
           else IndexLookup_new IntegerLookup max_tokens);
  let feature_ds := map_feature name dataset in
  IndexLookup_adapt index feature_ds;;
  n ← vocabulary_size index;
  encoder ← new_layer (SCategoryEncoding (mkCategoryEncoding n));
  mret (encoding_lambda encoder index).

End Functions.

(** [layer(tensor, training=...)].  A call reads the state of the layer;
    none of the three layers consults the training flag. *)
Definition Normalization_call (training : bool) (normalizer : loc)
    (t : Tensor Cell) : L (Tensor R) :=
  s ← state_of normalizer;
  match s with
  | SNormalization l => result (Keras.Normalization_call l t)
  | _ => fail (TypeError "not a Normalization layer")
  end.

Definition IndexLookup_call (training : bool) (index : loc)
    (t : Tensor Cell) : L (Tensor nat) :=
  s ← state_of index;
  match s with
  | SIndexLookup l => result (Keras.IndexLookup_call l t)
  | _ => fail (TypeError "not a lookup layer")
  end.

Definition CategoryEncoding_call (training : bool) (encoder : loc)
    (t : Tensor nat) : L (Tensor R) :=
  s ← state_of encoder;
  match s with
  | SCategoryEncoding e => result (Keras.CategoryEncoding_call e t)
  | _ => fail (TypeError "not a CategoryEncoding layer")
  end.

(** Applying what a function returned. *)
Definition call (training : bool) (f : Callable) (feature : Tensor Cell)
  : L (Tensor R) :=
  match f with
  | layer_object normalizer => Normalization_call training normalizer feature
  | encoding_lambda encoder index =>
      indices ← IndexLookup_call training index feature;
      CategoryEncoding_call training encoder indices
  end.

(** What a program does with layers after one was returned: it builds
    further layers with the two functions and applies the layers it
    holds. *)
Inductive Op : Type :=
| op_get_normalization_layer (sigma : list Elem → list Elem)
                             (name : string) (dataset : Dataset)
| op_get_category_encoding_layer (sigma : list Elem → list Elem)
                                 (name : string) (dataset : Dataset)
                                 (dtype : string) (max_tokens : option nat)
| op_call (training : bool) (f : Callable) (feature : Tensor Cell).

(** The objects after an operation, whether it returned or raised. *)
Definition step (h : Layers) (op : Op) : Layers :=
  match op with
  | op_get_normalization_layer sigma name dataset =>
      (get_normalization_layer sigma name dataset h).2
  | op_get_category_encoding_layer sigma name dataset dtype max_tokens =>
      (get_category_encoding_layer sigma name dataset dtype max_tokens h).2
  | op_call training f feature => (call training f feature h).2
  end.

Definition steps (ops : list Op) (h : Layers) : Layers :=
  fold_left step ops h.

(** One of the two functions returned [f]. *)
Inductive returned (sigma : list Elem → list Elem) (h : Layers)
    (f : Callable) (h' : Layers) : Prop :=
| returned_normalization name dataset :
    get_normalization_layer sigma name dataset h = (Ok f, h') →
    returned sigma h f h'
| returned_category name dataset dtype max_tokens :
    get_category_encoding_layer sigma name dataset dtype max_tokens h
    = (Ok f, h') →
    returned sigma h f h'.

(** The layer, as the script holds it, that an object stands for. *)
Definition value_of (h : Layers) (f : Callable) : option Val :=
  match f with
  | layer_object normalizer =>
      match h !! normalizer with
      | Some (SNormalization l) => Some (VNormalization l)
      | _ => None
      end
  | encoding_lambda encoder index =>
      match h !! index, h !! encoder with
      | Some (SIndexLookup i), Some (SCategoryEncoding e) =>
          Some (VCategoryLayer (mkCategoryLayer i e))
      | _, _ => None
      end
  end.

End Objects.

(** The outcome of a call, as the value that the script would bind. *)
Definition floats (r : Res (Tensor R)) : Res Val :=
  match r with
  | Ok t => Ok (VFloats t)
  | Raise e => Raise e
  end.

(** Every object of the first store is in the second as it was. *)
Definition untouched (h h' : Objects.Layers) : Prop :=
  ∀ l s, h !! l = Some s → h' !! l = Some s.

(** ** Notions used in the statements *)

(** The dataset a variable holds. *)
Definition dataset_of (g : Globals) (x : string) : option Dataset :=
  match g !! x with
  | Some (VDataset ds) => Some ds
  | _ => None
  end.

(** The dataset a variable holds when the notebook has run to its end. *)
Definition final_dataset (lib : Library) (x : string) : option Dataset :=
  match (run lib notebook ∅ empty_mem).1.1 with
  | Ok g => dataset_of g x
  | Raise _ => None
  end.

(** Shuffle, then batch, then prefetch. *)
Definition shuffled_pipeline (ds : Dataset) : Prop :=
  ∃ n bs features labels,
    ds = prefetch bs
           (batch bs (shuffle n (from_tensor_slices features labels))).

(** A frame that [from_tensor_slices] takes as it is: the column labels are
    distinct, as in a frame read from a CSV, and every column converts to a
    tensor. *)
Definition tensorable (df : DataFrame) : bool :=
  bool_decide (NoDup (List.map fst (cols df)))
  && forallb (λ p : string * list Cell, convertible (snd p)) (cols df).

(** The steps of the tutorial. *)
Inductive Phase : Type :=
| Load | Split | Wrap | Layers | Classifier | Train | Evaluate | Save
| Reload | Predict.

#[global] Instance Phase_eq_dec : EqDecision Phase.
Proof. solve_decision. Defined.

(** The step a statement belongs to; statements that only display or
    rebind a value belong to none. *)
Definition phase_of (s : Stmt) : option Phase :=
  match s with
  | S_read_csv _ => Some Load
  | S_train_test_split _ _ _ => Some Split
  | S_df_to_dataset _ _ _ _ => Some Wrap
  | S_get_normalization_layer _ _ _ => Some Layers
  | S_get_category_encoding_layer _ _ _ _ _ => Some Layers
  | S_concatenate _ _ => Some Classifier
  | S_Dense _ _ _ _ => Some Classifier
  | S_Dropout _ _ _ => Some Classifier
  | S_Model _ _ _ => Some Classifier
  | S_compile _ => Some Classifier
  | S_fit _ _ _ _ => Some Train
  | S_evaluate _ _ _ _ => Some Evaluate
  | S_save _ _ => Some Save
  | S_load_model _ _ => Some Reload
  | S_predict _ _ _ => Some Predict
  | _ => None
  end.

(** Runs of the same step count once. *)
Fixpoint collapse (l : list Phase) : list Phase :=
  match l with
  | [] => []
  | p :: l' =>
      match l' with
      | [] => [p]
      | q :: _ => if decide (p = q) then collapse l' else p :: collapse l'
      end
  end.

Definition phases (script : list Stmt) : list Phase :=
  collapse (omap phase_of script).

(** The column labels a statement spells out. *)
Definition columns_named (s : Stmt) : list string :=
  match s with
  | S_create_target _ => ["AdoptionSpeed"; "target"]
  | S_drop_unused _ => unused_columns
  | S_df_to_dataset _ _ _ _ => ["target"]
  | S_print_item _ key => [key]
  | S_getitem _ _ key => [key]
  | S_get_normalization_layer _ name _ => [name]
  | S_get_category_encoding_layer _ name _ _ _ => [name]
  | S_Input _ name _ => [name]
  | S_sample _ => List.map fst sample
  | _ => []
  end.

Definition names_unused_column (s : Stmt) : bool :=
  existsb (λ c, existsb (String.eqb c) unused_columns) (columns_named s).

(** The label of one row. *)
Definition label_of (speed : Cell) : Cell :=
  if cell_eqb speed (CInt 4) then CInt 0 else CInt 1.

(** The steps in the order the tutorial is summarised in. *)
Definition summary_order : list Phase :=
  [Load; Split; Wrap; Layers; Classifier; Train; Evaluate; Save; Reload;
   Predict].

Definition is_predict (s : Stmt) : bool :=
  bool_decide (phase_of s = Some Predict).

(** The lookup layer the function builds for a dtype. *)
Definition kind_for (dtype : string) : LookupKind :=
  if String.eqb dtype "string" then StringLookup else IntegerLookup.

(** The values the two functions of the notebook return. *)
Inductive returned_layer : Val → Prop :=
| returned_normalization sigma name dataset layer :
    get_normalization_layer sigma name dataset = Ok layer →
    returned_layer (VNormalization layer)
| returned_category sigma name dataset dtype max_tokens layer :
    get_category_encoding_layer sigma name dataset dtype max_tokens
    = Ok layer →
    returned_layer (VCategoryLayer layer).

(** The tensor an element holds under a key. *)
Definition tensor_under (k : string) (e : Elem) : Tensor Cell :=
  match e with
  | EPair x _ =>
      match lookup_feature k x with
      | Ok t => t
      | Raise _ => TN []
      end
  | ESingle _ => TN []
  end.

Definition label_under (e : Elem) : Tensor Cell :=
  match e with
  | EPair _ y => y
  | ESingle t => t
  end.

(** An element is a pair whose features have the keys [ks], in that order. *)
Definition keyed (ks : list string) (e : Elem) : Prop :=
  ∃ x y, e = EPair x y ∧ List.map fst x = ks.

(** The scalars a keyed element holds under a feature. *)
Definition scalars_under (name : string) (e : Elem) : list Cell :=
  leaves (tensor_under name e).

(** Row [i] of the frame, as an element. *)
Definition row (features : list (string * list Cell)) (labels : list Cell)
    (i : nat) : Elem :=
  EPair (List.map (λ p : string * list Cell,
                     (p.1, T0 (default (CInt 0) (p.2 !! i)))) features)
        (T0 (default (CInt 0) (labels !! i))).

(** The float a numeric cell is cast to. *)
Definition float_of (c : Cell) : R :=
  match c with
  | CInt z => IZR z
  | CStr _ => 0%R
  end.

Definition is_int (c : Cell) : bool :=
  match c with CInt _ => true | CStr _ => false end.

(** The dataset the layers are adapted on and the two lists that cells 17
    to 19 grow. *)
Definition building (d : Dataset) (ins feats : list Sym) (g : Globals)
  : Prop :=
  g !! "train_ds" = Some (VDataset d)
  ∧ g !! "all_inputs" = Some (VSyms ins)
  ∧ g !! "encoded_features" = Some (VSyms feats).

(** How a feature is presented to the classifier. *)
Inductive Treatment : Type :=
| Numeric | IntegerCategorical | StringCategorical.

(** The column an encoded feature reads and the way it is encoded. *)
Definition treatment (x : Sym) : option (string * Treatment) :=
  match x with
  | Normalize _ (Input name _) => Some (name, Numeric)
  | Encode index _ (Input name _) =>
      Some (name, match kind index with
                  | StringLookup => StringCategorical
                  | IntegerLookup => IntegerCategorical
                  end)
  | _ => None
  end.

Definition input_name (x : Sym) : option string :=
  match x with
  | Input name _ => Some name
  | _ => None
  end.

(** The encoded feature [x] is the input named [name] passed through the
    layer that the notebook's function returned for that very column of the
    dataset [d]. *)
Definition normalized_from (sigma : list Elem → list Elem) (d : Dataset)
    (name : string) (x : Sym) : Prop :=
  ∃ layer,
    get_normalization_layer sigma name d = Ok layer
    ∧ x = Normalize layer (Input name None).

Definition encoded_from (sigma : list Elem → list Elem) (d : Dataset)
    (dtype : string) (name : string) (x : Sym) : Prop :=
  ∃ layer,
    get_category_encoding_layer sigma name d dtype (Some 5) = Ok layer
    ∧ x = Encode (index_layer layer) (encoder_layer layer)
                 (Input name (Some dtype)).

Definition feature_from (sigma : list Elem → list Elem) (d : Dataset)
    (c : string * Treatment) (x : Sym) : Prop :=
  match snd c with
  | Numeric => normalized_from sigma d (fst c) x
  | IntegerCategorical => encoded_from sigma d "int64" (fst c) x
  | StringCategorical => encoded_from sigma d "string" (fst c) x
  end.

(** The notebook up to the cell that builds the model. *)
Definition through_cell_20 : list Stmt :=
  cell_4 ++ cell_5 ++ cell_6 ++ cell_7 ++ demonstration
  ++ cell_16 ++ cell_17 ++ cell_18 ++ cell_19 ++ cell_20.

Definition model_columns : list (string * Treatment) :=
  [ ("PhotoAmt", Numeric); ("Fee", Numeric); ("Age", IntegerCategorical);
    ("Type", StringCategorical); ("Color1", StringCategorical);
    ("Color2", StringCategorical); ("Gender", StringCategorical);
    ("MaturitySize", StringCategorical); ("FurLength", StringCategorical);
    ("Vaccinated", StringCategorical); ("Sterilized", StringCategorical);
    ("Health", StringCategorical); ("Breed1", StringCategorical) ].

(** ** A small world to run the notebook in *)

Definition strs (l : list string) : list Cell := List.map CStr l.
Definition ints (l : list Z) : list Cell := List.map CInt l.

(** Five rows, with their label. *)
Definition toy_frame : DataFrame :=
  mkDF [0; 1; 2; 3; 4]%Z
    [ ("Type", strs ["Cat"; "Cat"; "Dog"; "Dog"; "Dog"]);
      ("Age", ints [3; 1; 1; 4; 1]%Z);
      ("PhotoAmt", ints [1; 2; 7; 8; 2]%Z);
      ("target", ints [1; 1; 1; 1; 0]%Z) ].

Definition toy_mem : Mem := mkMem {[ 0%nat := toy_frame ]} ∅.

(** Ten rows in the layout of the PetFinder CSV. *)
Definition toy_csv : DataFrame :=
  mkDF [0; 1; 2; 3; 4; 5; 6; 7; 8; 9]%Z
    [
      ("Type",
       strs ["Cat"; "Cat"; "Dog"; "Dog"; "Dog"; "Cat"; "Cat"; "Dog"; "Cat";
             "Cat"]);
      ("Age",
       ints [3; 1; 1; 4; 1; 3; 12; 0; 2; 12]%Z);
      ("Breed1",
       strs ["Tabby"; "Domestic Medium Hair"; "Mixed Breed"; "Mixed Breed";
             "Mixed Breed"; "Domestic Short Hair"; "Domestic Long Hair";
             "Mixed Breed"; "Domestic Medium Hair"; "Domestic Medium Hair"]);
      ("Gender",
       strs ["Male"; "Male"; "Male"; "Female"; "Male"; "Female"; "Male";
             "Female"; "Female"; "Female"]);
      ("Color1",
       strs ["Black"; "Black"; "Brown"; "Black"; "Black"; "Cream"; "Black";
             "Black"; "Gray"; "Black"]);
      ("Color2",
       strs ["White"; "Brown"; "White"; "Brown"; "No Color"; "Gray";
             "No Color"; "Cream"; "No Color"; "White"]);
      ("MaturitySize",
       strs ["Small"; "Medium"; "Medium"; "Medium"; "Medium"; "Medium";
             "Medium"; "Medium"; "Medium"; "Medium"]);
      ("FurLength",
       strs ["Short"; "Medium"; "Medium"; "Short"; "Short"; "Short";
             "Long"; "Medium"; "Medium"; "Medium"]);
      ("Vaccinated",
       strs ["No"; "Not Sure"; "Yes"; "Yes"; "No"; "No"; "No"; "No"; "No";
             "Not Sure"]);
      ("Sterilized",
       strs ["No"; "Not Sure"; "No"; "No"; "No"; "No"; "Not Sure"; "No";
             "No"; "Not Sure"]);
      ("Health",
       strs ["Healthy"; "Healthy"; "Healthy"; "Healthy"; "Healthy";
             "Healthy"; "Healthy"; "Healthy"; "Healthy"; "Healthy"]);
      ("Fee",
       ints [100; 0; 0; 150; 0; 0; 300; 0; 0; 0]%Z);
      ("Description",
       strs ["Nibble"; "Found alone"; "Pregnant mother"; "Good guard dog";
             "Handsome boy"; "Stray kitten"; "Long hair"; "Siblings";
             "Healthy and active"; "Manja"]);
      ("PhotoAmt",
       ints [1; 2; 7; 8; 3; 2; 3; 6; 6; 2]%Z);
      ("AdoptionSpeed",
       ints [2; 0; 3; 2; 2; 2; 1; 4; 1; 4]%Z) ].

Definition rows_between (lo hi : nat) (df : DataFrame) : DataFrame :=
  let cut {A} (l : list A) := firstn (hi - lo) (skipn lo l) in
  mkDF (cut (index df))
       (List.map (λ p : string * list Cell, (fst p, cut (snd p))) (cols df)).

(** A split that keeps the row order: the last fifth, rounded up, is the
    test part. *)
Definition toy_split (df : DataFrame) (test_size : R)
  : Res (DataFrame * DataFrame) :=
  let n := len df in
  let n_test := (n + 4) / 5 in
  if Nat.eqb (n - n_test) 0
  then Raise (ValueError "the resulting train set will be empty")
  else Ok (rows_between 0 (n - n_test) df, rows_between (n - n_test) n df).

Definition toy_lib : Library := {|
  get_file := λ _ _, Ok tt;
  read_csv := λ _, Ok toy_csv;
  train_test_split := toy_split;
  shuffle_order := @rev Elem;
  plot_model := λ _, Ok tt;
  fit := λ m _ _ _, Ok (weights m);
  evaluate := λ _ _, Ok (0%R, 1%R);
  initializer := λ _, [];
  save_model := λ m, Ok m;
  load_model := λ m, Ok m;
  predict := λ _ _, Ok (TN [vec [0%R]])
|}.

Definition toy_splits : Globals :=
  <["test" := VRef 0%nat]>
    (<["val" := VRef 0%nat]> {[ "train" := VRef 0%nat ]}).

Definition toy_globals : Globals := {[ "dataframe" := VRef 0%nat ]}.
Definition toy_csv_mem : Mem := mkMem {[ 0%nat := toy_csv ]} ∅.

(** A world in which training fails. *)
Definition untrained_lib : Library := {|
  get_file := get_file toy_lib;
  read_csv := read_csv toy_lib;
  train_test_split := train_test_split toy_lib;
  shuffle_order := shuffle_order toy_lib;
  plot_model := plot_model toy_lib;
  fit := λ _ _ _ _, Raise (LibraryError "fit" 1);
  evaluate := evaluate toy_lib;
  initializer := initializer toy_lib;
  save_model := save_model toy_lib;
  load_model := load_model toy_lib;
  predict := predict toy_lib
|}.

(** The train pipeline over the five-row frame, as [df_to_dataset] builds
    it with batch size 2. *)
Definition toy_train_ds : Dataset :=
  prefetch 2
    (batch 2
       (shuffle 5
          (source_of toy_frame [CInt 1; CInt 1; CInt 1; CInt 1; CInt 0]))).

(** A frame whose fee is 0 in every row, wrapped as cell 16 wraps the train
    split. *)
Definition free_pets : Dataset :=
  prefetch 256
    (batch 256
       (shuffle 3
          (from_tensor_slices
             [("Fee", [CInt 0; CInt 0; CInt 0]);
              ("PhotoAmt", [CInt 1; CInt 3; CInt 2])]
             [CInt 1; CInt 0; CInt 1]))).

(** Two rows with one and three photos. *)
Definition two_pets : Dataset :=
  prefetch 256
    (batch 256
       (shuffle 2
          (from_tensor_slices
             [("PhotoAmt", [CInt 1; CInt 3])]
             [CInt 1; CInt 0]))).

(** ** Further notions: batches, the sample and the flow of variables *)

(** Every column of the frame has one value for each row. *)
Definition well_formed (df : DataFrame) : bool :=
  same_length (len df) (cols df).

(** The pipeline [df_to_dataset] builds over a source: shuffle when asked,
    then batch, then prefetch. *)
Definition wrapped (sh : bool) (k bs pf : nat) (src : Dataset) : Dataset :=
  prefetch pf (batch bs (if sh then shuffle k src else src)).

(** The number of batches of [bs] rows that [n] rows fill, the last one
    possibly in part. *)
Definition batches_for (n bs : nat) : nat := (n + bs - 1) / bs.

(** The batch made of a group of rows: under every key the values of the
    rows, in their order, and their labels in the same order. *)
Definition stacked (ks : list string) (group : list Elem) : Elem :=
  EPair (List.map (λ k, (k, TN (List.map (tensor_under k) group))) ks)
        (TN (List.map label_under group)).

(** The token that a lookup layer reserves for the values outside its
    vocabulary: ['[UNK]'] for strings, [-1] for integers.  The framework
    does not count it when it meets it in the data. *)
Definition oov_token (k : LookupKind) : Cell :=
  match k with
  | StringLookup => CStr "[UNK]"
  | IntegerLookup => CInt (-1)
  end.

(** [a] does not come after [b] in a vocabulary. *)
Definition not_after (a b : Cell * nat) : Prop := before b a = false.

(** The frame that cell 6 leaves in the object it read, and the frame it
    binds [dataframe] to. *)
Definition labelled (df : DataFrame) (speed : list Cell) : DataFrame :=
  mkDF (index df) (assign "target" (List.map label_of speed) (cols df)).

Definition trimmed (df : DataFrame) : DataFrame :=
  mkDF (index df) (remove_cols unused_columns (cols df)).

(** The library's split hands out every row once. *)
Definition splits_partition (lib : Library) : Prop :=
  ∀ df test_size part1 part2,
    train_test_split lib df test_size = Ok (part1, part2) →
    Permutation (index df) (index part1 ++ index part2).

(** The argument of [predict] in cell 25: one row, a batch of one value
    under every key. *)
Definition input_dict : list (string * Tensor Cell) :=
  List.map (λ p : string * Cell, (fst p, vec [snd p])) sample.

(** Training, evaluation, saving, reloading and inference. *)
Definition cells_22_to_25 : list Stmt :=
  cell_22 ++ cell_23 ++ cell_24 ++ cell_25.

(** The value the sample of cell 25 gives for a key. *)
Definition sample_value (name : string) : option Cell :=
  snd <$> List.find (λ p : string * Cell, String.eqb (fst p) name) sample.

(** A value fits the dtype an input was declared with: a string for
    [dtype='string'], a number otherwise. *)
Definition fits (x : Sym) (c : Cell) : bool :=
  match x with
  | Input _ (Some dtype) =>
      if String.eqb dtype "string" then negb (is_int c) else is_int c
  | Input _ None => is_int c
  | _ => false
  end.

(** The cells that declare the inputs of the model. *)
Definition cells_17_to_19 : list Stmt := cell_17 ++ cell_18 ++ cell_19.

(** The inputs they declare, in order. *)
Definition declared_inputs : list Sym :=
  List.map (λ h, Input h None) numeric_headers
  ++ [Input "Age" (Some "int64")]
  ++ List.map (λ h, Input h (Some "string")) categorical_cols.

(** The variables a statement reads, in the order it reads them. *)
Definition reads (s : Stmt) : list string :=
  match s with
  | S_get_file | S_read_csv _ | S_assign_nat _ _ | S_new_list _
  | S_Input _ _ _ | S_load_model _ _ | S_sample _ => []
  | S_head src | S_print_len src | S_print_keys src | S_print_item src _
  | S_print_var src | S_print_percent src => [src]
  | S_create_target df | S_drop_unused df => [df]
  | S_train_test_split _ _ src => [src]
  | S_df_to_dataset _ src _ (Some bs) => [src; bs]
  | S_df_to_dataset _ src _ None => [src]
  | S_take_one _ _ src | S_getitem _ src _ => [src]
  | S_get_normalization_layer _ _ ds => [ds]
  | S_get_category_encoding_layer _ _ ds _ _ => [ds]
  | S_apply _ layer arg => [layer; arg]
  | S_append lst elem => [lst; elem]
  | S_concatenate _ src | S_Dense _ _ _ src | S_Dropout _ _ src => [src]
  | S_Model _ ins out => [ins; out]
  | S_compile model | S_plot_model model | S_save model _ => [model]
  | S_fit model train val _ => [model; train; val]
  | S_evaluate _ _ model ds => [model; ds]
  | S_convert_to_tensor _ src | S_sigmoid _ src => [src]
  | S_predict _ model arg => [model; arg]
  end.

(** The variables a statement binds when it completes. *)
Definition writes (s : Stmt) : list string :=
  match s with
  | S_read_csv dst | S_assign_nat dst _ | S_new_list dst | S_Input dst _ _
  | S_load_model dst _ | S_sample dst => [dst]
  | S_drop_unused df => [df]
  | S_train_test_split dst1 dst2 _ => [dst1; dst2]
  | S_df_to_dataset dst _ _ _ => [dst]
  | S_take_one dst_x dst_y _ => [dst_x; dst_y]
  | S_getitem dst _ _ => [dst]
  | S_get_normalization_layer dst _ _ => [dst]
  | S_get_category_encoding_layer dst _ _ _ _ => [dst]
  | S_apply (Some dst) _ _ => [dst]
  | S_append lst _ => [lst]
  | S_concatenate dst _ | S_Dense dst _ _ _ | S_Dropout dst _ _ => [dst]
  | S_Model dst _ _ => [dst]
  | S_compile model | S_fit model _ _ _ => [model]
  | S_evaluate dst_loss dst_acc _ _ => [dst_loss; dst_acc]
  | S_convert_to_tensor dst _ | S_predict dst _ _ | S_sigmoid dst _ => [dst]
  | _ => []
  end.

Definition bound_in (defined : list string) (x : string) : bool :=
  existsb (String.eqb x) defined.

(** Every statement reads only variables that an earlier statement of the
    script, or the initial state, has bound. *)
Fixpoint bound_before_use (defined : list string) (script : list Stmt)
  : bool :=
  match script with
  | [] => true
  | s :: script' =>
      forallb (bound_in defined) (reads s)
      && bound_before_use (writes s ++ defined) script'
  end.

(** The statements of a script that read a variable. *)
Definition statements_reading (x : string) (script : list Stmt)
  : list Stmt :=
  List.filter (λ s, bound_in (reads s) x) script.

(** What follows the demonstration cells. *)
Definition after_demonstration : list Stmt :=
  cell_16 ++ cell_17 ++ cell_18 ++ cell_19 ++ cell_20 ++ cell_21
  ++ cell_22 ++ cell_23 ++ cell_24 ++ cell_25.

(** The script binds the variable anew before it reads it, if it reads it
    at all. *)
Fixpoint rebound_before_read (x : string) (script : list Stmt) : bool :=
  match script with
  | [] => true
  | s :: script' =>
      if bound_in (reads s) x then false
      else if bound_in (writes s) x then true
      else rebound_before_read x script'
  end.

(** The ten rows of the CSV with a label each, wrapped as cell 16 wraps the
    train split. *)
Definition toy_csv_ds : Dataset :=
  wrapped true 10 256 256
    (from_tensor_slices (cols toy_csv)
       (ints [1; 1; 1; 1; 1; 1; 1; 0; 1; 0]%Z)).

(** The script runs through, from one state to another. *)
Definition completes (lib : Library) (script : list Stmt)
    (g : Globals) (m : Mem) (g' : Globals) (m' : Mem) : Prop :=
  run lib script g m = (Ok g', m', script).

(** Every object of the first store is in the second as it was. *)
Definition keeps (m m' : Mem) : Prop :=
  ∀ l df, heap m !! l = Some df → heap m' !! l = Some df.

(** A column of integers, a column of strings. *)
Definition int_column (df : DataFrame) (c : string) : Prop :=
  ∃ col, lookup_col c (cols df) = Some col
         ∧ Forall (λ v, is_int v = true) col.

Definition str_column (df : DataFrame) (c : string) : Prop :=
  ∃ col, lookup_col c (cols df) = Some col
         ∧ Forall (λ v, is_int v = false) col.

(** What the notebook expects of the train split: rows, a label, the three
    numeric columns and the ten string columns, in a frame that converts to
    tensors. *)
Definition trainable (df : DataFrame) : Prop :=
  well_formed df = true
  ∧ 0 < len df
  ∧ has_col "target" df = true
  ∧ Forall (int_column df) ("Age" :: numeric_headers)
  ∧ Forall (str_column df) categorical_cols
  ∧ tensorable df = true.

(** What it expects of the validation and test splits: rows and a label, in
    a frame that converts to tensors. *)
Definition held_out (df : DataFrame) : Prop :=
  0 < len df ∧ has_col "target" df = true ∧ tensorable df = true.

(** Libraries that do what they are asked: the download, the plot,
    training, evaluation, saving and loading return, the shuffle permutes,
    and a prediction has a first row. *)
Definition obliging (lib : Library) : Prop :=
  get_file lib "petfinder_mini.zip" dataset_url = Ok tt
  ∧ (∀ es, Permutation (shuffle_order lib es) es)
  ∧ (∀ model, plot_model lib model = Ok tt)
  ∧ (∀ model d n dv, is_ok (fit lib model d n dv) = true)
  ∧ (∀ model d, is_ok (evaluate lib model d) = true)
  ∧ (∀ model, is_ok (save_model lib model) = true)
  ∧ (∀ saved, is_ok (load_model lib saved) = true)
  ∧ (∀ model x, ∃ row rest, predict lib model x = Ok (TN (row :: rest))).

(** The first batch a pass over the train pipeline yields. *)
Definition first_batch_of (train : DataFrame) (labels : list Cell)
    (x : list (string * Tensor Cell)) (y : Tensor Cell) : Prop :=
  ∃ group,
    Forall (λ e, ∃ i, i < length labels
                      ∧ e = row (cols (popped train)) labels i) group
    ∧ x = List.map (λ k, (k, TN (List.map (tensor_under k) group)))
                   (List.map fst (cols (popped train)))
    ∧ y = TN (List.map label_under group).

Definition cells_20_to_25 : list Stmt :=
  cell_20 ++ cell_21 ++ cell_22 ++ cell_23 ++ cell_24 ++ cell_25.

(** The splits of the ten-row CSV, as the toy split cuts them. *)
Definition toy_speed : list Cell :=
  ints [2; 0; 3; 2; 2; 2; 1; 4; 1; 4]%Z.

Definition toy_labelled : DataFrame := trimmed (labelled toy_csv toy_speed).

Definition toy_rest : DataFrame := rows_between 0 8 toy_labelled.

Definition toy_test : DataFrame := rows_between 8 10 toy_labelled.

Definition toy_train : DataFrame := rows_between 0 6 toy_rest.

Definition toy_val : DataFrame := rows_between 6 8 toy_rest.

(** ** Further notions: the calls of the libraries *)

(** The outcome of a call, without its result. *)
Definition void {A} (r : Res A) : Res unit :=
  match r with
  | Ok _ => Ok tt
  | Raise e => Raise e
  end.

(** The calls of the notebook whose outcome the notebook cannot determine,
    in the order in which it makes them. *)
Inductive LibraryCall : Type :=
| call_get_file
| call_read_csv
| call_split_frame
| call_split_train
| call_plot_model
| call_fit
| call_evaluate
| call_save
| call_load_model
| call_predict.

Definition library_calls : list LibraryCall :=
  [ call_get_file; call_read_csv; call_split_frame; call_split_train;
    call_plot_model; call_fit; call_evaluate; call_save; call_load_model;
    call_predict ].

(** The statement that makes the call and its place in the script. *)
Definition statement_of (c : LibraryCall) : Stmt :=
  match c with
  | call_get_file => S_get_file
  | call_read_csv => S_read_csv "dataframe"
  | call_split_frame => S_train_test_split "train" "test" "dataframe"
  | call_split_train => S_train_test_split "train" "val" "train"
  | call_plot_model => S_plot_model "model"
  | call_fit => S_fit "model" "train_ds" "val_ds" 10
  | call_evaluate => S_evaluate "loss" "accuracy" "model" "test_ds"
  | call_save => S_save "model" "my_pet_classifier"
  | call_load_model => S_load_model "reloaded_model" "my_pet_classifier"
  | call_predict => S_predict "predictions" "reloaded_model" "input_dict"
  end.

Definition position_of (c : LibraryCall) : nat :=
  match c with
  | call_get_file => 0
  | call_read_csv => 1
  | call_split_frame => 5
  | call_split_train => 6
  | call_plot_model => 102
  | call_fit => 103
  | call_evaluate => 104
  | call_save => 106
  | call_load_model => 107
  | call_predict => 110
  end.

(** The statements that come before the call. *)
Definition before_call (c : LibraryCall) : list Stmt :=
  firstn (position_of c) notebook.

(** A statement that calls one of the libraries whose outcome is not
    determined. *)
Definition calls_library (s : Stmt) : bool :=
  match s with
  | S_get_file | S_read_csv _ | S_train_test_split _ _ _ | S_plot_model _
  | S_fit _ _ _ _ | S_evaluate _ _ _ _ | S_save _ _ | S_load_model _ _
  | S_predict _ _ _ => true
  | _ => false
  end.

(** The dataframe, the model and the features that a variable holds. *)
Definition frame_of (g : Globals) (m : Mem) (x : string)
  : option DataFrame :=
  match g !! x with
  | Some (VRef l) => heap m !! l
  | _ => None
  end.

Definition model_of (g : Globals) (x : string) : option Model :=
  match g !! x with
  | Some (VModel mo) => Some mo
  | _ => None
  end.

Definition features_of (g : Globals) (x : string)
  : option (list (string * Tensor Cell)) :=
  match g !! x with
  | Some (VFeatures f) => Some f
  | _ => None
  end.

(** What the library answers when the call is made in a state, with the
    arguments that the statement passes.  There is no answer when the state
    does not let the statement make the call. *)
Definition outcome (lib : Library) (c : LibraryCall) (g : Globals) (m : Mem)
  : option (Res unit) :=
  match c with
  | call_get_file => Some (get_file lib "petfinder_mini.zip" dataset_url)
  | call_read_csv => Some (void (read_csv lib csv_file))
  | call_split_frame =>
      df ← frame_of g m "dataframe";
      Some (void (train_test_split lib df (2 / 10)%R))
  | call_split_train =>
      df ← frame_of g m "train";
      Some (void (train_test_split lib df (2 / 10)%R))
  | call_plot_model =>
      model ← model_of g "model";
      Some (plot_model lib model)
  | call_fit =>
      model ← model_of g "model";
      train_ds ← dataset_of g "train_ds";
      val_ds ← dataset_of g "val_ds";
      Some (void (fit lib model train_ds 10 val_ds))
  | call_evaluate =>
      model ← model_of g "model";
      test_ds ← dataset_of g "test_ds";
      Some (void (evaluate lib model test_ds))
  | call_save =>
      model ← model_of g "model";
      Some (void (save_model lib model))
  | call_load_model =>
      saved ← files m !! "my_pet_classifier";
      Some (void (load_model lib saved))
  | call_predict =>
      model ← model_of g "reloaded_model";
      input_dict ← features_of g "input_dict";
      Some (void (predict lib model input_dict))
  end.

(** The kinds of value a variable can hold. *)
Definition is_dataset (v : Val) : Prop := ∃ ds, v = VDataset ds.
Definition is_model (v : Val) : Prop := ∃ mo, v = VModel mo.
Definition is_features (v : Val) : Prop := ∃ x, v = VFeatures x.

(** * Properties *)

(** ** Equality of cells *)

Lemma cell_eqb_eq a b : cell_eqb a b = true ↔ a = b.
Proof.
  destruct a, b; simpl; split; try discriminate; try congruence.
  - intros H%Z.eqb_eq. by subst.
  - intros [= ->]. apply Z.eqb_refl.
  - intros H%String.eqb_eq. by subst.
  - intros [= ->]. apply String.eqb_refl.
Qed.

(** ** The monad *)

Ltac unfold_M :=
  unfold mbind, M_bind, mret, M_ret, lift, raise in *.

Lemma bind_ok {A B} (c : M A) (k : A → M B) m a m' :
  c m = (Ok a, m') → (x ← c; k x) m = k a m'.
Proof. unfold_M. by intros ->. Qed.

Lemma bind_raise {A B} (c : M A) (k : A → M B) m e m' :
  c m = (Raise e, m') → (x ← c; k x) m = (Raise e, m').
Proof. unfold_M. by intros ->. Qed.

(** ** The input pipeline *)

Lemma deref_ok l m df : heap m !! l = Some df → deref l m = (Ok df, m).
Proof. unfold deref. by intros ->. Qed.

Lemma deref_dangling l m :
  heap m !! l = None → deref l m = (Raise (NameError "dataframe"), m).
Proof. unfold deref. by intros ->. Qed.

Lemma fresh_loc_ne (m : Mem) l df :
  heap m !! l = Some df → fresh (dom (heap m)) ≠ l.
Proof.
  intros Hl Heq.
  pose proof (is_fresh (dom (heap m))) as Hfresh.
  rewrite Heq in Hfresh. apply Hfresh, elem_of_dom. by eexists.
Qed.

Lemma lookup_col_elem_of c features col :
  lookup_col c features = Some col → (c, col) ∈ features.
Proof.
  induction features as [|[c' v] features IH]; simpl; [done|].
  destruct (String.eqb c c') eqn:E.
  - apply String.eqb_eq in E as ->. intros [= ->]. left.
  - intros H. right. by apply IH.
Qed.

Lemma forallb_remove_cols (P : string * list Cell → bool) cs features :
  forallb P features = true → forallb P (remove_cols cs features) = true.
Proof.
  rewrite !forallb_forall. intros H p Hp.
  apply H. unfold remove_cols in Hp. by apply filter_In in Hp as [Hp _].
Qed.

(** The columns of a frame that converts are tensors, the label among
    them. *)
Lemma tensorable_slices df labels :
  tensorable df = true →
  getitem df "target" = Ok labels →
  Dataset_from_tensor_slices (cols (popped df)) labels
  = Ok (from_tensor_slices (cols (popped df)) labels).
Proof.
  unfold tensorable, getitem. intros [_ Hconv]%andb_prop Ht.
  destruct (lookup_col "target" (cols df)) as [v|] eqn:Hc; [|done].
  injection Ht as ->. unfold Dataset_from_tensor_slices, popped.
  cbn [cols]. rewrite (forallb_remove_cols _ _ _ Hconv). simpl.
  rewrite forallb_forall in Hconv.
  apply lookup_col_elem_of, list_elem_of_In in Hc.
  specialize (Hconv _ Hc). simpl in Hconv. by rewrite Hconv.
Qed.

(** What the function leaves in the store and what it hands to the stages,
    when the argument has a label column. *)
Lemma df_to_dataset_pops l sh bs m df labels :
  heap m !! l = Some df →
  getitem df "target" = Ok labels →
  df_to_dataset l sh bs m =
    (stages df labels sh bs,
     mkMem (<[fresh (dom (heap m)) := popped df]> (heap m)) (files m)).
Proof.
  intros Hl Ht. unfold df_to_dataset, copy, pop.
  rewrite (bind_ok _ _ m (fresh (dom (heap m)))
             (mkMem (<[fresh (dom (heap m)) := df]> (heap m)) (files m))).
  2:{ rewrite (bind_ok _ _ m df m) by by apply deref_ok. done. }
  set (l' := fresh (dom (heap m))).
  set (m1 := mkMem (<[l' := df]> (heap m)) (files m)).
  assert (deref l' m1 = (Ok df, m1)) as Hd1.
  { apply deref_ok. simpl. apply lookup_insert_eq. }
  set (m2 := mkMem (<[l' := popped df]> (heap m)) (files m)).
  rewrite (bind_ok _ _ m1 labels m2).
  2:{ rewrite (bind_ok _ _ m1 df m1) by done.
      unfold_M. rewrite Ht. unfold update. simpl.
      by rewrite insert_insert_eq. }
  rewrite (bind_ok _ _ m2 (popped df) m2).
  2:{ apply deref_ok. simpl. apply lookup_insert_eq. }
  unfold stages, popped at 3. cbn [index len].
  change (length (index df)) with (len df).
  unfold_M. unfold mbind, Res_bind.
  destruct (Dataset_from_tensor_slices _ _) as [ds|e]; [|done].
  destruct sh.
  - destruct (Dataset_shuffle _ _) as [ds1|e]; [|done].
    by destruct (Dataset_batch bs ds1).
  - by destruct (Dataset_batch bs ds).
Qed.

Lemma stages_return df labels (sh : bool) bs :
  tensorable df = true →
  getitem df "target" = Ok labels →
  (sh = true → 0 < len df) →
  0 < bs →
  stages df labels sh bs
  = Ok (prefetch bs
          (batch bs (if sh then shuffle (len df) (source_of df labels)
                     else source_of df labels))).
Proof.
  intros Hconv Ht Hrows Hbs. unfold stages.
  rewrite (tensorable_slices _ _ Hconv Ht). unfold source_of.
  destruct bs as [|bs]; [lia|].
  destruct sh; [|done].
  destruct (len df) as [|n] eqn:E; [specialize (Hrows eq_refl); lia|].
  done.
Qed.

(** What the function returns and what it leaves in the store, when the
    argument has a label column and the pipeline can be built: the frame
    converts, there is a row to shuffle and the batch size is positive. *)
Lemma df_to_dataset_returns l sh bs m df labels :
  heap m !! l = Some df →
  getitem df "target" = Ok labels →
  tensorable df = true →
  (sh = true → 0 < len df) →
  0 < bs →
  df_to_dataset l sh bs m =
    (Ok (prefetch bs
           (batch bs (if sh then shuffle (len df) (source_of df labels)
                      else source_of df labels))),
     mkMem (<[fresh (dom (heap m)) := popped df]> (heap m)) (files m)).
Proof.
  intros Hl Ht Hconv Hrows Hbs.
  rewrite (df_to_dataset_pops _ _ _ _ _ _ Hl Ht).
  by rewrite stages_return.
Qed.

(** Whatever happens, the objects that existed before the call are as they
    were, and the file system is untouched. *)
Lemma df_to_dataset_preserves l sh bs m l0 df0 :
  heap m !! l0 = Some df0 →
  heap (df_to_dataset l sh bs m).2 !! l0 = Some df0
  ∧ files (df_to_dataset l sh bs m).2 = files m.
Proof.
  intros Hl0.
  destruct (heap m !! l) as [df|] eqn:Hl.
  - assert (fresh (dom (heap m)) ≠ l0) as Hne by by eapply fresh_loc_ne.
    destruct (getitem df "target") as [labels|e] eqn:Ht.
    + rewrite (df_to_dataset_pops _ _ _ _ _ _ Hl Ht). simpl.
      by rewrite lookup_insert_ne.
    + unfold df_to_dataset, copy, pop.
      rewrite (bind_ok _ _ m (fresh (dom (heap m)))
                 (mkMem (<[fresh (dom (heap m)) := df]> (heap m)) (files m))).
      2:{ rewrite (bind_ok _ _ m df m) by by apply deref_ok. done. }
      set (l' := fresh (dom (heap m))) in *.
      set (m1 := mkMem (<[l' := df]> (heap m)) (files m)).
      rewrite (bind_raise _ _ m1 e m1).
      2:{ rewrite (bind_ok _ _ m1 df m1).
          2:{ apply deref_ok. simpl. apply lookup_insert_eq. }
          unfold_M. by rewrite Ht. }
      simpl. by rewrite lookup_insert_ne.
  - unfold df_to_dataset, copy.
    rewrite (bind_raise _ _ m (NameError "dataframe") m).
    2:{ apply bind_raise. by apply deref_dangling. }
    done.
Qed.

(** ** Running statements *)

Lemma var_ok (g : Globals) x v m : g !! x = Some v → var g x m = (Ok v, m).
Proof. unfold var. by intros ->. Qed.

Ltac get_known H :=
  unfold get_ref, get_nat, get_dataset, get_syms, get_sym, get_model;
  by rewrite (bind_ok _ _ _ _ _ (var_ok _ _ _ _ H)).

Lemma get_ref_ok (g : Globals) x l m :
  g !! x = Some (VRef l) → get_ref g x m = (Ok l, m).
Proof. intros H. get_known H. Qed.

Lemma get_nat_ok (g : Globals) x n m :
  g !! x = Some (VNat n) → get_nat g x m = (Ok n, m).
Proof. intros H. get_known H. Qed.

Lemma get_dataset_ok (g : Globals) x ds m :
  g !! x = Some (VDataset ds) → get_dataset g x m = (Ok ds, m).
Proof. intros H. get_known H. Qed.

Lemma run_cons_ok lib s script g m g1 m1 :
  exec lib s g m = (Ok g1, m1) →
  run lib (s :: script) g m =
    (let '(r, m2, entered) := run lib script g1 m1 in (r, m2, s :: entered)).
Proof. simpl. by intros ->. Qed.

Lemma run_cons_raise lib s script g m e m1 :
  exec lib s g m = (Raise e, m1) →
  run lib (s :: script) g m = (Raise e, m1, [s]).
Proof. simpl. by intros ->. Qed.

(** A call of [df_to_dataset] from the top level, with the batch size read
    from the variable [batch_size]. *)
Lemma exec_df_to_dataset lib dst src sk g m l df labels bs :
  g !! src = Some (VRef l) →
  g !! "batch_size" = Some (VNat bs) →
  heap m !! l = Some df →
  getitem df "target" = Ok labels →
  tensorable df = true →
  (default default_shuffle sk = true → 0 < len df) →
  0 < bs →
  exec lib (S_df_to_dataset dst src sk (Some "batch_size")) g m =
    (Ok (<[dst := VDataset
             (prefetch bs
                (batch bs (if default default_shuffle sk
                           then shuffle (len df) (source_of df labels)
                           else source_of df labels)))]> g),
     mkMem (<[fresh (dom (heap m)) := popped df]> (heap m)) (files m)).
Proof.
  intros Hsrc Hbs Hl Ht Hconv Hrows Hpos. unfold exec.
  rewrite (bind_ok _ _ m l m) by by apply get_ref_ok.
  rewrite (bind_ok _ _ m bs m) by by apply get_nat_ok.
  erewrite bind_ok by by eapply df_to_dataset_returns.
  done.
Qed.

(** ** C9: the argument of [df_to_dataset] *)

(** C9.  [df_to_dataset] leaves its dataframe argument unchanged: whatever
    the flags, and whether the call returns or raises, the object the
    caller passed holds after the call the dataframe it held before, with
    its label column and every row.  The function works on a copy: when
    the argument has a label column, the object without the column is
    another one.  The call returns when, besides, the pipeline can be
    built: the frame converts to tensors and has a row, and the batch size
    is positive. *)
Theorem df_to_dataset_leaves_argument_unchanged
    (dataframe : loc) (shuffle_flag : bool) (batch_size : nat)
    (m : Mem) (df : DataFrame) :
  heap m !! dataframe = Some df →
  let m' := (df_to_dataset dataframe shuffle_flag batch_size m).2 in
  heap m' !! dataframe = Some df
  ∧ files m' = files m
  ∧ (has_col "target" df = true →
     (∃ l', l' ≠ dataframe ∧ heap m' !! l' = Some (popped df))
     ∧ (tensorable df = true →
        0 < len df →
        0 < batch_size →
        is_ok (df_to_dataset dataframe shuffle_flag batch_size m).1 = true)).
Proof.
  intros Hl m'.
  destruct (df_to_dataset_preserves dataframe shuffle_flag batch_size
              m dataframe df Hl) as [Hkeep Hfiles].
  split; [done|]. split; [done|].
  intros Ht. unfold has_col in Ht.
  destruct (lookup_col "target" (cols df)) as [labels|] eqn:Hc; [|done].
  assert (getitem df "target" = Ok labels) as Hg.
  { unfold getitem. by rewrite Hc. }
  split.
  - subst m'. rewrite (df_to_dataset_pops _ _ _ _ _ _ Hl Hg). simpl.
    exists (fresh (dom (heap m))). split.
    + by eapply fresh_loc_ne.
    + apply lookup_insert_eq.
  - intros Hconv Hrows Hbs.
    by rewrite (df_to_dataset_returns _ _ _ _ _ _ Hl Hg Hconv
                  (λ _, Hrows) Hbs).
Qed.

Lemma df_to_dataset_leaves_argument_unchanged_witness :
  heap toy_mem !! 0%nat = Some toy_frame
  ∧ heap (df_to_dataset 0%nat true 2 toy_mem).2 !! 0%nat = Some toy_frame
  ∧ has_col "target" toy_frame = true
  ∧ tensorable toy_frame = true
  ∧ 0 < len toy_frame
  ∧ is_ok (df_to_dataset 0%nat true 2 toy_mem).1 = true.
Proof.
  assert (heap toy_mem !! 0%nat = Some toy_frame) as H by reflexivity.
  destruct (df_to_dataset_leaves_argument_unchanged 0%nat true 2
              toy_mem toy_frame H) as (Hkeep & _ & Hcopy).
  assert (has_col "target" toy_frame = true) as Ht by reflexivity.
  assert (tensorable toy_frame = true) as Hconv by reflexivity.
  assert (0 < len toy_frame) as Hrows by (unfold len; simpl; lia).
  destruct (Hcopy Ht) as [_ Hok].
  exact (conj H (conj Hkeep (conj Ht (conj Hconv (conj Hrows
           (Hok Hconv Hrows ltac:(lia))))))).
Defined.

(** ** C4: the three splits as datasets *)




(** ** Dataframe columns *)

Lemma lookup_col_assign_eq c v l : lookup_col c (assign c v l) = Some v.
Proof.
  induction l as [|[c' v'] l IH]; simpl.
  - by rewrite String.eqb_refl.
  - destruct (String.eqb c c') eqn:E; simpl; rewrite ?String.eqb_refl, ?E; done.
Qed.

Lemma lookup_col_assign_ne c c0 v l :
  c0 ≠ c → lookup_col c0 (assign c v l) = lookup_col c0 l.
Proof.
  intros Hne. induction l as [|[c' v'] l IH]; simpl.
  - by apply String.eqb_neq in Hne as ->.
  - destruct (String.eqb c c') eqn:E; simpl.
    + apply String.eqb_eq in E as <-.
      by apply String.eqb_neq in Hne as ->.
    + destruct (String.eqb c0 c'); done.
Qed.

Lemma lookup_col_remove_in c cs l :
  In c cs → lookup_col c (remove_cols cs l) = None.
Proof.
  intros Hin. induction l as [|[c' v'] l IH]; simpl; [done|].
  destruct (existsb (String.eqb c') cs) eqn:E; simpl; [done|].
  destruct (String.eqb c c') eqn:Ec; [|done].
  apply String.eqb_eq in Ec as <-.
  assert (existsb (String.eqb c) cs = true) as Hex.
  { apply existsb_exists. exists c. split; [done|apply String.eqb_refl]. }
  congruence.
Qed.

Lemma lookup_col_remove_notin c cs l :
  ¬ In c cs → lookup_col c (remove_cols cs l) = lookup_col c l.
Proof.
  intros Hnin. induction l as [|[c' v'] l IH]; simpl; [done|].
  destruct (existsb (String.eqb c') cs) eqn:E; simpl.
  - destruct (String.eqb c c') eqn:Ec; [|done].
    apply String.eqb_eq in Ec as <-.
    apply existsb_exists in E as (x & Hx & Heq).
    apply String.eqb_eq in Heq as <-. done.
  - by rewrite IH.
Qed.

Lemma drop_ok df cs :
  Forall (λ c, has_col c df = true) cs →
  drop df cs = Ok (mkDF (index df) (remove_cols cs (cols df))).
Proof.
  intros Hall. unfold drop.
  replace (List.filter (λ c, negb (has_col c df)) cs) with (@nil string);
    [done|].
  symmetry. induction Hall as [|c cs Hc _ IH]; simpl; [done|].
  by rewrite Hc.
Qed.

(** ** C6: the label and the dropped columns *)

Lemma np_where_label speed :
  np_where (series_eq speed (CInt 4)) (CInt 0) (CInt 1)
  = List.map label_of speed.
Proof. unfold np_where, series_eq. rewrite List.map_map. done. Qed.

Lemma create_target_ok l m df speed :
  heap m !! l = Some df →
  getitem df "AdoptionSpeed" = Ok speed →
  length speed = len df →
  create_target l m =
    (Ok tt,
     mkMem (<[l := mkDF (index df)
                     (assign "target" (List.map label_of speed) (cols df))]>
              (heap m)) (files m)).
Proof.
  intros Hl Hs Hlen. unfold create_target.
  rewrite (bind_ok _ _ m df m) by by apply deref_ok.
  rewrite (bind_ok _ _ m speed m) by (unfold lift; by rewrite Hs).
  rewrite np_where_label.
  erewrite bind_ok; [reflexivity|].
  unfold lift, setitem. rewrite length_map, Hlen, Nat.eqb_refl. done.
Qed.

(** C6.  Cell 6 derives the label row by row, 0 where [AdoptionSpeed] is 4
    and 1 elsewhere, and then rebinds [dataframe] to a frame with the same
    rows in which neither [AdoptionSpeed] nor [Description] is a column.
    In the notebook the cell comes after the statements that load the CSV
    and before every split, dataset, layer, training or inference
    statement, and no statement after it names either column. *)
Theorem cell_6_creates_target_and_drops_columns
    (lib : Library) (g : Globals) (m : Mem) (l : loc) (df : DataFrame)
    (speed : list Cell) :
  g !! "dataframe" = Some (VRef l) →
  heap m !! l = Some df →
  getitem df "AdoptionSpeed" = Ok speed →
  length speed = len df →
  has_col "Description" df = true →
  (∃ g' m' l' df' target,
      run lib cell_6 g m = (Ok g', m', cell_6)
      ∧ g' !! "dataframe" = Some (VRef l')
      ∧ heap m' !! l' = Some df'
      ∧ index df' = index df
      ∧ getitem df' "target" = Ok target
      ∧ length target = len df
      ∧ (∀ i a, speed !! i = Some a → target !! i = Some (label_of a))
      ∧ has_col "AdoptionSpeed" df' = false
      ∧ has_col "Description" df' = false)
  ∧ (∃ before after : list Stmt,
      notebook = (before ++ cell_6 ++ after)%list
      ∧ Forall (λ s, phase_of s = None ∨ phase_of s = Some Load) before
      ∧ Forall (λ s, names_unused_column s = false) after).
Proof.
  intros Hg Hl Hs Hlen Hd. split.
  - set (df1 := mkDF (index df)
                  (assign "target" (List.map label_of speed) (cols df))).
    set (m1 := mkMem (<[l := df1]> (heap m)) (files m)).
    set (df2 := mkDF (index df1) (remove_cols unused_columns (cols df1))).
    exists (<["dataframe" := VRef (fresh (dom (heap m1)))]> g),
           (mkMem (<[fresh (dom (heap m1)) := df2]> (heap m1)) (files m1)),
           (fresh (dom (heap m1))), df2, (List.map label_of speed).
    assert (run lib cell_6 g m
            = (Ok (<["dataframe" := VRef (fresh (dom (heap m1)))]> g),
               mkMem (<[fresh (dom (heap m1)) := df2]> (heap m1)) (files m1),
               cell_6)) as Hrun.
    { unfold cell_6.
      erewrite (run_cons_ok lib _ _ g m g m1).
      2:{ unfold exec. rewrite (bind_ok _ _ m l m) by by apply get_ref_ok.
          erewrite bind_ok by by eapply create_target_ok. done. }
      erewrite run_cons_ok; [reflexivity|].
      unfold exec. rewrite (bind_ok _ _ m1 l m1) by by apply get_ref_ok.
      erewrite bind_ok; [reflexivity|].
      unfold drop_unused.
      rewrite (bind_ok _ _ m1 df1 m1).
      2:{ apply deref_ok. subst m1. simpl. apply lookup_insert_eq. }
      rewrite (bind_ok _ _ m1 df2 m1); [done|].
      unfold lift. rewrite drop_ok; [done|].
      unfold unused_columns, has_col. subst df1. simpl.
      repeat constructor.
      - rewrite lookup_col_assign_ne by done.
        unfold getitem in Hs.
        by destruct (lookup_col "AdoptionSpeed" (cols df)).
      - rewrite lookup_col_assign_ne by done. exact Hd. }
    split; [exact Hrun|]. split; [apply lookup_insert_eq|].
    split; [simpl; apply lookup_insert_eq|]. split; [done|].
    split.
    { unfold getitem. subst df2 df1. simpl.
      rewrite lookup_col_remove_notin.
      - by rewrite lookup_col_assign_eq.
      - unfold unused_columns. simpl. intros [H|[H|[]]]; discriminate H. }
    split; [by rewrite length_map|]. split.
    { intros i a Hi. change (List.map label_of speed) with (label_of <$> speed).
      by rewrite list_lookup_fmap, Hi. }
    unfold has_col. subst df2. simpl.
    rewrite !lookup_col_remove_in; [done| |];
      unfold unused_columns; simpl; tauto.
  - exists (cell_4 ++ cell_5)%list,
           (cell_7 ++ demonstration ++ cell_16 ++ cell_17 ++ cell_18
            ++ cell_19 ++ cell_20 ++ cell_21 ++ cell_22 ++ cell_23
            ++ cell_24 ++ cell_25)%list.
    split; [reflexivity|]. split.
    + repeat first [apply Forall_nil | apply Forall_cons; split];
        simpl; auto.
    + apply Forall_forall. intros s Hs'.
      apply list_elem_of_In in Hs'.
      apply negb_true_iff. revert s Hs'.
      apply (proj1 (forallb_forall (λ s, negb (names_unused_column s)) _)).
      vm_compute. reflexivity.
Qed.

Lemma cell_6_creates_target_and_drops_columns_witness :
  ∃ g' m' l' df',
    run toy_lib cell_6 toy_globals toy_csv_mem = (Ok g', m', cell_6)
    ∧ g' !! "dataframe" = Some (VRef l')
    ∧ heap m' !! l' = Some df'
    ∧ has_col "AdoptionSpeed" df' = false
    ∧ has_col "Description" df' = false.
Proof.
  destruct (cell_6_creates_target_and_drops_columns toy_lib toy_globals
              toy_csv_mem 0%nat toy_csv
              [CInt 2; CInt 0; CInt 3; CInt 2; CInt 2; CInt 2; CInt 1;
               CInt 4; CInt 1; CInt 4])
    as [(g' & m' & l' & df' & target & Hrun & Hg & Hh
         & _ & _ & _ & _ & Ha & Hd) _];
    try reflexivity.
  exists g', m', l', df'. exact (conj Hrun (conj Hg (conj Hh (conj Ha Hd)))).
Defined.

(** ** C1: the order of the steps *)

(** The statements that were entered are an initial part of the script, and
    all of it when the run ends normally. *)
Lemma run_entered_prefix lib script g m :
  ∃ rest, script = ((run lib script g m).2 ++ rest)%list.
Proof.
  revert g m. induction script as [|s script IH]; intros g m; simpl.
  - by exists [].
  - destruct (exec lib s g m) as [[g1|e] m1] eqn:E.
    + destruct (IH g1 m1) as [rest Hrest].
      destruct (run lib script g1 m1) as [[r m2] t]. simpl in *.
      exists rest. by rewrite <- Hrest.
    + by exists script.
Qed.

Lemma run_ok_entered_all lib script g m g' :
  (run lib script g m).1.1 = Ok g' → (run lib script g m).2 = script.
Proof.
  revert g m. induction script as [|s script IH]; intros g m; simpl; [done|].
  destruct (exec lib s g m) as [[g1|e] m1] eqn:E; [|done].
  specialize (IH g1 m1).
  destruct (run lib script g1 m1) as [[r m2] t]. simpl in *.
  intros Hr. by rewrite IH.
Qed.

(** A normalization layer is built and adapted in cell 12, before cell 16
    wraps the validation split: the steps are not in the summarised order. *)
Lemma layers_are_adapted_before_validation_is_wrapped :
  phases notebook ≠ summary_order
  ∧ ∃ i j : nat,
      i < j
      ∧ notebook !! i
        = Some (S_get_normalization_layer "layer" "PhotoAmt" "train_ds")
      ∧ notebook !! j
        = Some (S_df_to_dataset "val_ds" "val" (Some false)
                                (Some "batch_size")).
Proof.
  split.
  - vm_compute. discriminate.
  - exists 17, 27. split; [lia|]. split; reflexivity.
Qed.

(** C1, as the code has it.  The notebook loads the CSV, splits it, then
    shows a pipeline and three layers at work on the train split (cells 9 to
    15: one wrap with the default batch size, layers built and adapted),
    and only then wraps the three splits, builds and adapts the layers of
    the model, builds the dense classifier on the concatenated features,
    trains, evaluates, saves, reloads and predicts.  Without the
    demonstration cells the steps are in the summarised order.  There is
    exactly one predict statement; it is on [reloaded_model] and comes after
    the only statement that binds that variable.  Statements are entered in
    the order of the script, all of them when the run ends normally. *)
Theorem notebook_steps_in_order :
  phases notebook =
    [Load; Split; Wrap; Layers; Wrap; Layers; Classifier; Train; Evaluate;
     Save; Reload; Predict]
  ∧ phases demonstration = [Wrap; Layers]
  ∧ (∃ before after : list Stmt,
       notebook = (before ++ demonstration ++ after)%list
       ∧ phases (before ++ after) = summary_order)
  ∧ List.filter is_predict notebook
    = [S_predict "predictions" "reloaded_model" "input_dict"]
  ∧ (∃ before after : list Stmt,
       notebook = (before ++ S_load_model "reloaded_model" "my_pet_classifier"
                     :: after)%list
       ∧ phases before =
           [Load; Split; Wrap; Layers; Wrap; Layers; Classifier; Train;
            Evaluate; Save]
       ∧ phases after = [Predict])
  ∧ (∀ lib g m,
       (∃ rest, notebook = ((run lib notebook g m).2 ++ rest)%list)
       ∧ (is_ok (run lib notebook g m).1.1 = true →
          (run lib notebook g m).2 = notebook)).
Proof.
  split; [vm_compute; reflexivity|].
  split; [vm_compute; reflexivity|].
  split.
  { exists (cell_4 ++ cell_5 ++ cell_6 ++ cell_7)%list,
           (cell_16 ++ cell_17 ++ cell_18 ++ cell_19 ++ cell_20 ++ cell_21
            ++ cell_22 ++ cell_23 ++ cell_24 ++ cell_25)%list.
    split; [reflexivity|vm_compute; reflexivity]. }
  split; [vm_compute; reflexivity|].
  split.
  { exists (cell_4 ++ cell_5 ++ cell_6 ++ cell_7 ++ demonstration ++ cell_16
            ++ cell_17 ++ cell_18 ++ cell_19 ++ cell_20 ++ cell_21
            ++ cell_22 ++ cell_23
            ++ [S_save "model" "my_pet_classifier"])%list,
           cell_25.
    split; [reflexivity|]. split; vm_compute; reflexivity. }
  intros lib g m. split.
  - apply run_entered_prefix.
  - intros Hok.
    destruct ((run lib notebook g m).1.1) as [g'|e] eqn:E; [|done].
    by eapply run_ok_entered_all.
Qed.

Lemma notebook_steps_in_order_witness :
  is_ok (run toy_lib notebook ∅ empty_mem).1.1 = true
  ∧ (run toy_lib notebook ∅ empty_mem).2 = notebook.
Proof.
  assert (is_ok (run toy_lib notebook ∅ empty_mem).1.1 = true) as Hok
    by (vm_compute; reflexivity).
  split; [exact Hok|].
  destruct notebook_steps_in_order as (_ & _ & _ & _ & _ & Hrun).
  exact (proj2 (Hrun toy_lib ∅ empty_mem) Hok).
Defined.

(** ** Runs that stop *)

Lemma run_app lib script1 script2 g m :
  run lib (script1 ++ script2) g m =
    match run lib script1 g m with
    | (Ok g1, m1, entered1) =>
        let '(r, m2, entered2) := run lib script2 g1 m1 in
        (r, m2, (entered1 ++ entered2)%list)
    | (Raise e, m1, entered1) => (Raise e, m1, entered1)
    end.
Proof.
  revert g m. induction script1 as [|s script1 IH]; intros g m; simpl.
  - by destruct (run lib script2 g m) as [[r m2] t].
  - destruct (exec lib s g m) as [[g1|e] m1]; [|done].
    rewrite IH. destruct (run lib script1 g1 m1) as [[[g2|e] m2] t]; [|done].
    by destruct (run lib script2 g2 m2) as [[r m3] t'].
Qed.

(** A statement that raises ends the run with its exception and with the
    store as the statement left it; what follows is not entered. *)
Lemma run_stops_at_raise lib before s after g m g1 m1 e m2 :
  run lib before g m = (Ok g1, m1, before) →
  exec lib s g1 m1 = (Raise e, m2) →
  run lib (before ++ s :: after) g m = (Raise e, m2, (before ++ [s])%list).
Proof.
  intros Hb Hs. rewrite run_app, Hb.
  by rewrite (run_cons_raise _ _ _ _ _ _ _ Hs).
Qed.

(** A run that ends with an exception got it from the statement it
    stopped at. *)
Lemma run_raise_inv lib script g m e m' entered :
  run lib script g m = (Raise e, m', entered) →
  ∃ before s after g1 m1,
    script = (before ++ s :: after)%list
    ∧ entered = (before ++ [s])%list
    ∧ run lib before g m = (Ok g1, m1, before)
    ∧ exec lib s g1 m1 = (Raise e, m').
Proof.
  revert g m entered.
  induction script as [|s script IH]; intros g m entered; simpl; [done|].
  destruct (exec lib s g m) as [[g1|e1] m1] eqn:E.
  - destruct (run lib script g1 m1) as [[r m2] t] eqn:Hrun.
    intros [= -> -> <-].
    destruct (IH g1 m1 t Hrun)
      as (before & s' & after & g2 & m2 & -> & -> & Hb & Hs).
    exists (s :: before), s', after, g2, m2.
    split; [done|]. split; [done|]. split; [|done].
    simpl. by rewrite E, Hb.
  - intros [= <- <- <-]. by exists [], s, script, g, m.
Qed.

(** ** The pass that [adapt] makes over a dataset *)

Lemma list_mapM_ok_map {A B} (f : A → Res B) (g : A → B) (l : list A) :
  Forall (λ a, f a = Ok (g a)) l → list_mapM f l = Ok (List.map g l).
Proof.
  induction 1 as [|a l Ha _ IH]; simpl; [done|].
  rewrite Ha. simpl. unfold mbind, Res_bind. by rewrite IH.
Qed.

Lemma res_bind_ok {A B} (a : A) (k : A → Res B) : (x ← Ok a; k x) = k a.
Proof. reflexivity. Qed.

(** *** Batches *)

Lemma chunks_aux_concat {A} fuel n (l : list A) :
  0 < n → (length l ≤ fuel)%nat → List.concat (chunks_aux fuel n l) = l.
Proof.
  intros Hn. revert l. induction fuel as [|fuel IH]; intros l Hl.
  - destruct l; [done|simpl in Hl; lia].
  - destruct l as [|a l]; [done|].
    cbn [chunks_aux List.concat]. rewrite IH.
    + apply firstn_skipn.
    + rewrite length_skipn. simpl in *. lia.
Qed.

Lemma chunks_concat {A} n (l : list A) :
  0 < n → List.concat (chunks n l) = l.
Proof. intros Hn. by apply chunks_aux_concat. Qed.

Lemma chunks_aux_nonempty {A} fuel n (l : list A) :
  0 < n → Forall (λ c, c ≠ []) (chunks_aux fuel n l).
Proof.
  intros Hn. revert l. induction fuel as [|fuel IH]; intros l; [constructor|].
  destruct l as [|a l]; [constructor|].
  cbn [chunks_aux]. constructor; [|apply IH].
  destruct n; [lia|]. done.
Qed.

Lemma chunks_aux_Forall {A} (P : A → Prop) fuel n (l : list A) :
  Forall P l → Forall (Forall P) (chunks_aux fuel n l).
Proof.
  revert l. induction fuel as [|fuel IH]; intros l Hl; [constructor|].
  destruct l as [|a l]; [constructor|].
  cbn [chunks_aux]. constructor.
  - by apply Forall_take.
  - apply IH. by apply Forall_drop.
Qed.

Lemma lookup_feature_keyed k x :
  In k (List.map fst x) →
  lookup_feature k x = Ok (tensor_under k (EPair x (TN []))).
Proof.
  unfold tensor_under.
  induction x as [|[k' t] x IH]; simpl; [done|].
  destruct (String.eqb k k') eqn:E; [done|].
  intros [->|Hin]; [by rewrite String.eqb_refl in E|].
  specialize (IH Hin). by rewrite IH.
Qed.

Lemma lookup_feature_tabulate k (ks : list string)
    (F : string → Tensor Cell) :
  In k ks → lookup_feature k (List.map (λ k', (k', F k')) ks) = Ok (F k).
Proof.
  induction ks as [|k' ks IH]; simpl; [done|].
  destruct (String.eqb k k') eqn:E.
  - apply String.eqb_eq in E as ->. done.
  - intros [->|Hin]; [by rewrite String.eqb_refl in E|]. by apply IH.
Qed.

Lemma stack_keyed ks group :
  group ≠ [] →
  Forall (keyed ks) group →
  stack group =
    Ok (EPair (List.map (λ k, (k, TN (List.map (tensor_under k) group))) ks)
              (TN (List.map label_under group))).
Proof.
  intros Hne Hall. destruct group as [|e group]; [done|].
  assert (list_mapM pair_of (e :: group)
          = Ok (List.map (λ e, match e with
                               | EPair x y => (x, y)
                               | ESingle t => ([], t)
                               end) (e :: group))) as Hps.
  { apply list_mapM_ok_map. eapply Forall_impl; [exact Hall|].
    intros e' (x & y & -> & _). done. }
  pose proof (Forall_inv Hall) as (x0 & y0 & -> & Hks).
  unfold stack. rewrite Hps, res_bind_ok, Hks.
  rewrite (list_mapM_ok_map _
             (λ k, (k, TN (List.map (tensor_under k)
                                    (EPair x0 y0 :: group))))).
  - rewrite res_bind_ok. do 3 f_equal.
    rewrite List.map_map.
    apply map_ext_in. intros e' He'.
    rewrite Forall_forall in Hall. apply list_elem_of_In in He'.
    destruct (Hall e' He') as (x & y & -> & _). done.
  - apply Forall_forall. intros k Hk. apply list_elem_of_In in Hk.
    rewrite (list_mapM_ok_map _ (λ p, tensor_under k (EPair p.1 (TN [])))).
    + rewrite res_bind_ok. do 3 f_equal.
      rewrite List.map_map. apply map_ext_in. intros e' He'.
      rewrite Forall_forall in Hall. apply list_elem_of_In in He'.
      destruct (Hall e' He') as (x & y & -> & _). done.
    + apply Forall_forall. intros p Hp. apply list_elem_of_In in Hp.
      apply in_map_iff in Hp as (e' & <- & He').
      rewrite Forall_forall in Hall. apply list_elem_of_In in He'.
      destruct (Hall e' He') as (x & y & -> & Hx). simpl.
      apply lookup_feature_keyed. by rewrite Hx.
Qed.

Lemma list_mapM_map {A B C} (f : B → Res C) (g : A → B) (l : list A) :
  list_mapM f (List.map g l) = list_mapM (λ a, f (g a)) l.
Proof.
  induction l as [|a l IH]; simpl; [done|].
  destruct (f (g a)); [|done]. simpl. unfold mbind, Res_bind. by rewrite IH.
Qed.

Lemma concat_map_concat {A B} (F : A → list B) (ls : list (list A)) :
  List.concat (List.map (λ g, List.concat (List.map F g)) ls)
  = List.concat (List.map F (List.concat ls)).
Proof.
  induction ls as [|g ls IH]; simpl; [done|].
  by rewrite IH, List.map_app, List.concat_app.
Qed.

(** A pass over [dataset.batch(n).map(lambda x, y: x[name])] yields the
    scalars of the feature, element after element. *)
Lemma values_of_batches sigma name n ds es ks :
  iterate sigma ds = Ok es →
  Forall (keyed ks) es →
  In name ks →
  0 < n →
  values sigma (map_feature name (batch n ds))
  = Ok (List.concat (List.map (scalars_under name) es)).
Proof.
  intros Hes Hall Hin Hn. unfold values. cbn [iterate].
  rewrite Hes, res_bind_ok. destruct n as [|n']; [lia|].
  set (n := S n') in *.
  rewrite (list_mapM_ok_map _
    (λ g, EPair (List.map (λ k, (k, TN (List.map (tensor_under k) g))) ks)
                (TN (List.map label_under g)))).
  2:{ pose proof (chunks_aux_nonempty (length es) n es Hn) as Hne.
      pose proof (chunks_aux_Forall _ (length es) n es Hall) as Hk.
      unfold chunks.
      induction Hne as [|g gs Hg _ IH]; [constructor|].
      apply Forall_cons in Hk as [Hkg Hk].
      constructor; [by apply stack_keyed|by apply IH]. }
  rewrite res_bind_ok, list_mapM_map.
  rewrite (list_mapM_ok_map _
    (λ g, ESingle (TN (List.map (tensor_under name) g)))).
  2:{ apply Forall_forall. intros g _. simpl.
      rewrite (lookup_feature_tabulate name ks
                 (λ k, TN (List.map (tensor_under k) g)) Hin). done. }
  rewrite res_bind_ok, list_mapM_map.
  rewrite (list_mapM_ok_map _ (λ g, TN (List.map (tensor_under name) g))).
  2:{ apply Forall_forall. intros g _. done. }
  rewrite res_bind_ok. f_equal.
  rewrite List.map_map.
  rewrite <- (chunks_concat n es Hn) at 2.
  rewrite <- concat_map_concat. f_equal.
  apply map_ext. intros g. cbn [leaves]. by rewrite List.map_map.
Qed.

(** *** Slices *)

Lemma same_length_lookup n features c col :
  same_length n features = true →
  lookup_col c features = Some col →
  length col = n.
Proof.
  unfold same_length. induction features as [|[c' v] features IH]; [done|].
  simpl. intros [Hv Hrest]%andb_prop.
  destruct (String.eqb c c').
  - intros [= <-]. by apply Nat.eqb_eq.
  - by apply IH.
Qed.

Lemma slice_at_row features labels i :
  same_length (length labels) features = true →
  i < length labels →
  slice_at features labels i = Ok (row features labels i).
Proof.
  intros Hwf Hi. unfold slice_at, slice_features.
  rewrite (list_mapM_ok_map _
    (λ p : string * list Cell, (p.1, T0 (default (CInt 0) (p.2 !! i))))).
  - rewrite res_bind_ok.
    destruct (lookup_lt_is_Some_2 labels i Hi) as [y Hy].
    unfold row. by rewrite Hy.
  - unfold same_length in Hwf. rewrite forallb_forall in Hwf.
    apply Forall_forall. intros p Hp. apply list_elem_of_In in Hp.
    specialize (Hwf p Hp). apply Nat.eqb_eq in Hwf.
    destruct (lookup_lt_is_Some_2 p.2 i) as [c Hc]; [lia|].
    by rewrite Hc.
Qed.

Lemma slices_rows features labels :
  same_length (length labels) features = true →
  slices features labels
  = Ok (List.map (row features labels) (seq 0 (length labels))).
Proof.
  intros Hwf. unfold slices. rewrite Hwf.
  apply list_mapM_ok_map. apply Forall_forall. intros i Hi.
  apply elem_of_seq in Hi. apply slice_at_row; [done|lia].
Qed.

Lemma row_keyed features labels i :
  keyed (List.map fst features) (row features labels i).
Proof.
  eexists _, _. split; [reflexivity|].
  rewrite List.map_map. done.
Qed.

Lemma row_scalars features labels name col i :
  lookup_col name features = Some col →
  scalars_under name (row features labels i)
  = [default (CInt 0) (col !! i)].
Proof.
  intros Hcol. unfold scalars_under, tensor_under, row.
  assert (lookup_feature name
            (List.map (λ p : string * list Cell,
                         (p.1, T0 (default (CInt 0) (p.2 !! i)))) features)
          = Ok (T0 (default (CInt 0) (col !! i)))) as ->; [|done].
  induction features as [|[c v] features IH]; [done|].
  simpl in *. destruct (String.eqb name c); [by injection Hcol as ->|].
  by apply IH.
Qed.

Lemma lookup_col_In name features col :
  lookup_col name features = Some col → In name (List.map fst features).
Proof.
  induction features as [|[c v] features IH]; [done|]. simpl.
  destruct (String.eqb name c) eqn:E.
  - apply String.eqb_eq in E as ->. by left.
  - intros H. right. by apply IH.
Qed.

Lemma column_by_rows (col : list Cell) :
  List.map (λ i, default (CInt 0) (col !! i)) (seq 0 (length col)) = col.
Proof.
  apply list_eq. intros i.
  change (List.map ?f ?l) with (f <$> l).
  rewrite list_lookup_fmap.
  destruct (decide (i < length col)) as [Hi|Hi].
  - rewrite lookup_seq_lt by done. simpl.
    by destruct (lookup_lt_is_Some_2 col i Hi) as [c ->].
  - rewrite lookup_seq_ge by lia. simpl.
    symmetry. apply lookup_ge_None. lia.
Qed.

(** *** The pass over a pipeline of [df_to_dataset] *)

Lemma values_prefetch sigma name k ds :
  values sigma (map_feature name (prefetch k ds))
  = values sigma (map_feature name ds).
Proof. reflexivity. Qed.

Lemma scalars_of_rows features labels name col :
  same_length (length labels) features = true →
  lookup_col name features = Some col →
  List.concat (List.map (scalars_under name)
                 (List.map (row features labels) (seq 0 (length labels))))
  = col.
Proof.
  intros Hwf Hcol.
  rewrite List.map_map.
  rewrite (map_ext _ (λ i, [default (CInt 0) (col !! i)])).
  2:{ intros i. by apply row_scalars. }
  rewrite <- (same_length_lookup _ _ _ _ Hwf Hcol).
  transitivity (List.map (λ i, default (CInt 0) (col !! i))
                  (seq 0 (length col))); [|apply column_by_rows].
  generalize (seq 0 (length col)). intros l.
  induction l as [|i l IH]; simpl; [done|]. by rewrite IH.
Qed.

(** Whatever the batch size and the prefetch buffer, and whether or not the
    rows are shuffled, the pass that [adapt] makes over one feature of a
    dataset sliced from a frame succeeds and reads the column of that
    feature, each row once. *)
Lemma pipeline_pass sigma name features labels col (sh : bool) k bs pf :
  (∀ l, Permutation (sigma l) l) →
  same_length (length labels) features = true →
  lookup_col name features = Some col →
  0 < bs →
  ∃ data,
    values sigma
      (map_feature name
         (prefetch pf
            (batch bs
               (if sh then shuffle k (from_tensor_slices features labels)
                else from_tensor_slices features labels))))
    = Ok data
    ∧ Permutation data col
    ∧ (sh = false → data = col).
Proof.
  intros Hsigma Hwf Hcol Hbs. rewrite values_prefetch.
  set (rows := List.map (row features labels) (seq 0 (length labels))).
  assert (Forall (keyed (List.map fst features)) rows) as Hrows.
  { apply Forall_forall. intros e He. apply list_elem_of_In in He.
    apply in_map_iff in He as (i & <- & _). apply row_keyed. }
  pose proof (lookup_col_In _ _ _ Hcol) as Hin.
  pose proof (scalars_of_rows _ _ _ _ Hwf Hcol) as Hscalars.
  fold rows in Hscalars.
  destruct sh.
  - exists (List.concat (List.map (scalars_under name) (sigma rows))).
    split; [|split; [|done]].
    + eapply (values_of_batches _ _ _ _ (sigma rows)); [|  |done|done].
      * cbn [iterate]. by rewrite (slices_rows _ _ Hwf).
      * eapply Permutation_Forall; [|exact Hrows].
        symmetry. apply Hsigma.
    + rewrite <- Hscalars.
      rewrite <- !flat_map_concat_map.
      apply Permutation_flat_map, Hsigma.
  - exists col. split; [|done].
    rewrite <- Hscalars.
    eapply values_of_batches; [|exact Hrows|done|done].
    cbn [iterate]. by apply slices_rows.
Qed.

(** *** Statistics do not depend on the order of the pass *)

Section Order.
#[local] Open Scope R_scope.

Lemma sum_perm (l l' : list R) : Permutation l l' → sum l = sum l'.
Proof.
  induction 1 as [|x l l' _ IH|x y l|l l' l'' _ IH1 _ IH2]; simpl.
  - done.
  - by rewrite IH.
  - ring.
  - by rewrite IH1.
Qed.

Lemma mean_of_perm (l l' : list R) :
  Permutation l l' → mean_of l = mean_of l'.
Proof.
  intros H. unfold mean_of.
  by rewrite (sum_perm _ _ H), (Permutation_length H).
Qed.

Lemma variance_of_perm (l l' : list R) :
  Permutation l l' → variance_of l = variance_of l'.
Proof.
  intros H. unfold variance_of.
  rewrite (mean_of_perm _ _ H), (Permutation_length H).
  f_equal. apply sum_perm. by apply Permutation_map.
Qed.

Lemma std_of_perm (l l' : list R) :
  Permutation l l' → std_of l = std_of l'.
Proof. intros H. unfold std_of. by rewrite (variance_of_perm _ _ H). Qed.

Lemma adapt_statistics_perm (l l' : list R) :
  Permutation l l' → adapt_statistics l = adapt_statistics l'.
Proof.
  intros H. unfold adapt_statistics.
  destruct l as [|x l], l' as [|x' l'].
  - done.
  - by apply Permutation_nil_cons in H.
  - symmetry in H. by apply Permutation_nil_cons in H.
  - by rewrite (mean_of_perm _ _ H), (variance_of_perm _ _ H).
Qed.

End Order.

Lemma to_float_ints data :
  Forall (λ c, is_int c = true) data →
  list_mapM to_float data = Ok (List.map float_of data).
Proof.
  intros H. apply list_mapM_ok_map.
  eapply Forall_impl; [exact H|]. by intros [z|s].
Qed.

(** ** C2: the category encoding layer *)

Lemma list_mapM_id_when {A} (f : A → Res A) (l : list A) :
  Forall (λ a, f a = Ok a) l → list_mapM f l = Ok l.
Proof.
  induction 1 as [|a l Ha _ IH]; simpl; [done|].
  rewrite Ha. simpl. unfold mbind, Res_bind. by rewrite IH.
Qed.

Lemma check_tokens_ok k data :
  Forall (λ c, accepts k c = true) data →
  list_mapM (check_token k) data = Ok data.
Proof.
  intros H. apply list_mapM_id_when.
  eapply Forall_impl; [exact H|].
  intros c Hc. unfold check_token. by rewrite Hc.
Qed.

Lemma position_lookup c tokens i :
  position c tokens = Some i → tokens !! i = Some c.
Proof.
  revert i. induction tokens as [|c' tokens IH]; intros i; simpl; [done|].
  destruct (cell_eqb c c') eqn:E.
  - intros [= <-]. apply cell_eqb_eq in E as ->. done.
  - destruct (position c tokens) as [j|]; [|done].
    intros [= <-]. simpl. by apply IH.
Qed.

Lemma position_found c tokens :
  c ∈ tokens → ∃ i, position c tokens = Some i.
Proof.
  induction tokens as [|c' tokens IH]; simpl.
  - intros H. by apply elem_of_nil in H.
  - intros H. destruct (cell_eqb c c') eqn:E; [by eexists|].
    apply elem_of_cons in H as [->|H].
    + assert (cell_eqb c' c' = true) by by apply cell_eqb_eq. congruence.
    + destruct (IH H) as [i ->]. by eexists.
Qed.

Lemma lookup_index_lt l c : lookup_index l c < vocabulary_size l.
Proof.
  unfold lookup_index, vocabulary_size.
  destruct (position c (vocabulary l)) as [i|] eqn:E; [|lia].
  apply position_lookup, lookup_lt_Some in E. lia.
Qed.

Lemma lookup_index_in_vocabulary l c :
  lookup_index l c ≠ 0 → vocabulary l !! (lookup_index l c - 1) = Some c.
Proof.
  unfold lookup_index.
  destruct (position c (vocabulary l)) as [i|] eqn:E; [|done].
  intros _. simpl. rewrite Nat.sub_0_r. by apply position_lookup.
Qed.

Lemma lookup_index_of_token l c :
  c ∈ vocabulary l → lookup_index l c ≠ 0.
Proof.
  intros H. unfold lookup_index.
  by destruct (position_found _ _ H) as [i ->].
Qed.

Lemma truncate_bound n tokens :
  0 < n → (S (length (truncate (Some n) tokens)) ≤ n)%nat.
Proof. intros Hn. simpl. rewrite length_firstn. lia. Qed.

Lemma length_multi_hot n idxs : length (multi_hot n idxs) = n.
Proof. unfold multi_hot. by rewrite length_map, length_seq. Qed.

Lemma nth_one_hot n i j :
  j < n → nth j (one_hot n i) 0%R = if Nat.eqb j i then 1%R else 0%R.
Proof.
  intros Hj. unfold one_hot, multi_hot.
  rewrite nth_lookup.
  change (List.map ?f ?l) with (f <$> l).
  rewrite list_lookup_fmap, lookup_seq_lt by done. simpl.
  by rewrite orb_false_r.
Qed.

Lemma encode_sample_single n i :
  i < n → encode_sample n [i] = Ok (vec (one_hot n i)).
Proof.
  intros Hi. unfold encode_sample. simpl.
  by apply Nat.ltb_lt in Hi as ->.
Qed.

Lemma IndexLookup_new_ok k max_tokens :
  (∀ n, max_tokens = Some n → 1 < n) →
  IndexLookup_new k max_tokens = Ok (mkIndexLookup k max_tokens []).
Proof.
  intros H. unfold IndexLookup_new. destruct max_tokens as [n|]; [|done].
  specialize (H n eq_refl). by apply Nat.leb_gt in H as ->.
Qed.

(** What the function returns, given the pass over the feature. *)
Lemma get_category_encoding_layer_returns sigma name dataset dtype
    max_tokens data :
  values sigma (map_feature name dataset) = Ok data →
  Forall (λ c, accepts (kind_for dtype) c = true) data →
  (∀ n, max_tokens = Some n → 1 < n) →
  get_category_encoding_layer sigma name dataset dtype max_tokens =
    Ok (mkCategoryLayer
          (mkIndexLookup (kind_for dtype) max_tokens
             (learn_vocabulary max_tokens data))
          (mkCategoryEncoding
             (S (length (learn_vocabulary max_tokens data))))).
Proof.
  intros Hv Hacc Hmax. unfold get_category_encoding_layer.
  assert ((if String.eqb dtype "string"
           then IndexLookup_new StringLookup max_tokens
           else IndexLookup_new IntegerLookup max_tokens)
          = Ok (mkIndexLookup (kind_for dtype) max_tokens [])) as ->.
  { unfold kind_for. destruct (String.eqb dtype "string");
      by apply IndexLookup_new_ok. }
  simpl. unfold IndexLookup_adapt. rewrite Hv. simpl.
  unfold adapt_vocabulary. simpl. rewrite check_tokens_ok by done. done.
Qed.

(** The kind of the lookup layer follows the dtype, whatever else. *)
Lemma get_category_encoding_layer_kind sigma name dataset dtype max_tokens
    layer :
  get_category_encoding_layer sigma name dataset dtype max_tokens = Ok layer →
  kind (index_layer layer) = kind_for dtype.
Proof.
  unfold get_category_encoding_layer, kind_for.
  destruct (String.eqb dtype "string");
    unfold IndexLookup_new;
    (destruct max_tokens as [n|]; [destruct (Nat.leb n 1); [done|]|]);
    simpl; unfold IndexLookup_adapt;
    (destruct (values sigma (map_feature name dataset)) as [data|]; [|done]);
    simpl; unfold adapt_vocabulary; simpl;
    (destruct (list_mapM _ data); [|done]); simpl; by intros [= <-].
Qed.

Lemma CategoryLayer_call_single layer v :
  accepts (kind (index_layer layer)) v = true →
  num_tokens (encoder_layer layer) = vocabulary_size (index_layer layer) →
  let code := vec (one_hot (vocabulary_size (index_layer layer))
                           (lookup_index (index_layer layer) v)) in
  CategoryLayer_call layer (T0 v) = Ok code
  ∧ CategoryLayer_call layer (vec [v]) = Ok code
  ∧ CategoryLayer_call layer (TN [vec [v]]) = Ok (TN [code]).
Proof.
  intros Hacc Hnum code.
  pose proof (lookup_index_lt (index_layer layer) v) as Hlt.
  unfold CategoryLayer_call, IndexLookup_call, CategoryEncoding_call.
  simpl. unfold check_token. rewrite Hacc. simpl. rewrite Hnum.
  rewrite (encode_sample_single _ _ Hlt). done.
Qed.

(** C2.  For a feature whose values the dataset yields and whose dtype they
    have, [get_category_encoding_layer] returns: it builds a [StringLookup]
    when [dtype == 'string'] and an [IntegerLookup] otherwise, adapts it on
    the values of that one feature, and gives the encoder as many tokens as
    the adapted [vocabulary_size()], which is at most [max_tokens] when that
    is supplied.  The returned function maps a feature value (a scalar, a
    one-element tensor, or a one-element row of a batch) to the one-hot
    vector of that length with its 1 at the value's index: the value's
    place in the learned vocabulary plus one, or 0 when it was not learned. *)
Theorem get_category_encoding_layer_one_hot
    (sigma : list Elem → list Elem) (name : string) (dataset : Dataset)
    (dtype : string) (max_tokens : option nat) (data : list Cell) :
  values sigma (map_feature name dataset) = Ok data →
  Forall (λ c, accepts (kind_for dtype) c = true) data →
  (∀ n, max_tokens = Some n → 1 < n) →
  ∃ layer,
    get_category_encoding_layer sigma name dataset dtype max_tokens = Ok layer
    ∧ (dtype = "string" → kind (index_layer layer) = StringLookup)
    ∧ (dtype ≠ "string" → kind (index_layer layer) = IntegerLookup)
    ∧ vocabulary (index_layer layer) = learn_vocabulary max_tokens data
    ∧ num_tokens (encoder_layer layer) = vocabulary_size (index_layer layer)
    ∧ (∀ n, max_tokens = Some n →
            (vocabulary_size (index_layer layer) ≤ n)%nat)
    ∧ ∀ v, accepts (kind_for dtype) v = true →
        let i := lookup_index (index_layer layer) v in
        let n := vocabulary_size (index_layer layer) in
        i < n
        ∧ (i ≠ 0 → vocabulary (index_layer layer) !! (i - 1) = Some v)
        ∧ (v ∈ vocabulary (index_layer layer) → i ≠ 0)
        ∧ length (one_hot n i) = n
        ∧ (∀ j, j < n →
                nth j (one_hot n i) 0%R = if Nat.eqb j i then 1%R else 0%R)
        ∧ CategoryLayer_call layer (T0 v) = Ok (vec (one_hot n i))
        ∧ CategoryLayer_call layer (vec [v]) = Ok (vec (one_hot n i))
        ∧ CategoryLayer_call layer (TN [vec [v]])
          = Ok (TN [vec (one_hot n i)]).
Proof.
  intros Hv Hacc Hmax.
  set (index := mkIndexLookup (kind_for dtype) max_tokens
                  (learn_vocabulary max_tokens data)).
  exists (mkCategoryLayer index (mkCategoryEncoding (vocabulary_size index))).
  split; [by apply get_category_encoding_layer_returns|].
  change (index_layer (mkCategoryLayer index _)) with index.
  split; [|split; [|split; [|split; [|split]]]].
  - intros ->. reflexivity.
  - intros Hne. simpl. unfold kind_for. by apply String.eqb_neq in Hne as ->.
  - reflexivity.
  - reflexivity.
  - intros n ->. unfold vocabulary_size, learn_vocabulary. simpl.
    specialize (Hmax n eq_refl). rewrite length_firstn. lia.
  - intros v Hv'.
    split; [apply lookup_index_lt|].
    split; [apply lookup_index_in_vocabulary|].
    split; [apply lookup_index_of_token|].
    split; [apply length_multi_hot|].
    split; [intros j Hj; by apply nth_one_hot|].
    by apply (CategoryLayer_call_single
                (mkCategoryLayer index
                   (mkCategoryEncoding (vocabulary_size index))) v).
Qed.

(** On the datasets that [df_to_dataset] builds the function returns for
    every column whose values have the dtype passed. *)
Lemma category_layer_of_a_column sigma name features labels col
    (sh : bool) k bs pf dtype max_tokens :
  (∀ l, Permutation (sigma l) l) →
  same_length (length labels) features = true →
  lookup_col name features = Some col →
  0 < bs →
  Forall (λ c, accepts (kind_for dtype) c = true) col →
  (∀ n, max_tokens = Some n → 1 < n) →
  ∃ layer data,
    get_category_encoding_layer sigma name
      (prefetch pf
         (batch bs
            (if sh then shuffle k (from_tensor_slices features labels)
             else from_tensor_slices features labels)))
      dtype max_tokens = Ok layer
    ∧ Permutation data col
    ∧ vocabulary (index_layer layer) = learn_vocabulary max_tokens data
    ∧ num_tokens (encoder_layer layer) = vocabulary_size (index_layer layer).
Proof.
  intros Hsigma Hwf Hcol Hbs Hacc Hmax.
  destruct (pipeline_pass sigma name features labels col sh k bs pf
              Hsigma Hwf Hcol Hbs) as (data & Hdata & Hperm & _).
  exists (mkCategoryLayer
            (mkIndexLookup (kind_for dtype) max_tokens
               (learn_vocabulary max_tokens data))
            (mkCategoryEncoding
               (S (length (learn_vocabulary max_tokens data))))), data.
  split; [|split; [exact Hperm|split; reflexivity]].
  apply get_category_encoding_layer_returns; [exact Hdata| |exact Hmax].
  eapply Permutation_Forall; [|exact Hacc]. by symmetry.
Qed.

Lemma get_category_encoding_layer_one_hot_witness :
  ∃ layer,
    get_category_encoding_layer (@rev Elem) "Age" toy_train_ds "int64"
                                (Some 3) = Ok layer
    ∧ (vocabulary_size (index_layer layer) ≤ 3)%nat.
Proof.
  destruct (get_category_encoding_layer_one_hot (@rev Elem) "Age"
              toy_train_ds "int64" (Some 3)
              [CInt 1; CInt 4; CInt 1; CInt 1; CInt 3])
    as (layer & Hret & _ & _ & _ & _ & Hbound & _).
  - vm_compute. reflexivity.
  - repeat constructor.
  - intros n [= <-]. lia.
  - exists layer. split; [exact Hret|]. apply Hbound. reflexivity.
Defined.

(** Cells 14 and 15 call the returned function on a whole rank-1 batch;
    the encoder then marks every index that occurs in the batch. *)
Example category_layer_on_a_batch :
  (layer ← get_category_encoding_layer (@rev Elem) "Type" toy_train_ds
             "string" None;
   CategoryLayer_call layer (vec [CStr "Dog"; CStr "Cat"; CStr "Dog"]))
  = Ok (vec [0%R; 1%R; 1%R]).
Proof. vm_compute. reflexivity. Qed.

(** ** C3: the normalization layer *)

Section Statistics.
#[local] Open Scope R_scope.

Lemma sum_cons x l : sum (x :: l) = x + sum l.
Proof. reflexivity. Qed.

Lemma sum_map_centred (l : list R) (a s : R) :
  sum (List.map (λ x, (x - a) / s) l) = (sum l - INR (length l) * a) / s.
Proof.
  induction l as [|x l IH].
  - simpl. unfold Rdiv. ring.
  - cbn [List.map length]. rewrite !sum_cons, IH, S_INR. unfold Rdiv. ring.
Qed.

Lemma sum_map_squares_scaled (l : list R) (a s : R) :
  sum (List.map (λ y, (y - 0) * (y - 0)) (List.map (λ x, (x - a) / s) l))
  = sum (List.map (λ x, (x - a) * (x - a)) l) / (s * s).
Proof.
  induction l as [|x l IH].
  - simpl. unfold Rdiv. ring.
  - cbn [List.map]. rewrite !sum_cons, IH. unfold Rdiv.
    rewrite Rinv_mult. ring.
Qed.

Lemma sum_squares_nonneg (l : list R) (a : R) :
  0 <= sum (List.map (λ x, (x - a) * (x - a)) l).
Proof.
  induction l as [|x l IH]; simpl; [lra|].
  pose proof (Rle_0_sqr (x - a)) as H. unfold Rsqr in H. lra.
Qed.

Lemma epsilon_pos : 0 < epsilon.
Proof. unfold epsilon. apply Rinv_0_lt_compat. lra. Qed.

Variable xs : list R.
Hypothesis spread : epsilon <= std_of xs.

Lemma std_pos : 0 < std_of xs.
Proof. pose proof epsilon_pos. lra. Qed.

Lemma adapted_nonempty : xs ≠ [].
Proof.
  intros Hnil. pose proof std_pos as H. rewrite Hnil in H.
  unfold std_of, variance_of in H. simpl in H.
  unfold Rdiv in H. rewrite Rmult_0_l, sqrt_0 in H. lra.
Qed.

Lemma count_pos : 0 < INR (length xs).
Proof.
  pose proof adapted_nonempty. destruct xs; [done|].
  apply lt_0_INR. simpl. lia.
Qed.

Lemma variance_nonneg : 0 <= variance_of xs.
Proof.
  unfold variance_of. apply Rmult_le_pos.
  - apply sum_squares_nonneg.
  - left. apply Rinv_0_lt_compat, count_pos.
Qed.

Lemma std_squared : std_of xs * std_of xs = variance_of xs.
Proof. unfold std_of. apply sqrt_sqrt, variance_nonneg. Qed.

Lemma adapted_state :
  adapt_statistics xs = mkNormalization (mean_of xs) (variance_of xs).
Proof. pose proof adapted_nonempty. by destruct xs. Qed.

Lemma normalize_adapted x :
  normalize (adapt_statistics xs) x = (x - mean_of xs) / std_of xs.
Proof.
  rewrite adapted_state. unfold normalize. simpl.
  fold (std_of xs). by rewrite Rmax_left.
Qed.

Lemma normalized_data :
  List.map (normalize (adapt_statistics xs)) xs
  = List.map (λ x, (x - mean_of xs) / std_of xs) xs.
Proof. apply map_ext. intros x. apply normalize_adapted. Qed.

Lemma normalized_mean :
  mean_of (List.map (normalize (adapt_statistics xs)) xs) = 0.
Proof.
  rewrite normalized_data. unfold mean_of at 1.
  rewrite sum_map_centred, length_map.
  pose proof count_pos. pose proof std_pos.
  unfold mean_of. field. lra.
Qed.

Lemma normalized_variance :
  variance_of (List.map (normalize (adapt_statistics xs)) xs) = 1.
Proof.
  unfold variance_of at 1. rewrite normalized_mean.
  rewrite normalized_data, sum_map_squares_scaled, length_map.
  rewrite std_squared.
  pose proof count_pos as Hn.
  assert (0 < variance_of xs) as Hv.
  { rewrite <- std_squared. apply Rmult_lt_0_compat; apply std_pos. }
  unfold variance_of at 1.
  set (q := sum (List.map (λ x, (x - mean_of xs) * (x - mean_of xs)) xs)) in *.
  assert (q ≠ 0) as Hq.
  { intros Hq0. unfold variance_of in Hv. fold q in Hv. rewrite Hq0 in Hv.
    unfold Rdiv in Hv. rewrite Rmult_0_l in Hv. lra. }
  field. split; lra.
Qed.

Lemma normalized_std :
  std_of (List.map (normalize (adapt_statistics xs)) xs) = 1.
Proof. unfold std_of. rewrite normalized_variance. apply sqrt_1. Qed.

End Statistics.

(** What the function returns, given the pass over the feature. *)
Lemma get_normalization_layer_returns sigma name dataset data xs :
  values sigma (map_feature name dataset) = Ok data →
  list_mapM to_float data = Ok xs →
  get_normalization_layer sigma name dataset = Ok (adapt_statistics xs).
Proof.
  intros Hv Hx. unfold get_normalization_layer, Normalization_adapt.
  rewrite Hv. simpl. rewrite Hx. done.
Qed.

(** On a feature that is constant over the pass the normalized data are
    constant too: their deviation is 0, not 1. *)
Lemma constant_feature_is_not_scaled_to_unit_deviation :
  ∃ layer xs,
    get_normalization_layer (@rev Elem) "Fee" free_pets = Ok layer
    ∧ (data ← values (@rev Elem) (map_feature "Fee" free_pets);
       list_mapM to_float data) = Ok xs
    ∧ std_of (List.map (normalize layer) xs) ≠ 1%R.
Proof.
  exists (adapt_statistics [0; 0; 0]%R), [0; 0; 0]%R.
  split; [|split].
  - by apply (get_normalization_layer_returns _ _ _ [CInt 0; CInt 0; CInt 0]).
  - reflexivity.
  - assert (normalize (adapt_statistics [0; 0; 0]%R) 0 = 0%R) as Hz.
    { unfold normalize, adapt_statistics, mean_of. simpl.
      unfold Rdiv. ring. }
    cbn [List.map]. rewrite Hz.
    unfold std_of, variance_of, mean_of. simpl.
    replace (_ / _)%R with 0%R by (unfold Rdiv; ring).
    rewrite sqrt_0. lra.
Qed.

(** C3, as the code has it.  For a numeric feature that the dataset yields,
    [get_normalization_layer] returns a layer adapted on the values of that
    one feature: its state is their mean and their variance.  When their
    standard deviation is at least the framework's [epsilon], so that the
    feature is not constant over the pass, the layer maps [x] to
    [(x - mean) / standard deviation], and the adapted data so transformed
    have mean 0 and standard deviation 1.  Arithmetic is exact. *)
Theorem get_normalization_layer_standardizes
    (sigma : list Elem → list Elem) (name : string) (dataset : Dataset)
    (data : list Cell) (xs : list R) :
  values sigma (map_feature name dataset) = Ok data →
  list_mapM to_float data = Ok xs →
  (epsilon <= std_of xs)%R →
  ∃ layer,
    get_normalization_layer sigma name dataset = Ok layer
    ∧ mean layer = mean_of xs
    ∧ variance layer = variance_of xs
    ∧ (∀ x, normalize layer x = ((x - mean_of xs) / std_of xs)%R)
    ∧ mean_of (List.map (normalize layer) xs) = 0%R
    ∧ std_of (List.map (normalize layer) xs) = 1%R.
Proof.
  intros Hv Hx Hspread. exists (adapt_statistics xs).
  split; [by eapply get_normalization_layer_returns|].
  rewrite (adapted_state xs Hspread) at 1 2. simpl.
  split; [done|]. split; [done|].
  split; [intros x; by apply normalize_adapted|].
  split; [by apply normalized_mean|by apply normalized_std].
Qed.

(** On the datasets that [df_to_dataset] builds: for every integer column
    whose deviation is at least [epsilon] the function returns, the layer
    holds the mean and the variance of the column, and the normalized
    column has mean 0 and deviation 1, whatever the order of the pass. *)
Lemma normalization_layer_of_a_column sigma name features labels col
    (sh : bool) k bs pf :
  (∀ l, Permutation (sigma l) l) →
  same_length (length labels) features = true →
  lookup_col name features = Some col →
  0 < bs →
  Forall (λ c, is_int c = true) col →
  (epsilon <= std_of (List.map float_of col))%R →
  ∃ layer,
    get_normalization_layer sigma name
      (prefetch pf
         (batch bs
            (if sh then shuffle k (from_tensor_slices features labels)
             else from_tensor_slices features labels))) = Ok layer
    ∧ mean layer = mean_of (List.map float_of col)
    ∧ variance layer = variance_of (List.map float_of col)
    ∧ mean_of (List.map (normalize layer) (List.map float_of col)) = 0%R
    ∧ std_of (List.map (normalize layer) (List.map float_of col)) = 1%R.
Proof.
  intros Hsigma Hwf Hcol Hbs Hint Hspread.
  destruct (pipeline_pass sigma name features labels col sh k bs pf
              Hsigma Hwf Hcol Hbs) as (data & Hdata & Hperm & _).
  exists (adapt_statistics (List.map float_of col)).
  split.
  - rewrite <- (adapt_statistics_perm (List.map float_of data))
      by by apply Permutation_map.
    eapply get_normalization_layer_returns; [exact Hdata|].
    apply to_float_ints.
    eapply Permutation_Forall; [|exact Hint]. by symmetry.
  - rewrite (adapted_state _ Hspread) at 1 2. simpl.
    split; [done|]. split; [done|].
    split; [by apply normalized_mean|by apply normalized_std].
Qed.

Lemma two_pets_deviation : std_of [3; 1]%R = 1%R.
Proof.
  unfold std_of.
  replace (variance_of [3; 1]%R) with 1%R; [apply sqrt_1|].
  unfold variance_of, mean_of. simpl. field.
Qed.

Lemma get_normalization_layer_standardizes_witness :
  ∃ layer,
    get_normalization_layer (@rev Elem) "PhotoAmt" two_pets = Ok layer
    ∧ std_of (List.map (normalize layer) [3; 1]%R) = 1%R.
Proof.
  destruct (get_normalization_layer_standardizes (@rev Elem) "PhotoAmt"
              two_pets [CInt 3; CInt 1] [3; 1]%R)
    as (layer & Hret & _ & _ & _ & _ & Hstd).
  - reflexivity.
  - reflexivity.
  - rewrite two_pets_deviation. unfold epsilon. lra.
  - exists layer. exact (conj Hret Hstd).
Defined.

(** ** C5: applying a returned layer *)

Lemma untouched_refl h : untouched h h.
Proof. by intros l s. Qed.

Lemma untouched_trans h1 h2 h3 :
  untouched h1 h2 → untouched h2 h3 → untouched h1 h3.
Proof. intros H1 H2 l s H. by apply H2, H1. Qed.

Lemma untouched_new (h : Objects.Layers) s :
  untouched h (<[fresh (dom h) := s]> h).
Proof.
  intros l s0 H. rewrite lookup_insert_ne; [done|].
  intros <-. apply (is_fresh (dom h)), elem_of_dom. by eexists.
Qed.

Lemma untouched_renew (h : Objects.Layers) s s' :
  untouched h (<[fresh (dom h) := s']> (<[fresh (dom h) := s]> h)).
Proof. rewrite insert_insert_eq. apply untouched_new. Qed.

(** The object that [get_normalization_layer] creates holds, when the
    function returns, the state that the function above returns. *)
Lemma get_normalization_layer_object sigma name dataset h :
  let l := fresh (dom h) in
  Objects.get_normalization_layer sigma name dataset h
  = match get_normalization_layer sigma name dataset with
    | Ok layer =>
        (Ok (Objects.layer_object l),
         <[l := Objects.SNormalization layer]> h)
    | Raise e =>
        (Raise e, <[l := Objects.SNormalization Normalization_new]> h)
    end.
Proof.
  intros l. unfold Objects.get_normalization_layer, get_normalization_layer.
  unfold Objects.new_layer, Objects.Normalization_adapt, Objects.state_of,
    Objects.set_state, Objects.result.
  unfold mbind at 1 2 3 4, Objects.L_bind, mret, Objects.L_ret.
  fold l. rewrite lookup_insert_eq.
  destruct (Normalization_adapt sigma Normalization_new _) as [n|e]; simpl.
  - by rewrite insert_insert_eq.
  - done.
Qed.

Lemma get_category_encoding_layer_object sigma name dataset dtype max h :
  let l := fresh (dom h) in
  match get_category_encoding_layer sigma name dataset dtype max with
  | Ok layer =>
      let h1 := <[l := Objects.SIndexLookup (index_layer layer)]> h in
      let l' := fresh (dom h1) in
      Objects.get_category_encoding_layer sigma name dataset dtype max h
      = (Ok (Objects.encoding_lambda l' l),
         <[l' := Objects.SCategoryEncoding (encoder_layer layer)]> h1)
  | Raise e =>
      ∃ h', Objects.get_category_encoding_layer sigma name dataset dtype max h
            = (Raise e, h')
            ∧ untouched h h'
  end.
Proof.
  intros l.
  unfold Objects.get_category_encoding_layer, get_category_encoding_layer.
  assert ((if String.eqb dtype "string"
           then Objects.IndexLookup_new StringLookup max
           else Objects.IndexLookup_new IntegerLookup max)
          = Objects.IndexLookup_new (kind_for dtype) max) as ->.
  { unfold kind_for. by destruct (String.eqb dtype "string"). }
  assert ((if String.eqb dtype "string"
           then IndexLookup_new StringLookup max
           else IndexLookup_new IntegerLookup max)
          = IndexLookup_new (kind_for dtype) max) as ->.
  { unfold kind_for. by destruct (String.eqb dtype "string"). }
  unfold Objects.IndexLookup_new, Objects.new_layer,
    Objects.IndexLookup_adapt, Objects.vocabulary_size, Objects.state_of,
    Objects.set_state, Objects.result.
  unfold mbind, Objects.L_bind, mret, Objects.L_ret, Res_bind.
  destruct (IndexLookup_new (kind_for dtype) max) as [i0|e]; simpl.
  2:{ exists h. split; [done|apply untouched_refl]. }
  fold l. rewrite lookup_insert_eq.
  destruct (IndexLookup_adapt sigma i0 _) as [i|e]; simpl.
  2:{ eexists. split; [done|apply untouched_new]. }
  rewrite insert_insert_eq, lookup_insert_eq. done.
Qed.

Lemma returned_value sigma h f h' :
  Objects.returned sigma h f h' →
  untouched h h'
  ∧ ∃ v, returned_layer v ∧ Objects.value_of h' f = Some v.
Proof.
  intros [name dataset H|name dataset dtype max H].
  - rewrite get_normalization_layer_object in H.
    destruct (get_normalization_layer sigma name dataset) as [layer|e] eqn:E;
      [|done].
    injection H as <- <-. split; [apply untouched_new|].
    exists (VNormalization layer). split; [by econstructor|].
    simpl. by rewrite lookup_insert_eq.
  - pose proof (get_category_encoding_layer_object sigma name dataset dtype
                  max h) as Hobj.
    cbv zeta in Hobj.
    destruct (get_category_encoding_layer sigma name dataset dtype max)
      as [layer|e] eqn:E.
    2:{ destruct Hobj as (h1 & Hobj & _). congruence. }
    rewrite Hobj in H. injection H as <- <-.
    set (l := fresh (dom h)).
    set (h1 := <[l := Objects.SIndexLookup (index_layer layer)]> h).
    split.
    { eapply untouched_trans; apply untouched_new. }
    exists (VCategoryLayer layer). split; [by econstructor|].
    simpl. rewrite lookup_insert_eq.
    rewrite (untouched_new h1 _ l (Objects.SIndexLookup (index_layer layer)))
      by apply lookup_insert_eq.
    by destruct layer.
Qed.

Lemma call_reads training f feature h :
  (Objects.call training f feature h).2 = h.
Proof.
  destruct f as [l|e i]; simpl;
    unfold Objects.Normalization_call, Objects.IndexLookup_call,
      Objects.CategoryEncoding_call, Objects.state_of, Objects.result,
      Objects.fail;
    unfold mbind, Objects.L_bind.
  - destruct (h !! l) as [[]|]; try done.
  - destruct (h !! i) as [[| i0 |]|]; try done. simpl.
    destruct (Keras.IndexLookup_call i0 feature); [|done].
    destruct (h !! e) as [[]|]; done.
Qed.

Lemma call_value training f feature h v training' m :
  Objects.value_of h f = Some v →
  floats (Objects.call training f feature h).1
  = (apply_layer training' v (VTensor feature) m).1.
Proof.
  destruct f as [l|e i]; simpl;
    unfold Objects.Normalization_call, Objects.IndexLookup_call,
      Objects.CategoryEncoding_call, Objects.state_of, Objects.result,
      Objects.fail;
    unfold mbind, Objects.L_bind, M_bind, lift, mret, M_ret.
  - destruct (h !! l) as [[n| |]|]; try done. intros [= <-]. simpl.
    by destruct (Keras.Normalization_call n feature).
  - destruct (h !! i) as [[| i0 |]|]; try done.
    destruct (h !! e) as [[| | e0]|] eqn:He; try done.
    intros [= <-]. simpl. unfold CategoryLayer_call. simpl.
    unfold mbind, Res_bind.
    destruct (Keras.IndexLookup_call i0 feature) as [idx|err]; [|done].
    simpl. unfold M_bind, lift.
    by destruct (Keras.CategoryEncoding_call e0 idx).
Qed.

Lemma value_untouched h h' f v :
  untouched h h' →
  Objects.value_of h f = Some v → Objects.value_of h' f = Some v.
Proof.
  intros Hu. destruct f as [l|e i]; simpl.
  - destruct (h !! l) as [s|] eqn:E; [|done].
    by rewrite (Hu _ _ E).
  - destruct (h !! i) as [s|] eqn:E; [|done].
    rewrite (Hu _ _ E).
    destruct s; try done.
    destruct (h !! e) as [s'|] eqn:E'; [|done].
    by rewrite (Hu _ _ E').
Qed.

Lemma step_untouched h op : untouched h (Objects.step h op).
Proof.
  destruct op as [sigma name dataset|sigma name dataset dtype max
                 |training f feature]; simpl.
  - rewrite get_normalization_layer_object.
    destruct (get_normalization_layer sigma name dataset);
      apply untouched_new.
  - pose proof (get_category_encoding_layer_object sigma name dataset dtype
                  max h) as Hobj.
    cbv zeta in Hobj.
    destruct (get_category_encoding_layer sigma name dataset dtype max).
    + rewrite Hobj. simpl.
      eapply untouched_trans; apply untouched_new.
    + destruct Hobj as (h' & -> & Hu). exact Hu.
  - rewrite call_reads. apply untouched_refl.
Qed.

Lemma steps_untouched ops h : untouched h (Objects.steps ops h).
Proof.
  revert h. induction ops as [|op ops IH]; intros h; simpl.
  - apply untouched_refl.
  - eapply untouched_trans; [apply step_untouched|apply IH].
Qed.



(** ** C8: what is fed to the model *)

Lemma bind_ok_inv {A B} (c : M A) (k : A → M B) m b m' :
  (x ← c; k x) m = (Ok b, m') →
  ∃ a m1, c m = (Ok a, m1) ∧ k a m1 = (Ok b, m').
Proof.
  unfold mbind, M_bind. destruct (c m) as [[a|e] m1]; [|done].
  intros H. by exists a, m1.
Qed.

Lemma run_cons_ok_inv lib s script g m g' m' entered :
  run lib (s :: script) g m = (Ok g', m', entered) →
  ∃ g1 m1 entered1,
    exec lib s g m = (Ok g1, m1)
    ∧ run lib script g1 m1 = (Ok g', m', entered1).
Proof.
  simpl. destruct (exec lib s g m) as [[g1|e] m1]; [|done].
  destruct (run lib script g1 m1) as [[r m2] t] eqn:E.
  intros [= -> -> <-]. by exists g1, m1, t.
Qed.

Lemma run_app_ok_inv lib script1 script2 g m g' m' entered :
  run lib (script1 ++ script2) g m = (Ok g', m', entered) →
  ∃ g1 m1 entered1 entered2,
    run lib script1 g m = (Ok g1, m1, entered1)
    ∧ run lib script2 g1 m1 = (Ok g', m', entered2).
Proof.
  rewrite run_app.
  destruct (run lib script1 g m) as [[[g1|e] m1] t1]; [|done].
  destruct (run lib script2 g1 m1) as [[r m2] t2] eqn:E.
  intros [= -> -> <-]. by exists g1, m1, t1, t2.
Qed.

Lemma get_syms_ok (g : Globals) x xs m :
  g !! x = Some (VSyms xs) → get_syms g x m = (Ok xs, m).
Proof. intros H. get_known H. Qed.

Lemma get_sym_ok (g : Globals) x t m :
  g !! x = Some (VSym t) → get_sym g x m = (Ok t, m).
Proof. intros H. get_known H. Qed.

Lemma get_model_ok (g : Globals) x mo m :
  g !! x = Some (VModel mo) → get_model g x m = (Ok mo, m).
Proof. intros H. get_known H. Qed.

Lemma get_dataset_inv (g : Globals) x m ds m' :
  get_dataset g x m = (Ok ds, m') → m' = m ∧ g !! x = Some (VDataset ds).
Proof.
  unfold get_dataset, var. unfold_M.
  destruct (g !! x) as [[]|]; simpl; try congruence.
  intros [= -> ->]. done.
Qed.

Lemma exec_get_normalization_layer_inv lib dst name ds g m g' m' :
  exec lib (S_get_normalization_layer dst name ds) g m = (Ok g', m') →
  m' = m
  ∧ ∃ d layer,
      g !! ds = Some (VDataset d)
      ∧ get_normalization_layer (shuffle_order lib) name d = Ok layer
      ∧ g' = <[dst := VNormalization layer]> g.
Proof.
  unfold exec. intros H.
  apply bind_ok_inv in H as (d & m1 & Hd & H).
  apply get_dataset_inv in Hd as [-> Hd].
  apply bind_ok_inv in H as (layer & m2 & Hl & H).
  unfold lift in Hl. injection Hl as Hl <-.
  unfold mret, M_ret in H. injection H as <- <-.
  split; [done|]. by exists d, layer.
Qed.

Lemma exec_get_category_encoding_layer_inv lib dst name ds dtype max_tokens
    g m g' m' :
  exec lib (S_get_category_encoding_layer dst name ds dtype max_tokens) g m
  = (Ok g', m') →
  m' = m
  ∧ ∃ d layer,
      g !! ds = Some (VDataset d)
      ∧ get_category_encoding_layer (shuffle_order lib) name d dtype
          max_tokens = Ok layer
      ∧ g' = <[dst := VCategoryLayer layer]> g.
Proof.
  unfold exec. intros H.
  apply bind_ok_inv in H as (d & m1 & Hd & H).
  apply get_dataset_inv in Hd as [-> Hd].
  apply bind_ok_inv in H as (layer & m2 & Hl & H).
  unfold lift in Hl. injection Hl as Hl <-.
  unfold mret, M_ret in H. injection H as <- <-.
  split; [done|]. by exists d, layer.
Qed.

Lemma exec_apply_normalization lib dst layer arg (g : Globals) m l x :
  g !! layer = Some (VNormalization l) →
  g !! arg = Some (VSym x) →
  exec lib (S_apply (Some dst) layer arg) g m
  = (Ok (<[dst := VSym (Normalize l x)]> g), m).
Proof.
  intros Hl Hx. unfold exec.
  rewrite (bind_ok _ _ m _ m (var_ok _ _ _ _ Hl)).
  rewrite (bind_ok _ _ m _ m (var_ok _ _ _ _ Hx)). done.
Qed.

Lemma exec_apply_category lib dst layer arg (g : Globals) m l x :
  g !! layer = Some (VCategoryLayer l) →
  g !! arg = Some (VSym x) →
  exec lib (S_apply (Some dst) layer arg) g m
  = (Ok (<[dst := VSym (Encode (index_layer l) (encoder_layer l) x)]> g), m).
Proof.
  intros Hl Hx. unfold exec.
  rewrite (bind_ok _ _ m _ m (var_ok _ _ _ _ Hl)).
  rewrite (bind_ok _ _ m _ m (var_ok _ _ _ _ Hx)). done.
Qed.

Lemma exec_append lib lst elem (g : Globals) m xs x :
  g !! lst = Some (VSyms xs) →
  g !! elem = Some (VSym x) →
  exec lib (S_append lst elem) g m
  = (Ok (<[lst := VSyms (xs ++ [x])]> g), m).
Proof.
  intros Hl Hx. unfold exec.
  rewrite (bind_ok _ _ m _ m (get_syms_ok _ _ _ _ Hl)).
  rewrite (bind_ok _ _ m _ m (get_sym_ok _ _ _ _ Hx)). done.
Qed.

Ltac lookup_globals :=
  repeat first [ rewrite lookup_insert_eq
               | rewrite lookup_insert_ne by done ];
  try done.

(** A body that runs has found a dataset under [train_ds]. *)
Lemma numeric_body_reads_train_ds lib header g m g' m' entered :
  run lib (numeric_body header) g m = (Ok g', m', entered) →
  ∃ d, g !! "train_ds" = Some (VDataset d).
Proof.
  intros H. unfold numeric_body in H.
  apply run_cons_ok_inv in H as (? & ? & ? & E & H).
  simpl in E. unfold mret, M_ret in E. injection E as <- <-.
  apply run_cons_ok_inv in H as (? & ? & ? & E & H).
  apply exec_get_normalization_layer_inv in E as [_ (d & _ & Hd & _)].
  exists d. by rewrite lookup_insert_ne in Hd.
Qed.

Lemma numeric_body_appends lib header d ins feats g m g' m' entered :
  building d ins feats g →
  run lib (numeric_body header) g m = (Ok g', m', entered) →
  ∃ x,
    normalized_from (shuffle_order lib) d header x
    ∧ building d (ins ++ [Input header None]) (feats ++ [x]) g'.
Proof.
  intros (Hd & Hins & Hfeats) H. unfold numeric_body in H.
  apply run_cons_ok_inv in H as (? & ? & ? & E & H).
  simpl in E. unfold mret, M_ret in E. injection E as <- <-.
  apply run_cons_ok_inv in H as (? & ? & ? & E & H).
  apply exec_get_normalization_layer_inv
    in E as [-> (d' & layer & Hd' & Hlayer & ->)].
  rewrite lookup_insert_ne, Hd in Hd' by done. injection Hd' as <-.
  apply run_cons_ok_inv in H as (? & ? & ? & E & H).
  rewrite (exec_apply_normalization _ _ _ _ _ _ layer (Input header None))
    in E by lookup_globals.
  injection E as <- <-.
  apply run_cons_ok_inv in H as (? & ? & ? & E & H).
  rewrite (exec_append _ _ _ _ _ ins (Input header None))
    in E by lookup_globals.
  injection E as <- <-.
  apply run_cons_ok_inv in H as (? & ? & ? & E & H).
  rewrite (exec_append _ _ _ _ _ feats (Normalize layer (Input header None)))
    in E by lookup_globals.
  injection E as <- <-.
  simpl in H. injection H as <- _ _.
  exists (Normalize layer (Input header None)).
  split; [by exists layer|]. repeat split; lookup_globals.
Qed.

Ltac category_steps H header dtype d ins feats Hd :=
  let E := fresh "E" in let layer := fresh "layer" in
  let d' := fresh "d" in let Hd' := fresh "Hd" in
  let Hlayer := fresh "Hlayer" in
  apply run_cons_ok_inv in H as (? & ? & ? & E & H);
  simpl in E; unfold mret, M_ret in E; injection E as <- <-;
  apply run_cons_ok_inv in H as (? & ? & ? & E & H);
  apply exec_get_category_encoding_layer_inv
    in E as [-> (d' & layer & Hd' & Hlayer & ->)];
  rewrite lookup_insert_ne, Hd in Hd' by done; injection Hd' as <-;
  apply run_cons_ok_inv in H as (? & ? & ? & E & H);
  rewrite (exec_apply_category _ _ _ _ _ _ layer (Input header (Some dtype)))
    in E by lookup_globals;
  injection E as <- <-;
  apply run_cons_ok_inv in H as (? & ? & ? & E & H);
  rewrite (exec_append _ _ _ _ _ ins (Input header (Some dtype)))
    in E by lookup_globals;
  injection E as <- <-;
  apply run_cons_ok_inv in H as (? & ? & ? & E & H);
  rewrite (exec_append _ _ _ _ _ feats
             (Encode (index_layer layer) (encoder_layer layer)
                     (Input header (Some dtype))))
    in E by lookup_globals;
  injection E as <- <-;
  simpl in H; injection H as <- _ _;
  exists (Encode (index_layer layer) (encoder_layer layer)
                 (Input header (Some dtype)));
  split; [by exists layer|repeat split; lookup_globals].

Lemma cell_18_appends lib d ins feats g m g' m' entered :
  building d ins feats g →
  run lib cell_18 g m = (Ok g', m', entered) →
  ∃ x,
    encoded_from (shuffle_order lib) d "int64" "Age" x
    ∧ building d (ins ++ [Input "Age" (Some "int64")]) (feats ++ [x]) g'.
Proof.
  intros (Hd & Hins & Hfeats) H. unfold cell_18 in H.
  category_steps H "Age" "int64" d ins feats Hd.
Qed.

Lemma categorical_body_appends lib header d ins feats g m g' m' entered :
  building d ins feats g →
  run lib (categorical_body header) g m = (Ok g', m', entered) →
  ∃ x,
    encoded_from (shuffle_order lib) d "string" header x
    ∧ building d (ins ++ [Input header (Some "string")]) (feats ++ [x]) g'.
Proof.
  intros (Hd & Hins & Hfeats) H. unfold categorical_body in H.
  category_steps H header "string" d ins feats Hd.
Qed.

Lemma numeric_loop_appends lib headers d ins feats g m g' m' entered :
  building d ins feats g →
  run lib (flat_map numeric_body headers) g m = (Ok g', m', entered) →
  ∃ feats',
    building d (ins ++ List.map (λ h, Input h None) headers)
             (feats ++ feats') g'
    ∧ Forall2 (normalized_from (shuffle_order lib) d) headers feats'.
Proof.
  revert ins feats g m entered.
  induction headers as [|h headers IH]; intros ins feats g m entered Hb H.
  - simpl in H. injection H as <- _ _. exists [].
    rewrite !app_nil_r. by split; [|constructor].
  - cbn [flat_map] in H.
    apply run_app_ok_inv in H as (g1 & m1 & t1 & t2 & H1 & H2).
    destruct (numeric_body_appends _ _ _ _ _ _ _ _ _ _ Hb H1)
      as (x & Hx & Hb1).
    destruct (IH _ _ _ _ _ Hb1 H2) as (feats' & Hb2 & Hall).
    exists (x :: feats'). split.
    + cbn [List.map]. by rewrite !(cons_middle _ _ _), !app_assoc.
    + by constructor.
Qed.

Lemma categorical_loop_appends lib headers d ins feats g m g' m' entered :
  building d ins feats g →
  run lib (flat_map categorical_body headers) g m = (Ok g', m', entered) →
  ∃ feats',
    building d (ins ++ List.map (λ h, Input h (Some "string")) headers)
             (feats ++ feats') g'
    ∧ Forall2 (encoded_from (shuffle_order lib) d "string") headers feats'.
Proof.
  revert ins feats g m entered.
  induction headers as [|h headers IH]; intros ins feats g m entered Hb H.
  - simpl in H. injection H as <- _ _. exists [].
    rewrite !app_nil_r. by split; [|constructor].
  - cbn [flat_map] in H.
    apply run_app_ok_inv in H as (g1 & m1 & t1 & t2 & H1 & H2).
    destruct (categorical_body_appends _ _ _ _ _ _ _ _ _ _ Hb H1)
      as (x & Hx & Hb1).
    destruct (IH _ _ _ _ _ Hb1 H2) as (feats' & Hb2 & Hall).
    exists (x :: feats'). split.
    + cbn [List.map]. by rewrite !(cons_middle _ _ _), !app_assoc.
    + by constructor.
Qed.

Lemma Forall2_map_l {A B C} (P : B → C → Prop) (f : A → B) l k :
  Forall2 (λ a c, P (f a) c) l k → Forall2 P (List.map f l) k.
Proof. induction 1; simpl; by constructor. Qed.

(** The treatment can be read off an encoded feature. *)
Lemma feature_from_treatment sigma d c x :
  feature_from sigma d c x → treatment x = Some c.
Proof.
  destruct c as [name []]; unfold feature_from; simpl.
  - intros (layer & _ & ->). done.
  - intros (layer & Hl & ->). simpl.
    by rewrite (get_category_encoding_layer_kind _ _ _ _ _ _ Hl).
  - intros (layer & Hl & ->). simpl.
    by rewrite (get_category_encoding_layer_kind _ _ _ _ _ _ Hl).
Qed.

Ltac exec_known E :=
  unfold exec in E;
  repeat (erewrite bind_ok in E
            by (first [ apply get_syms_ok | apply get_sym_ok
                      | apply get_model_ok ]; lookup_globals));
  unfold mret, M_ret in E; injection E as <- <-.

Lemma cell_20_builds_the_model lib d ins feats g m g' m' entered :
  building d ins feats g →
  run lib cell_20 g m = (Ok g', m', entered) →
  ∃ model,
    g' !! "model" = Some (VModel model)
    ∧ g' !! "train_ds" = Some (VDataset d)
    ∧ inputs model = ins
    ∧ output model
      = Dense 1 None
          (Dropout (5 / 10)%R (Dense 32 (Some "relu") (Concatenate feats))).
Proof.
  intros (Hd & Hins & Hfeats) H. unfold cell_20 in H.
  apply run_cons_ok_inv in H as (? & ? & ? & E & H). exec_known E.
  apply run_cons_ok_inv in H as (? & ? & ? & E & H). exec_known E.
  apply run_cons_ok_inv in H as (? & ? & ? & E & H). exec_known E.
  apply run_cons_ok_inv in H as (? & ? & ? & E & H). exec_known E.
  apply run_cons_ok_inv in H as (? & ? & ? & E & H). exec_known E.
  apply run_cons_ok_inv in H as (? & ? & ? & E & H). exec_known E.
  simpl in H. injection H as <- _ _.
  eexists. split; [apply lookup_insert_eq|].
  split; [lookup_globals|]. done.
Qed.

(** C8.  Whatever the libraries return, when the notebook gets through
    cell 20 the model has thirteen inputs, each read by exactly one encoded
    feature of the classifier, and that feature passes the input through
    the layer adapted on that very column of the train dataset: [PhotoAmt]
    and [Fee] through a normalization layer, [Age] through an integer lookup
    and a category encoding, the ten string columns through a string lookup
    and a category encoding.  Every input name occurs once, and
    [Description] is not among them. *)
Theorem model_columns_have_fixed_types
    (lib : Library) (g : Globals) (m : Mem)
    (g' : Globals) (m' : Mem) (entered : list Stmt) :
  run lib through_cell_20 g m = (Ok g', m', entered) →
  ∃ model feats train_ds,
    g' !! "model" = Some (VModel model)
    ∧ g' !! "train_ds" = Some (VDataset train_ds)
    ∧ output model
      = Dense 1 None
          (Dropout (5 / 10)%R (Dense 32 (Some "relu") (Concatenate feats)))
    ∧ List.map input_name (inputs model)
      = List.map (λ c, Some (fst c)) model_columns
    ∧ Forall2 (feature_from (shuffle_order lib) train_ds) model_columns feats
    ∧ List.map treatment feats = List.map Some model_columns
    ∧ NoDup (List.map fst model_columns)
    ∧ "Description" ∉ List.map fst model_columns.
Proof.
  intros H. unfold through_cell_20 in H.
  do 5 (apply run_app_ok_inv in H as (? & ? & ? & ? & _ & H)).
  apply run_app_ok_inv in H as (g16 & m16 & ? & ? & _ & H).
  apply run_app_ok_inv in H as (g17 & m17 & ? & ? & H17 & H).
  apply run_app_ok_inv in H as (g18 & m18 & ? & ? & H18 & H).
  apply run_app_ok_inv in H as (g19 & m19 & ? & ? & H19 & H20).
  unfold cell_17 in H17.
  apply run_app_ok_inv in H17 as (g0 & m0 & ? & ? & Hnew & Hnum).
  simpl in Hnew. injection Hnew as <- _ _.
  assert (∃ d, g16 !! "train_ds" = Some (VDataset d)) as [d Hd].
  { pose proof Hnum as Hfirst. unfold numeric_headers in Hfirst.
    cbn [flat_map] in Hfirst.
    apply run_app_ok_inv in Hfirst as (? & ? & ? & ? & Hfirst & _).
    apply numeric_body_reads_train_ds in Hfirst as [d Hd].
    exists d. by rewrite !lookup_insert_ne in Hd. }
  assert (building d [] []
            (<["encoded_features" := VSyms []]>
               (<["all_inputs" := VSyms []]> g16))) as Hb0.
  { repeat split; lookup_globals. }
  destruct (numeric_loop_appends _ _ _ _ _ _ _ _ _ _ Hb0 Hnum)
    as (f17 & Hb17 & Hall17).
  destruct (cell_18_appends _ _ _ _ _ _ _ _ _ Hb17 H18)
    as (age & Hage & Hb18).
  destruct (categorical_loop_appends _ _ _ _ _ _ _ _ _ _ Hb18 H19)
    as (f19 & Hb19 & Hall19).
  destruct (cell_20_builds_the_model _ _ _ _ _ _ _ _ _ Hb19 H20)
    as (model & Hmodel & Hds & Hin & Hout).
  assert (Forall2 (feature_from (shuffle_order lib) d) model_columns
            ((([] ++ f17) ++ [age]) ++ f19)%list) as Hall.
  { change model_columns
      with ((List.map (λ h, (h, Numeric)) numeric_headers
             ++ [("Age", IntegerCategorical)])
            ++ List.map (λ h, (h, StringCategorical)) categorical_cols)%list.
    apply Forall2_app; [apply Forall2_app|].
    - change ([] ++ f17)%list with f17. by apply Forall2_map_l.
    - by constructor.
    - by apply Forall2_map_l. }
  exists model, ((([] ++ f17) ++ [age]) ++ f19)%list, d.
  split; [exact Hmodel|]. split; [exact Hds|]. split; [exact Hout|].
  split; [rewrite Hin; reflexivity|]. split; [exact Hall|]. split.
  - clear -Hall. induction Hall as [|c x cs xs Hc _ IH]; [done|].
    cbn [List.map]. by rewrite (feature_from_treatment _ _ _ _ Hc), IH.
  - split; compute_done.
Qed.

Lemma model_columns_have_fixed_types_witness :
  ∃ g' model,
    (run toy_lib through_cell_20 ∅ empty_mem).1.1 = Ok g'
    ∧ g' !! "model" = Some (VModel model)
    ∧ List.map input_name (inputs model)
      = List.map (λ c, Some (fst c)) model_columns.
Proof.
  destruct (run toy_lib through_cell_20 ∅ empty_mem) as [[r m'] t] eqn:E.
  assert (is_ok r = true) as Hok.
  { change r with (r, m', t).1.1. rewrite <- E. vm_compute. reflexivity. }
  destruct r as [g'|e]; [|discriminate Hok].
  destruct (model_columns_have_fixed_types toy_lib ∅ empty_mem g' m' t E)
    as (model & feats & d & Hmodel & _ & _ & Hin & _).
  exists g', model. split; [reflexivity|]. exact (conj Hmodel Hin).
Defined.

(** ** Saving and reloading (cell 24) *)

(** The model that cell 24 binds to [reloaded_model] is what the library
    loads from what it saved of [model]: both calls name the same path and
    nothing is written in between.  Whether the two models predict alike is
    then a matter of the library's serialization alone. *)
Lemma cell_24_reloads_what_it_saved lib (g : Globals) m g' m' entered model :
  g !! "model" = Some (VModel model) →
  run lib cell_24 g m = (Ok g', m', entered) →
  ∃ saved reloaded,
    save_model lib model = Ok saved
    ∧ load_model lib saved = Ok reloaded
    ∧ g' !! "reloaded_model" = Some (VModel reloaded)
    ∧ g' !! "model" = Some (VModel model).
Proof.
  intros Hmodel H. unfold cell_24 in H.
  apply run_cons_ok_inv in H as (g1 & m1 & ? & E & H).
  unfold exec in E.
  rewrite (bind_ok _ _ m model m) in E by by apply get_model_ok.
  apply bind_ok_inv in E as (saved & m2 & Hsave & E).
  unfold lift in Hsave. injection Hsave as Hsave <-.
  unfold write_file in E. unfold_M. injection E as <- <-.
  apply run_cons_ok_inv in H as (g2 & m3 & ? & E & H).
  unfold exec in E.
  apply bind_ok_inv in E as (saved' & m4 & Hread & E).
  unfold read_file in Hread. simpl in Hread.
  rewrite lookup_insert_eq in Hread. injection Hread as <- <-.
  apply bind_ok_inv in E as (reloaded & m5 & Hload & E).
  unfold lift in Hload. injection Hload as Hload <-.
  unfold_M. injection E as <- <-.
  simpl in H. injection H as <- _ _.
  exists saved, reloaded. split; [done|]. split; [done|].
  split; [apply lookup_insert_eq|].
  by rewrite lookup_insert_ne.
Qed.

(** Cell 9 assigns [batch_size = 5] but calls [df_to_dataset(train)]
    without passing it: the demonstration batches hold 32 rows, as the
    output of cell 10 shows. *)
Example cell_9_uses_the_default_batch_size :
  ∃ g,
    (run toy_lib cell_9 toy_splits toy_mem).1.1 = Ok g
    ∧ g !! "batch_size" = Some (VNat 5)
    ∧ dataset_of g "train_ds"
      = Some (prefetch 32
                (batch 32
                   (shuffle 5
                      (source_of toy_frame
                         [CInt 1; CInt 1; CInt 1; CInt 1; CInt 0])))).
Proof. eexists. split; [vm_compute; reflexivity|]. split; reflexivity. Qed.

(** ** The input pipeline, further (cell 8) *)

(** Without a label column the function stops at [pop], after the copy. *)
Lemma df_to_dataset_raises l sh bs m df :
  heap m !! l = Some df →
  has_col "target" df = false →
  df_to_dataset l sh bs m =
    (Raise (KeyError "target"),
     mkMem (<[fresh (dom (heap m)) := df]> (heap m)) (files m)).
Proof.
  intros Hl Ht. unfold df_to_dataset, copy, pop.
  rewrite (bind_ok _ _ m (fresh (dom (heap m)))
             (mkMem (<[fresh (dom (heap m)) := df]> (heap m)) (files m))).
  2:{ rewrite (bind_ok _ _ m df m) by by apply deref_ok. done. }
  set (l' := fresh (dom (heap m))).
  set (m1 := mkMem (<[l' := df]> (heap m)) (files m)).
  apply bind_raise.
  rewrite (bind_ok _ _ m1 df m1).
  2:{ apply deref_ok. simpl. apply lookup_insert_eq. }
  unfold_M. unfold getitem. unfold has_col in Ht.
  by destruct (lookup_col "target" (cols df)).
Qed.

Lemma length_chunks_aux {A} fuel n (l : list A) :
  0 < n → (length l ≤ fuel)%nat →
  length (chunks_aux fuel n l) = batches_for (length l) n.
Proof.
  intros Hn. revert l. induction fuel as [|fuel IH]; intros l Hl.
  - destruct l; [|simpl in Hl; lia]. simpl. unfold batches_for.
    symmetry. apply Nat.div_small. simpl. lia.
  - destruct l as [|a l].
    { simpl. unfold batches_for. symmetry. apply Nat.div_small. simpl. lia. }
    cbn [chunks_aux length]. rewrite IH.
    2:{ rewrite length_skipn. simpl in *. lia. }
    rewrite length_skipn. unfold batches_for.
    cbn [length].
    destruct (decide (S (length l) ≤ n)%nat) as [Hle|Hgt].
    + replace (S (length l) - n) with 0 by lia.
      rewrite (Nat.div_small (0 + n - 1) n) by lia.
      simpl. apply (Nat.div_unique _ _ 1 (length l)); lia.
    + replace (S (length l) + n - 1) with ((S (length l) - n + n - 1) + 1 * n)
        by lia.
      rewrite Nat.div_add by lia. lia.
Qed.

Lemma length_chunks {A} n (l : list A) :
  0 < n → length (chunks n l) = batches_for (length l) n.
Proof. intros Hn. by apply length_chunks_aux. Qed.

Lemma chunks_aux_sizes {A} fuel n (l : list A) :
  0 < n →
  Forall (λ c, 0 < length c ≤ n) (chunks_aux fuel n l).
Proof.
  intros Hn. revert l. induction fuel as [|fuel IH]; intros l; [constructor|].
  destruct l as [|a l]; [constructor|].
  cbn [chunks_aux]. constructor; [|apply IH].
  rewrite length_firstn. simpl. lia.
Qed.

Lemma chunks_aux_full {A} fuel n (l : list A) i c :
  0 < n →
  chunks_aux fuel n l !! i = Some c →
  S i < length (chunks_aux fuel n l) →
  length c = n.
Proof.
  intros Hn. revert l i. induction fuel as [|fuel IH]; intros l i; [done|].
  destruct l as [|a l]; [done|].
  cbn [chunks_aux]. destruct i as [|i]; simpl.
  - intros [= <-] Hlt.
    destruct (chunks_aux fuel n (skipn n (a :: l))) as [|c' cs] eqn:E;
      [simpl in Hlt; lia|].
    destruct fuel as [|fuel']; [done|]. simpl in E.
    destruct (skipn n (a :: l)) as [|b rest] eqn:Es; [done|].
    assert (length (skipn n (a :: l)) ≠ 0) as Hlen by by rewrite Es.
    rewrite length_skipn in Hlen.
    rewrite length_firstn. lia.
  - intros Hc Hlt. eapply IH; [exact Hc|lia].
Qed.

Lemma stack_stacked ks group :
  group ≠ [] → Forall (keyed ks) group →
  stack group = Ok (stacked ks group).
Proof. apply stack_keyed. Qed.

Lemma iterate_batch sigma n ds es ks :
  iterate sigma ds = Ok es →
  Forall (keyed ks) es →
  0 < n →
  iterate sigma (batch n ds) = Ok (List.map (stacked ks) (chunks n es)).
Proof.
  intros Hes Hall Hn. cbn [iterate]. rewrite Hes, res_bind_ok.
  destruct n as [|n']; [lia|]. set (n := S n') in *.
  apply list_mapM_ok_map.
  pose proof (chunks_aux_nonempty (length es) n es Hn) as Hne.
  pose proof (chunks_aux_Forall _ (length es) n es Hall) as Hk.
  unfold chunks.
  induction Hne as [|g gs Hg _ IH]; [constructor|].
  apply Forall_cons in Hk as [Hkg Hk].
  constructor; [by apply stack_stacked|by apply IH].
Qed.

Lemma same_length_remove n cs features :
  same_length n features = true →
  same_length n (remove_cols cs features) = true.
Proof.
  unfold same_length, remove_cols. rewrite !forallb_forall.
  intros H p Hp. apply filter_In in Hp as [Hp _]. by apply H.
Qed.

Lemma getitem_length df c col :
  well_formed df = true → getitem df c = Ok col → length col = len df.
Proof.
  unfold well_formed, getitem. intros Hwf H.
  destruct (lookup_col c (cols df)) as [v|] eqn:E; [|done].
  injection H as <-. by eapply same_length_lookup.
Qed.

(** The batches of one pass over a pipeline of [df_to_dataset]. *)
Lemma pipeline_batches sigma (sh : bool) k bs pf features labels :
  (∀ l, Permutation (sigma l) l) →
  same_length (length labels) features = true →
  0 < bs →
  let rows := List.map (row features labels) (seq 0 (length labels)) in
  iterate sigma (wrapped sh k bs pf (from_tensor_slices features labels))
  = Ok (List.map (stacked (List.map fst features))
          (chunks bs (if sh then sigma rows else rows))).
Proof.
  intros Hsigma Hwf Hbs rows. unfold wrapped. cbn [iterate].
  change (es ← iterate sigma ?d; match bs with
                                 | 0 => ?a
                                 | S _ => ?b es
                                 end)
    with (iterate sigma (batch bs d)).
  assert (Forall (keyed (List.map fst features)) rows) as Hrows.
  { apply Forall_forall. intros e He. apply list_elem_of_In in He.
    apply in_map_iff in He as (i & <- & _). apply row_keyed. }
  apply iterate_batch; [|  |done].
  - destruct sh; cbn [iterate]; by rewrite (slices_rows _ _ Hwf).
  - destruct sh; [|done].
    eapply Permutation_Forall; [|exact Hrows]. symmetry. apply Hsigma.
Qed.

Lemma popped_same_length df labels :
  well_formed df = true →
  getitem df "target" = Ok labels →
  same_length (length labels) (cols (popped df)) = true.
Proof.
  intros Hwf Ht. rewrite (getitem_length _ _ _ Hwf Ht).
  by apply same_length_remove.
Qed.

(** X1.  [df_to_dataset] raises [KeyError: 'target'] on a dataframe that has
    no [target] column, whatever the shuffle flag and the batch size: no
    dataset is returned. *)
Theorem df_to_dataset_without_label_raises
    (dataframe : loc) (shuffle_flag : bool) (batch_size : nat)
    (m : Mem) (df : DataFrame) :
  heap m !! dataframe = Some df →
  has_col "target" df = false →
  (df_to_dataset dataframe shuffle_flag batch_size m).1
  = Raise (KeyError "target").
Proof.
  intros Hl Ht. by rewrite (df_to_dataset_raises _ _ _ _ _ Hl Ht).
Qed.

Lemma df_to_dataset_without_label_raises_witness :
  has_col "target" toy_csv = false
  ∧ (df_to_dataset 0%nat true 32 toy_csv_mem).1 = Raise (KeyError "target").
Proof.
  split; [reflexivity|].
  apply (df_to_dataset_without_label_raises 0%nat true 32 toy_csv_mem toy_csv);
    reflexivity.
Defined.

(** X2.  On a dataframe with rows and a [target] column that converts to
    tensors (distinct column labels, every column of strings or of [int64]
    integers), and with a positive batch size, [df_to_dataset] returns the
    pipeline shuffle (when asked),
    batch, prefetch over the slices of the frame.  The labels are the
    [target] column; the features are the other columns, in the order of the
    frame and with their values, and [target] is not one of them.  The
    shuffle buffer holds the whole frame and the prefetch buffer one batch
    size. *)
Theorem df_to_dataset_keeps_the_label_out_of_the_features
    (dataframe : loc) (shuffle_flag : bool) (batch_size : nat)
    (m : Mem) (df : DataFrame) (labels : list Cell) :
  heap m !! dataframe = Some df →
  getitem df "target" = Ok labels →
  tensorable df = true →
  0 < len df →
  0 < batch_size →
  ∃ features,
    (df_to_dataset dataframe shuffle_flag batch_size m).1
    = Ok (wrapped shuffle_flag (len df) batch_size batch_size
            (from_tensor_slices features labels))
    ∧ lookup_col "target" features = None
    ∧ (∀ c, c ≠ "target" →
            lookup_col c features = lookup_col c (cols df))
    ∧ List.map fst features
      = List.filter (λ c, negb (String.eqb c "target"))
          (List.map fst (cols df)).
Proof.
  intros Hl Ht Hconv Hrows Hbs. exists (cols (popped df)).
  rewrite (df_to_dataset_returns _ _ _ _ _ _ Hl Ht Hconv (λ _, Hrows) Hbs).
  split; [done|]. split; [|split].
  - apply lookup_col_remove_in. by left.
  - intros c Hc. apply lookup_col_remove_notin. intros [H|[]]. congruence.
  - unfold popped, remove_cols. cbn [cols].
    generalize (cols df). intros l.
    induction l as [|p l IH]; [done|]. cbn [List.filter List.map existsb].
    rewrite orb_false_r.
    destruct (String.eqb p.1 "target"); cbn [negb List.map];
      rewrite <- IH; reflexivity.
Qed.

Lemma df_to_dataset_keeps_the_label_out_of_the_features_witness :
  ∃ features,
    (df_to_dataset 0%nat true 2 toy_mem).1
    = Ok (wrapped true 5 2 2
            (from_tensor_slices features
               [CInt 1; CInt 1; CInt 1; CInt 1; CInt 0]))
    ∧ lookup_col "target" features = None.
Proof.
  destruct (df_to_dataset_keeps_the_label_out_of_the_features 0%nat true 2
              toy_mem toy_frame [CInt 1; CInt 1; CInt 1; CInt 1; CInt 0])
    as (features & Hret & Hnone & _).
  - reflexivity.
  - reflexivity.
  - reflexivity.
  - unfold len. simpl. lia.
  - lia.
  - exists features. exact (conj Hret Hnone).
Defined.

(** X3.  One pass over the dataset that [df_to_dataset] returns for a
    frame with rows that converts to tensors yields every row once, each
    with its own label, in batches: the rows are taken in the order of the
    frame when [shuffle] is false and in a permutation of it otherwise, and
    cut into consecutive groups of [batch_size] rows, the last group holding
    what is left.  There are [ceil(len / batch_size)] batches, none
    empty. *)
Theorem df_to_dataset_yields_every_row_once
    (sigma : list Elem → list Elem)
    (dataframe : loc) (shuffle_flag : bool) (batch_size : nat)
    (m : Mem) (df : DataFrame) (labels : list Cell) :
  (∀ l, Permutation (sigma l) l) →
  heap m !! dataframe = Some df →
  well_formed df = true →
  tensorable df = true →
  getitem df "target" = Ok labels →
  0 < len df →
  0 < batch_size →
  ∃ ds features order,
    (df_to_dataset dataframe shuffle_flag batch_size m).1 = Ok ds
    ∧ features = cols (popped df)
    ∧ Permutation order (seq 0 (len df))
    ∧ (shuffle_flag = false → order = seq 0 (len df))
    ∧ let groups := chunks batch_size
                      (List.map (row features labels) order) in
      iterate sigma ds
      = Ok (List.map (stacked (List.map fst features)) groups)
      ∧ length groups = batches_for (len df) batch_size
      ∧ Forall (λ group, 0 < length group ≤ batch_size) groups
      ∧ (∀ i group, groups !! i = Some group → S i < length groups →
                    length group = batch_size)
      ∧ List.concat groups = List.map (row features labels) order.
Proof.
  intros Hsigma Hl Hwf Hconv Ht Hrows Hbs.
  pose proof (getitem_length _ _ _ Hwf Ht) as Hlen.
  pose proof (popped_same_length _ _ Hwf Ht) as Hsame.
  set (features := cols (popped df)) in *.
  set (rows := List.map (row features labels) (seq 0 (length labels))).
  assert (∃ order,
            Permutation order (seq 0 (len df))
            ∧ (shuffle_flag = false → order = seq 0 (len df))
            ∧ (if shuffle_flag then sigma rows else rows)
              = List.map (row features labels) order)
    as (order & Hperm & Hid & Horder).
  { destruct shuffle_flag.
    - destruct (@Permutation_map_inv _ _ (row features labels) (sigma rows)
                  (seq 0 (length labels)) (Hsigma rows))
        as (order & Heq & Hp).
      exists order. rewrite <- Hlen. split; [by symmetry|]. by split.
    - exists (seq 0 (len df)). rewrite <- Hlen. done. }
  eexists _, features, order.
  rewrite (df_to_dataset_returns _ _ _ _ _ _ Hl Ht Hconv (λ _, Hrows) Hbs).
  cbn [fst].
  split; [reflexivity|]. split; [done|]. split; [done|]. split; [done|].
  cbv zeta. split; [|split; [|split; [|split]]].
  - rewrite <- Horder.
    apply (pipeline_batches sigma shuffle_flag (len df) batch_size batch_size
             features labels Hsigma Hsame Hbs).
  - rewrite length_chunks by done. rewrite length_map.
    by rewrite (Permutation_length Hperm), length_seq.
  - by apply chunks_aux_sizes.
  - intros i group. by apply chunks_aux_full.
  - by apply chunks_concat.
Qed.

Lemma df_to_dataset_yields_every_row_once_witness :
  ∃ ds order,
    (df_to_dataset 0%nat false 2 toy_mem).1 = Ok ds
    ∧ order = seq 0 5
    ∧ length (chunks 2
                (List.map (row (cols (popped toy_frame))
                               [CInt 1; CInt 1; CInt 1; CInt 1; CInt 0])
                          order))
      = 3.
Proof.
  destruct (df_to_dataset_yields_every_row_once (@rev Elem) 0%nat false 2
              toy_mem toy_frame [CInt 1; CInt 1; CInt 1; CInt 1; CInt 0])
    as (ds & features & order & Hret & -> & _ & Hid & _ & Hlen & _).
  - intros l. symmetry. apply Permutation_rev.
  - reflexivity.
  - reflexivity.
  - reflexivity.
  - reflexivity.
  - unfold len. simpl. lia.
  - lia.
  - exists ds, order. split; [exact Hret|]. split; [by apply Hid|].
    exact Hlen.
Defined.

(** ** The layer functions, further (cells 11 and 13) *)

Lemma lookup_col_None_notin name features :
  lookup_col name features = None → ¬ In name (List.map fst features).
Proof.
  induction features as [|[c v] features IH]; simpl; [by intros _ []|].
  destruct (String.eqb name c) eqn:E; [done|].
  intros H [Heq|Hin]; [|by apply IH].
  subst. by rewrite String.eqb_refl in E.
Qed.

Lemma lookup_feature_missing name (ks : list string)
    (F : string → Tensor Cell) :
  ¬ In name ks →
  lookup_feature name (List.map (λ k, (k, F k)) ks) = Raise (KeyError name).
Proof.
  induction ks as [|k ks IH]; simpl; [done|].
  intros Hnin. destruct (String.eqb name k) eqn:E.
  - apply String.eqb_eq in E. subst. tauto.
  - apply IH. tauto.
Qed.

Lemma chunks_cons {A} n (a : A) (l : list A) :
  ∃ rest, chunks n (a :: l) = firstn n (a :: l) :: rest.
Proof. unfold chunks. simpl. by eexists. Qed.

Lemma lookup_feature_stacked_missing name ks group :
  ¬ In name ks →
  (p ← pair_of (stacked ks group); lookup_feature name (fst p))
  = Raise (KeyError name).
Proof. intros H. simpl. by apply lookup_feature_missing. Qed.

Lemma iterate_map_feature sigma name ds :
  iterate sigma (map_feature name ds)
  = (es ← iterate sigma ds;
     list_mapM (λ e : Elem,
                  p ← pair_of e;
                  t ← lookup_feature name (fst p);
                  Ok (ESingle t)) es).
Proof. reflexivity. Qed.

(** Reading a feature that is not a column of the frame fails on the
    first batch. *)
Lemma pipeline_pass_unknown sigma name features labels (sh : bool) k bs pf :
  (∀ l, Permutation (sigma l) l) →
  same_length (length labels) features = true →
  lookup_col name features = None →
  labels ≠ [] →
  0 < bs →
  values sigma
    (map_feature name
       (wrapped sh k bs pf (from_tensor_slices features labels)))
  = Raise (KeyError name).
Proof.
  intros Hsigma Hwf Hnone Hne Hbs.
  unfold values. rewrite iterate_map_feature.
  pose proof (pipeline_batches sigma sh k bs pf features labels
                Hsigma Hwf Hbs) as Hit.
  cbv zeta in Hit. rewrite Hit, res_bind_ok.
  set (rows := List.map (row features labels) (seq 0 (length labels))).
  assert (∃ e es, (if sh then sigma rows else rows) = e :: es)
    as (e & es & ->).
  { assert (rows ≠ []) as Hrows.
    { subst rows. destruct labels; [done|]. done. }
    destruct sh.
    - destruct (sigma rows) as [|e es] eqn:E; [|by eauto].
      pose proof (Hsigma rows) as Hp. rewrite E in Hp.
      apply Permutation_nil in Hp. done.
    - destruct rows; [done|by eauto]. }
  destruct (chunks_cons bs e es) as [rest ->].
  cbn [List.map list_mapM].
  pose proof (lookup_feature_stacked_missing name (List.map fst features)
                (firstn bs (e :: es))
                (lookup_col_None_notin _ _ Hnone)) as Hmiss.
  destruct (pair_of (stacked (List.map fst features) (firstn bs (e :: es))))
    as [p|]; [|unfold mbind, Res_bind in *; congruence].
  rewrite res_bind_ok in Hmiss. rewrite res_bind_ok, Hmiss. done.
Qed.

(** X4.  Asked for a feature that is not a column of the frame behind the
    dataset, [get_normalization_layer] and [get_category_encoding_layer]
    both raise [KeyError] with the name of the feature: the lambda
    [x[name]] fails on the first batch, and no layer is returned. *)
Theorem layers_of_an_unknown_feature_raise
    (sigma : list Elem → list Elem) (name : string)
    (features : list (string * list Cell)) (labels : list Cell)
    (sh : bool) (k bs pf : nat) (dtype : string) (max_tokens : option nat) :
  (∀ l, Permutation (sigma l) l) →
  same_length (length labels) features = true →
  lookup_col name features = None →
  labels ≠ [] →
  0 < bs →
  (∀ n, max_tokens = Some n → 1 < n) →
  let dataset := wrapped sh k bs pf (from_tensor_slices features labels) in
  get_normalization_layer sigma name dataset = Raise (KeyError name)
  ∧ get_category_encoding_layer sigma name dataset dtype max_tokens
    = Raise (KeyError name).
Proof.
  intros Hsigma Hwf Hnone Hne Hbs Hmax dataset.
  pose proof (pipeline_pass_unknown sigma name features labels sh k bs pf
                Hsigma Hwf Hnone Hne Hbs) as Hv.
  fold dataset in Hv. split.
  - unfold get_normalization_layer, Normalization_adapt. by rewrite Hv.
  - unfold get_category_encoding_layer.
    assert ((if String.eqb dtype "string"
             then IndexLookup_new StringLookup max_tokens
             else IndexLookup_new IntegerLookup max_tokens)
            = Ok (mkIndexLookup (kind_for dtype) max_tokens [])) as ->.
    { unfold kind_for. destruct (String.eqb dtype "string");
        by apply IndexLookup_new_ok. }
    rewrite res_bind_ok. unfold IndexLookup_adapt. by rewrite Hv.
Qed.

Lemma layers_of_an_unknown_feature_raise_witness :
  get_normalization_layer (@rev Elem) "Weight" two_pets
  = Raise (KeyError "Weight")
  ∧ get_category_encoding_layer (@rev Elem) "Weight" two_pets "string"
      (Some 5)
    = Raise (KeyError "Weight").
Proof.
  apply (layers_of_an_unknown_feature_raise (@rev Elem) "Weight"
           [("PhotoAmt", [CInt 1; CInt 3])] [CInt 1; CInt 0]
           true 2 256 256 "string" (Some 5)).
  - intros l. symmetry. apply Permutation_rev.
  - reflexivity.
  - reflexivity.
  - discriminate.
  - lia.
  - intros n [= <-]. lia.
Defined.

(** The layer adapted on a column of a pipeline of [df_to_dataset]. *)
Lemma get_normalization_layer_of_column
    (sigma : list Elem → list Elem) (name : string)
    (features : list (string * list Cell)) (labels col : list Cell)
    (sh : bool) (k bs pf : nat) :
  (∀ l, Permutation (sigma l) l) →
  same_length (length labels) features = true →
  lookup_col name features = Some col →
  Forall (λ c, is_int c = true) col →
  0 < bs →
  get_normalization_layer sigma name
    (wrapped sh k bs pf (from_tensor_slices features labels))
  = Ok (adapt_statistics (List.map float_of col)).
Proof.
  intros Hsigma Hwf Hcol Hint Hbs.
  destruct (pipeline_pass sigma name features labels col sh k bs pf
              Hsigma Hwf Hcol Hbs) as (data & Hdata & Hperm & _).
  rewrite <- (adapt_statistics_perm (List.map float_of data))
    by by apply Permutation_map.
  eapply get_normalization_layer_returns; [exact Hdata|].
  apply to_float_ints.
  eapply Permutation_Forall; [|exact Hint]. by symmetry.
Qed.

(** X5.  On a dataset built by [df_to_dataset] the layer returned by
    [get_normalization_layer] for an integer column is the one adapted on the
    whole column: it depends neither on the order in which the shuffled rows
    arrive, nor on the batch size, nor on the buffers.  A constant column is
    no exception. *)
Theorem normalization_layer_ignores_order_and_batching
    (sigma : list Elem → list Elem) (name : string)
    (features : list (string * list Cell)) (labels col : list Cell)
    (sh : bool) (k bs pf : nat) :
  (∀ l, Permutation (sigma l) l) →
  same_length (length labels) features = true →
  lookup_col name features = Some col →
  Forall (λ c, is_int c = true) col →
  0 < bs →
  get_normalization_layer sigma name
    (wrapped sh k bs pf (from_tensor_slices features labels))
  = Ok (adapt_statistics (List.map float_of col)).
Proof. apply get_normalization_layer_of_column. Qed.

Lemma normalization_layer_ignores_order_and_batching_witness :
  get_normalization_layer (@rev Elem) "PhotoAmt" two_pets
  = get_normalization_layer (λ l, l) "PhotoAmt"
      (wrapped false 0 1 7
         (from_tensor_slices [("PhotoAmt", [CInt 1; CInt 3])]
                             [CInt 1; CInt 0])).
Proof.
  transitivity (Ok (adapt_statistics
                      (List.map float_of [CInt 1; CInt 3]))).
  - apply (normalization_layer_ignores_order_and_batching (@rev Elem)
             "PhotoAmt" [("PhotoAmt", [CInt 1; CInt 3])] [CInt 1; CInt 0]
             [CInt 1; CInt 3] true 2 256 256).
    + intros l. symmetry. apply Permutation_rev.
    + reflexivity.
    + reflexivity.
    + repeat constructor.
    + lia.
  - symmetry.
    apply (normalization_layer_ignores_order_and_batching (λ l, l)
             "PhotoAmt" [("PhotoAmt", [CInt 1; CInt 3])] [CInt 1; CInt 0]
             [CInt 1; CInt 3] false 0 1 7).
    + intros l. reflexivity.
    + reflexivity.
    + reflexivity.
    + repeat constructor.
    + lia.
Defined.

(** Whatever the function returns, its encoder has as many tokens as its
    lookup has indices. *)
Lemma get_category_encoding_layer_num_tokens sigma name dataset dtype
    max_tokens layer :
  get_category_encoding_layer sigma name dataset dtype max_tokens = Ok layer →
  num_tokens (encoder_layer layer) = vocabulary_size (index_layer layer).
Proof.
  unfold get_category_encoding_layer.
  destruct (if String.eqb dtype "string" then _ else _) as [index|]; [|done].
  rewrite res_bind_ok.
  destruct (IndexLookup_adapt sigma index (map_feature name dataset))
    as [index'|]; [|done].
  rewrite res_bind_ok. by intros [= <-].
Qed.

Lemma position_None c tokens : c ∉ tokens → position c tokens = None.
Proof.
  induction tokens as [|c' tokens IH]; [done|]. simpl.
  intros Hnin. apply not_elem_of_cons in Hnin as [Hne Hnin].
  destruct (cell_eqb c c') eqn:E.
  - apply cell_eqb_eq in E. done.
  - by rewrite IH.
Qed.

Lemma IndexLookup_call_vec l vs :
  Forall (λ v, accepts (kind l) v = true) vs →
  IndexLookup_call l (vec vs) = Ok (vec (List.map (lookup_index l) vs)).
Proof.
  intros H. unfold IndexLookup_call, vec. cbn [tmapM].
  rewrite list_mapM_map.
  rewrite (list_mapM_ok_map _ (λ v, T0 (lookup_index l v))).
  - rewrite res_bind_ok. by rewrite List.map_map.
  - eapply Forall_impl; [exact H|]. intros v Hv. cbn [tmapM].
    unfold check_token. by rewrite Hv.
Qed.

Lemma scalars_vec {A} (l : list A) : scalars (List.map T0 l) = Some l.
Proof. induction l as [|a l IH]; simpl; [done|]. by rewrite IH. Qed.

Lemma nth_multi_hot n idxs j :
  j < n →
  nth j (multi_hot n idxs) 0%R
  = if existsb (Nat.eqb j) idxs then 1%R else 0%R.
Proof.
  intros Hj. unfold multi_hot. rewrite nth_lookup.
  change (List.map ?f ?l) with (f <$> l).
  by rewrite list_lookup_fmap, lookup_seq_lt.
Qed.

(** A batch through the lookup and the encoder of a layer whose encoder has
    as many tokens as its lookup has indices. *)
Lemma CategoryLayer_call_vec layer vs :
  Forall (λ v, accepts (kind (index_layer layer)) v = true) vs →
  num_tokens (encoder_layer layer) = vocabulary_size (index_layer layer) →
  CategoryLayer_call layer (vec vs)
  = Ok (vec (multi_hot (vocabulary_size (index_layer layer))
               (List.map (lookup_index (index_layer layer)) vs))).
Proof.
  intros Hacc Hnum. unfold CategoryLayer_call.
  rewrite IndexLookup_call_vec by done.
  rewrite res_bind_ok. unfold CategoryEncoding_call, vec.
  rewrite scalars_vec. unfold encode_sample. rewrite Hnum.
  assert (forallb (λ i, Nat.ltb i (vocabulary_size (index_layer layer)))
            (List.map (lookup_index (index_layer layer)) vs) = true)
    as ->; [|done].
  apply forallb_forall. intros i Hi. apply Nat.ltb_lt.
  apply in_map_iff in Hi as (v & <- & _). apply lookup_index_lt.
Qed.

(** X6.  Whatever dataset it was adapted on, the function returned by
    [get_category_encoding_layer] accepts every batch of values of the dtype
    it was built for, seen during [adapt] or not: every index the lookup
    gives is below the encoder's [num_tokens], a value outside the vocabulary
    gets index 0, and the result has [vocabulary_size()] entries, with a 1
    exactly at the indices that occur in the batch. *)
Theorem category_layer_never_indexes_out_of_range
    (sigma : list Elem → list Elem) (name : string) (dataset : Dataset)
    (dtype : string) (max_tokens : option nat) (layer : CategoryLayer)
    (vs : list Cell) :
  get_category_encoding_layer sigma name dataset dtype max_tokens = Ok layer →
  Forall (λ v, accepts (kind_for dtype) v = true) vs →
  let n := vocabulary_size (index_layer layer) in
  let idxs := List.map (lookup_index (index_layer layer)) vs in
  CategoryLayer_call layer (vec vs) = Ok (vec (multi_hot n idxs))
  ∧ length (multi_hot n idxs) = n
  ∧ Forall (λ i, i < n) idxs
  ∧ (∀ j, j < n →
          nth j (multi_hot n idxs) 0%R
          = if existsb (Nat.eqb j) idxs then 1%R else 0%R)
  ∧ (∀ v, v ∉ vocabulary (index_layer layer) →
          lookup_index (index_layer layer) v = 0).
Proof.
  intros Hret Hacc n idxs.
  pose proof (get_category_encoding_layer_kind _ _ _ _ _ _ Hret) as Hkind.
  pose proof (get_category_encoding_layer_num_tokens _ _ _ _ _ _ Hret)
    as Hnum.
  split; [|split; [apply length_multi_hot|split; [|split]]].
  - apply CategoryLayer_call_vec; [by rewrite Hkind|exact Hnum].
  - apply Forall_forall. intros i Hi. apply list_elem_of_In in Hi.
    apply in_map_iff in Hi as (v & <- & _). apply lookup_index_lt.
  - intros j Hj. by apply nth_multi_hot.
  - intros v Hv. unfold lookup_index. by rewrite position_None.
Qed.

Lemma category_layer_never_indexes_out_of_range_witness :
  ∃ layer,
    get_category_encoding_layer (@rev Elem) "Type" toy_train_ds "string" None
    = Ok layer
    ∧ CategoryLayer_call layer (vec [CStr "Dog"; CStr "Rabbit"])
      = Ok (vec (multi_hot (vocabulary_size (index_layer layer))
                   (List.map (lookup_index (index_layer layer))
                             [CStr "Dog"; CStr "Rabbit"]))).
Proof.
  destruct (get_category_encoding_layer (@rev Elem) "Type" toy_train_ds
              "string" None) as [layer|e] eqn:E.
  2:{ vm_compute in E. discriminate E. }
  exists layer. split; [reflexivity|].
  apply (category_layer_never_indexes_out_of_range (@rev Elem) "Type"
           toy_train_ds "string" None layer [CStr "Dog"; CStr "Rabbit"] E).
  repeat constructor.
Defined.

(** *** The vocabulary does not depend on the order of the pass *)

Lemma string_lt_trans x y z :
  String.compare x y = Lt → String.compare y z = Lt →
  String.compare x z = Lt.
Proof.
  intros H1 H2.
  apply OrderedTypeEx.String_as_OT.cmp_lt.
  eapply OrderedTypeEx.String_as_OT.lt_trans.
  - apply OrderedTypeEx.String_as_OT.cmp_lt. exact H1.
  - apply OrderedTypeEx.String_as_OT.cmp_lt. exact H2.
Qed.

Lemma cell_ltb_trans a b c :
  cell_ltb a b = true → cell_ltb b c = true → cell_ltb a c = true.
Proof.
  destruct a as [x|x], b as [y|y], c as [z|z]; simpl; try done.
  - rewrite !Z.ltb_lt. lia.
  - destruct (String.compare x y) eqn:E1; try done.
    destruct (String.compare y z) eqn:E2; try done.
    by rewrite (string_lt_trans _ _ _ E1 E2).
Qed.

Lemma cell_ltb_irrefl a : cell_ltb a a = false.
Proof.
  destruct a as [x|x]; simpl; [apply Z.ltb_irrefl|].
  destruct (String.compare x x) eqn:E; try done.
  pose proof (String.compare_antisym x x) as H. rewrite E in H. done.
Qed.

Lemma cell_ltb_total a b :
  cell_ltb a b = false → cell_ltb b a = false → a = b.
Proof.
  destruct a as [x|x], b as [y|y]; simpl; try done.
  - rewrite !Z.ltb_ge. intros. f_equal. lia.
  - intros H1 H2. f_equal.
    destruct (String.compare x y) eqn:E; try done.
    + by apply String.compare_eq_iff.
    + rewrite String.compare_antisym, E in H2. done.
Qed.

Lemma before_trans a b c :
  before a b = true → before b c = true → before a c = true.
Proof.
  unfold before. intros H1 H2.
  apply orb_true_iff in H1. apply orb_true_iff in H2. apply orb_true_iff.
  rewrite !andb_true_iff, !Nat.ltb_lt, !Nat.eqb_eq in *.
  destruct H1 as [H1|[H1 H1']], H2 as [H2|[H2 H2']].
  - left. lia.
  - left. lia.
  - left. lia.
  - right. split; [lia|]. eapply cell_ltb_trans; eassumption.
Qed.

Lemma before_asym a b : before a b = true → before b a = false.
Proof.
  intros H. destruct (before b a) eqn:E; [|done].
  pose proof (before_trans _ _ _ H E) as Hrefl.
  unfold before in Hrefl. rewrite Nat.ltb_irrefl, Nat.eqb_refl in Hrefl.
  simpl in Hrefl. by rewrite cell_ltb_irrefl in Hrefl.
Qed.

Lemma before_total a b : before a b = false → before b a = false → a = b.
Proof.
  unfold before. intros H1 H2.
  apply orb_false_iff in H1 as [H1 H1']. apply orb_false_iff in H2 as [H2 H2'].
  apply Nat.ltb_ge in H1, H2.
  assert (snd a = snd b) as Hs by lia.
  rewrite Hs, Nat.eqb_refl in H1', H2'. simpl in *.
  destruct a, b; simpl in *. f_equal; [|done].
  by apply cell_ltb_total.
Qed.

Lemma not_after_antisym : AntiSymm (=) not_after.
Proof. intros a b H1 H2. by apply before_total. Qed.

Lemma insert_desc_perm x l : Permutation (insert_desc x l) (x :: l).
Proof.
  induction l as [|y l IH]; simpl; [done|].
  destruct (before x y); [done|].
  rewrite IH. apply perm_swap.
Qed.

Lemma sort_desc_perm l : Permutation (sort_desc l) l.
Proof.
  induction l as [|x l IH]; simpl; [done|].
  rewrite insert_desc_perm. by constructor.
Qed.

Lemma insert_desc_sorted x l :
  Sorted.StronglySorted not_after l →
  Sorted.StronglySorted not_after (insert_desc x l).
Proof.
  induction 1 as [|y l Hl IH Hy]; simpl.
  - repeat constructor.
  - destruct (before x y) eqn:E.
    + constructor; [by constructor|].
      constructor; [by apply before_asym|].
      eapply Forall_impl; [exact Hy|]. intros z Hz. unfold not_after in *.
      destruct (before z x) eqn:Ez; [|done].
      by rewrite (before_trans _ _ _ Ez E) in Hz.
    + constructor; [done|].
      eapply Permutation_Forall; [symmetry; apply insert_desc_perm|].
      by constructor.
Qed.

Lemma sort_desc_sorted l : Sorted.StronglySorted not_after (sort_desc l).
Proof.
  induction l as [|x l IH]; simpl; [constructor|].
  by apply insert_desc_sorted.
Qed.

Lemma sort_desc_order_independent l l' :
  Permutation l l' → sort_desc l = sort_desc l'.
Proof.
  intros H.
  apply (@sorting.StronglySorted_unique _ not_after not_after_antisym).
  - apply sort_desc_sorted.
  - apply sort_desc_sorted.
  - by rewrite !sort_desc_perm.
Qed.

Lemma count_token_perm c l l' :
  Permutation l l' → count_token c l = count_token c l'.
Proof.
  intros H. unfold count_token.
  apply Permutation_length. induction H; simpl.
  - done.
  - destruct (cell_eqb c x); [by constructor|done].
  - destruct (cell_eqb c x), (cell_eqb c y); try done. apply perm_swap.
  - etransitivity; eassumption.
Qed.

Lemma elem_of_distinct c data : c ∈ distinct data ↔ c ∈ data.
Proof.
  induction data as [|c' data IH]; simpl; [done|].
  rewrite !elem_of_cons. split.
  - intros [->|H]; [by left|]. right.
    apply list_elem_of_In, filter_In in H as [H _].
    apply IH. by apply list_elem_of_In.
  - intros [->|H]; [by left|].
    destruct (cell_eqb c' c) eqn:E.
    { apply cell_eqb_eq in E. by left. }
    right. apply list_elem_of_In, filter_In. split.
    + apply list_elem_of_In, IH, H.
    + by rewrite E.
Qed.

Lemma NoDup_filter_list {A} (f : A → bool) (l : list A) :
  NoDup l → NoDup (List.filter f l).
Proof.
  induction 1 as [|x l Hx _ IH]; simpl; [constructor|].
  destruct (f x); [|done]. constructor; [|done].
  intros Hin. apply Hx.
  apply list_elem_of_In, filter_In in Hin as [Hin _].
  by apply list_elem_of_In.
Qed.

Lemma NoDup_distinct data : NoDup (distinct data).
Proof.
  induction data as [|c data IH]; simpl; [constructor|].
  constructor.
  - intros Hin. apply list_elem_of_In, filter_In in Hin as [_ Hin].
    apply negb_true_iff in Hin.
    assert (cell_eqb c c = true) by by apply cell_eqb_eq. congruence.
  - by apply NoDup_filter_list.
Qed.

Lemma distinct_perm data data' :
  Permutation data data' → Permutation (distinct data) (distinct data').
Proof.
  intros H. apply NoDup_Permutation; try apply NoDup_distinct.
  intros c. rewrite !elem_of_distinct. by rewrite H.
Qed.

Lemma learn_vocabulary_order_independent max_tokens data data' :
  Permutation data data' →
  learn_vocabulary max_tokens data = learn_vocabulary max_tokens data'.
Proof.
  intros H. unfold learn_vocabulary. do 2 f_equal.
  apply sort_desc_order_independent.
  rewrite (map_ext (λ c, (c, count_token c data))
                   (λ c, (c, count_token c data'))).
  - apply Permutation_map. by apply distinct_perm.
  - intros c. f_equal. by apply count_token_perm.
Qed.

(** The layer adapted on a column of a pipeline of [df_to_dataset]. *)
Lemma get_category_encoding_layer_of_column
    (sigma : list Elem → list Elem) (name : string)
    (features : list (string * list Cell)) (labels col : list Cell)
    (sh : bool) (k bs pf : nat) (dtype : string) (max_tokens : option nat) :
  (∀ l, Permutation (sigma l) l) →
  same_length (length labels) features = true →
  lookup_col name features = Some col →
  Forall (λ c, accepts (kind_for dtype) c = true) col →
  0 < bs →
  (∀ n, max_tokens = Some n → 1 < n) →
  get_category_encoding_layer sigma name
    (wrapped sh k bs pf (from_tensor_slices features labels))
    dtype max_tokens
  = Ok (mkCategoryLayer
          (mkIndexLookup (kind_for dtype) max_tokens
             (learn_vocabulary max_tokens col))
          (mkCategoryEncoding
             (S (length (learn_vocabulary max_tokens col))))).
Proof.
  intros Hsigma Hwf Hcol Hacc Hbs Hmax.
  destruct (pipeline_pass sigma name features labels col sh k bs pf
              Hsigma Hwf Hcol Hbs) as (data & Hdata & Hperm & _).
  rewrite <- (learn_vocabulary_order_independent max_tokens data col Hperm).
  apply get_category_encoding_layer_returns; [exact Hdata| |exact Hmax].
  eapply Permutation_Forall; [|exact Hacc]. by symmetry.
Qed.

(** X7.  On a dataset built by [df_to_dataset] the layer returned by
    [get_category_encoding_layer] for a column of the dtype passed is the one
    adapted on the whole column: the vocabulary, and with it the index of
    every value, depends neither on the order in which the shuffled rows
    arrive, nor on the batch size, nor on the buffers. *)
Theorem category_layer_ignores_order_and_batching
    (sigma : list Elem → list Elem) (name : string)
    (features : list (string * list Cell)) (labels col : list Cell)
    (sh : bool) (k bs pf : nat) (dtype : string) (max_tokens : option nat) :
  (∀ l, Permutation (sigma l) l) →
  same_length (length labels) features = true →
  lookup_col name features = Some col →
  Forall (λ c, accepts (kind_for dtype) c = true) col →
  0 < bs →
  (∀ n, max_tokens = Some n → 1 < n) →
  get_category_encoding_layer sigma name
    (wrapped sh k bs pf (from_tensor_slices features labels))
    dtype max_tokens
  = Ok (mkCategoryLayer
          (mkIndexLookup (kind_for dtype) max_tokens
             (learn_vocabulary max_tokens col))
          (mkCategoryEncoding
             (S (length (learn_vocabulary max_tokens col))))).
Proof. apply get_category_encoding_layer_of_column. Qed.

Lemma category_layer_ignores_order_and_batching_witness :
  get_category_encoding_layer (@rev Elem) "Type" toy_train_ds "string"
    (Some 5)
  = get_category_encoding_layer (λ es, es) "Type"
      (wrapped false 0 1 1
         (source_of toy_frame [CInt 1; CInt 1; CInt 1; CInt 1; CInt 0]))
      "string" (Some 5).
Proof.
  transitivity
    (Ok (mkCategoryLayer
           (mkIndexLookup (kind_for "string") (Some 5)
              (learn_vocabulary (Some 5)
                 (strs ["Cat"; "Cat"; "Dog"; "Dog"; "Dog"])))
           (mkCategoryEncoding
              (S (length (learn_vocabulary (Some 5)
                            (strs ["Cat"; "Cat"; "Dog"; "Dog"; "Dog"]))))))).
  - apply (category_layer_ignores_order_and_batching (@rev Elem) "Type"
             (cols (popped toy_frame))
             [CInt 1; CInt 1; CInt 1; CInt 1; CInt 0]
             (strs ["Cat"; "Cat"; "Dog"; "Dog"; "Dog"]) true 5 2 2
             "string" (Some 5)).
    + intros l. symmetry. apply Permutation_rev.
    + reflexivity.
    + reflexivity.
    + repeat constructor.
    + lia.
    + intros n [= <-]. lia.
  - symmetry.
    apply (category_layer_ignores_order_and_batching (λ es, es) "Type"
             (cols (popped toy_frame))
             [CInt 1; CInt 1; CInt 1; CInt 1; CInt 0]
             (strs ["Cat"; "Cat"; "Dog"; "Dog"; "Dog"]) false 0 1 1
             "string" (Some 5)).
    + intros l. reflexivity.
    + reflexivity.
    + reflexivity.
    + repeat constructor.
    + lia.
    + intros n [= <-]. lia.
Defined.

Lemma sorted_tokens_counted data p :
  p ∈ sort_desc (List.map (λ c, (c, count_token c data)) (distinct data)) ↔
  fst p ∈ data ∧ snd p = count_token (fst p) data.
Proof.
  rewrite sort_desc_perm.
  change (List.map ?f ?l) with (f <$> l). rewrite list_elem_of_fmap.
  split.
  - intros (c & -> & Hc). split; [by apply elem_of_distinct|done].
  - intros [Hin Hcount]. exists (fst p). split.
    + destruct p. simpl in *. by rewrite Hcount.
    + by apply elem_of_distinct.
Qed.

Lemma NoDup_sorted_tokens data :
  NoDup (List.map fst
           (sort_desc (List.map (λ c, (c, count_token c data))
                                (distinct data)))).
Proof.
  rewrite (Permutation_map fst (sort_desc_perm _)).
  rewrite List.map_map. simpl. rewrite map_id. apply NoDup_distinct.
Qed.

(** The vocabulary kept under a cap holds the most frequent values. *)
Lemma learn_vocabulary_most_frequent n data :
  let vocab := learn_vocabulary (Some n) data in
  NoDup vocab
  ∧ (∀ a, a ∈ vocab → a ∈ data)
  ∧ length vocab = min (n - 1) (length (distinct data))
  ∧ ∀ a b, a ∈ vocab → b ∈ data → b ∉ vocab →
           (count_token b data ≤ count_token a data)%nat.
Proof.
  unfold learn_vocabulary, truncate.
  set (sorted := sort_desc (List.map (λ c, (c, count_token c data))
                                     (distinct data))).
  cbv zeta. rewrite firstn_map.
  pose proof (sort_desc_sorted
                (List.map (λ c, (c, count_token c data)) (distinct data)))
    as Hsorted.
  fold sorted in Hsorted.
  rewrite <- (firstn_skipn (n - 1) sorted) in Hsorted.
  split; [|split; [|split]].
  - rewrite <- firstn_map.
    pose proof (NoDup_sorted_tokens data) as Hnd. fold sorted in Hnd.
    rewrite <- (firstn_skipn (n - 1) (List.map fst sorted)) in Hnd.
    by apply NoDup_app in Hnd as [Hnd _].
  - intros a Ha. change (List.map ?f ?l) with (f <$> l) in Ha.
    apply list_elem_of_fmap in Ha as (p & -> & Hp).
    assert (p ∈ sorted) as Hin.
    { rewrite <- (firstn_skipn (n - 1) sorted). apply elem_of_app. by left. }
    by apply sorted_tokens_counted in Hin as [Hin _].
  - rewrite length_map, length_firstn. f_equal.
    subst sorted. rewrite (Permutation_length (sort_desc_perm _)).
    apply length_map.
  - intros a b Ha Hb Hnb.
    change (List.map ?f ?l) with (f <$> l) in Ha, Hnb.
    apply list_elem_of_fmap in Ha as (pa & -> & Hpa).
    assert (pa ∈ sorted) as Hin.
    { rewrite <- (firstn_skipn (n - 1) sorted). apply elem_of_app. by left. }
    apply sorted_tokens_counted in Hin as [_ Hca].
    assert ((b, count_token b data) ∈ sorted) as Hpb.
    { by apply sorted_tokens_counted. }
    rewrite <- (firstn_skipn (n - 1) sorted) in Hpb.
    apply elem_of_app in Hpb as [Hpb|Hpb].
    { exfalso. apply Hnb. apply list_elem_of_fmap.
      by exists (b, count_token b data). }
    pose proof (sorting.StronglySorted_app_1_elem_of _ _ _ _ _
                  Hsorted Hpa Hpb) as Hord.
    unfold not_after, before in Hord. cbn [fst snd] in Hord.
    apply orb_false_iff in Hord as [Hlt _].
    apply Nat.ltb_ge in Hlt. lia.
Qed.

(** X8.  With [max_tokens] set, the lookup that
    [get_category_encoding_layer] adapts on a column that does not hold the
    token reserved for unknown values (['[UNK]'] for strings, [-1] for
    integers) keeps the most frequent values of that column, each once, and
    as many as fit beside the out-of-vocabulary index: [max_tokens - 1] of
    them, or all when the column has fewer distinct values.  No value left
    out occurs more often than a value kept, and every value left out gets
    index 0. *)
Theorem category_layer_keeps_the_most_frequent_values
    (sigma : list Elem → list Elem) (name : string)
    (features : list (string * list Cell)) (labels col : list Cell)
    (sh : bool) (k bs pf : nat) (dtype : string) (n : nat) :
  (∀ l, Permutation (sigma l) l) →
  same_length (length labels) features = true →
  lookup_col name features = Some col →
  Forall (λ c, accepts (kind_for dtype) c = true) col →
  oov_token (kind_for dtype) ∉ col →
  0 < bs →
  1 < n →
  ∃ layer,
    get_category_encoding_layer sigma name
      (wrapped sh k bs pf (from_tensor_slices features labels))
      dtype (Some n)
    = Ok layer
    ∧ let vocab := vocabulary (index_layer layer) in
      NoDup vocab
      ∧ (∀ a, a ∈ vocab → a ∈ col)
      ∧ length vocab = min (n - 1) (length (distinct col))
      ∧ ∀ a b, a ∈ vocab → b ∈ col → b ∉ vocab →
               (count_token b col ≤ count_token a col)%nat
               ∧ lookup_index (index_layer layer) b = 0.
Proof.
  intros Hsigma Hwf Hcol Hacc _ Hbs Hn.
  destruct (pipeline_pass sigma name features labels col sh k bs pf
              Hsigma Hwf Hcol Hbs) as (data & Hdata & Hperm & _).
  eexists. split.
  - apply get_category_encoding_layer_returns; [exact Hdata| |].
    + eapply Permutation_Forall; [|exact Hacc]. by symmetry.
    + intros n' [= <-]. exact Hn.
  - cbn [index_layer vocabulary].
    rewrite (learn_vocabulary_order_independent (Some n) data col Hperm).
    destruct (learn_vocabulary_most_frequent n col)
      as (Hnd & Hsub & Hlen & Hfreq).
    cbv zeta. split; [exact Hnd|]. split; [exact Hsub|].
    split; [exact Hlen|].
    intros a b Ha Hb Hnb. split; [by apply Hfreq|].
    unfold lookup_index. cbn [vocabulary]. by rewrite position_None.
Qed.

Lemma category_layer_keeps_the_most_frequent_values_witness :
  ∃ layer,
    get_category_encoding_layer (@rev Elem) "Age" toy_train_ds "int64"
      (Some 2)
    = Ok layer
    ∧ length (vocabulary (index_layer layer)) = 1.
Proof.
  destruct (category_layer_keeps_the_most_frequent_values (@rev Elem) "Age"
              (cols (popped toy_frame))
              [CInt 1; CInt 1; CInt 1; CInt 1; CInt 0]
              (ints [3; 1; 1; 4; 1]%Z) true 5 2 2 "int64" 2)
    as (layer & Hret & _ & _ & Hlen & _).
  - intros l. symmetry. apply Permutation_rev.
  - reflexivity.
  - reflexivity.
  - repeat constructor.
  - simpl. intros H.
    repeat (apply elem_of_cons in H as [H|H]; [discriminate H|]).
    by apply elem_of_nil in H.
  - lia.
  - lia.
  - exists layer. split; [exact Hret|]. exact Hlen.
Defined.

(** ** The cells of the script, further *)

(** The run of cell 6, in full. *)
Lemma cell_6_runs lib (g : Globals) m l df speed :
  g !! "dataframe" = Some (VRef l) →
  heap m !! l = Some df →
  getitem df "AdoptionSpeed" = Ok speed →
  length speed = len df →
  has_col "Description" df = true →
  let m1 := mkMem (<[l := labelled df speed]> (heap m)) (files m) in
  let l' := fresh (dom (heap m1)) in
  run lib cell_6 g m
  = (Ok (<["dataframe" := VRef l']> g),
     mkMem (<[l' := trimmed (labelled df speed)]> (heap m1)) (files m1),
     cell_6).
Proof.
  intros Hg Hl Hs Hlen Hd m1 l'. unfold cell_6.
  erewrite (run_cons_ok lib _ _ g m g m1).
  2:{ unfold exec. rewrite (bind_ok _ _ m l m) by by apply get_ref_ok.
      erewrite bind_ok by by eapply create_target_ok. done. }
  erewrite run_cons_ok; [reflexivity|].
  unfold exec. rewrite (bind_ok _ _ m1 l m1) by by apply get_ref_ok.
  erewrite bind_ok; [reflexivity|].
  unfold drop_unused.
  rewrite (bind_ok _ _ m1 (labelled df speed) m1).
  2:{ apply deref_ok. subst m1. simpl. apply lookup_insert_eq. }
  rewrite (bind_ok _ _ m1 (trimmed (labelled df speed)) m1); [done|].
  unfold lift. rewrite drop_ok; [done|].
  unfold unused_columns, has_col, labelled. simpl.
  repeat constructor.
  - rewrite lookup_col_assign_ne by done.
    unfold getitem in Hs.
    by destruct (lookup_col "AdoptionSpeed" (cols df)).
  - rewrite lookup_col_assign_ne by done. exact Hd.
Qed.

(** X9.  Cell 6 cannot be run twice.  After a first run [dataframe] is bound
    to the frame without [AdoptionSpeed], so a second run stops at its first
    statement with [KeyError: 'AdoptionSpeed'], leaving the store as the
    first run left it. *)
Theorem cell_6_raises_when_run_again
    (lib : Library) (g : Globals) (m : Mem) (l : loc) (df : DataFrame)
    (speed : list Cell) :
  g !! "dataframe" = Some (VRef l) →
  heap m !! l = Some df →
  getitem df "AdoptionSpeed" = Ok speed →
  length speed = len df →
  has_col "Description" df = true →
  ∃ g' m',
    run lib cell_6 g m = (Ok g', m', cell_6)
    ∧ run lib cell_6 g' m'
      = (Raise (KeyError "AdoptionSpeed"), m', [S_create_target "dataframe"]).
Proof.
  intros Hg Hl Hs Hlen Hd.
  pose proof (cell_6_runs lib g m l df speed Hg Hl Hs Hlen Hd) as Hrun.
  cbv zeta in Hrun.
  set (m1 := mkMem (<[l := labelled df speed]> (heap m)) (files m)) in *.
  set (l' := fresh (dom (heap m1))) in *.
  set (m2 := mkMem (<[l' := trimmed (labelled df speed)]> (heap m1))
               (files m1)) in *.
  exists (<["dataframe" := VRef l']> g), m2.
  split; [exact Hrun|].
  unfold cell_6. apply run_cons_raise. unfold exec.
  rewrite (bind_ok _ _ m2 l' m2).
  2:{ apply get_ref_ok. apply lookup_insert_eq. }
  apply bind_raise. unfold create_target.
  rewrite (bind_ok _ _ m2 (trimmed (labelled df speed)) m2).
  2:{ apply deref_ok. subst m2. simpl. apply lookup_insert_eq. }
  apply bind_raise. unfold lift, getitem, trimmed. cbn [cols].
  rewrite lookup_col_remove_in; [done|]. by left.
Qed.

Lemma cell_6_raises_when_run_again_witness :
  ∃ g' m',
    run toy_lib cell_6 toy_globals toy_csv_mem = (Ok g', m', cell_6)
    ∧ run toy_lib cell_6 g' m'
      = (Raise (KeyError "AdoptionSpeed"), m', [S_create_target "dataframe"]).
Proof.
  apply (cell_6_raises_when_run_again toy_lib toy_globals toy_csv_mem 0%nat
           toy_csv
           [CInt 2; CInt 0; CInt 3; CInt 2; CInt 2; CInt 2; CInt 1;
            CInt 4; CInt 1; CInt 4]); reflexivity.
Defined.

(** X10.  Cell 6 writes the label into the object read from the CSV and
    drops the two columns in another: the column assignment mutates the
    frame in place, so the old object gains [target] and keeps
    [AdoptionSpeed], [Description] and every other column; [drop] returns a
    new object, to which [dataframe] is rebound, with the same rows and the
    other columns unchanged.  No other variable, no other object and no file
    is touched. *)
Theorem cell_6_labels_in_place_and_drops_into_a_new_frame
    (lib : Library) (g : Globals) (m : Mem) (l : loc) (df : DataFrame)
    (speed : list Cell) :
  g !! "dataframe" = Some (VRef l) →
  heap m !! l = Some df →
  getitem df "AdoptionSpeed" = Ok speed →
  length speed = len df →
  has_col "Description" df = true →
  ∃ g' m' l' old new,
    run lib cell_6 g m = (Ok g', m', cell_6)
    ∧ g' !! "dataframe" = Some (VRef l')
    ∧ l' ≠ l
    ∧ heap m' !! l = Some old
    ∧ heap m' !! l' = Some new
    ∧ getitem old "target" = Ok (List.map label_of speed)
    ∧ getitem old "AdoptionSpeed" = Ok speed
    ∧ has_col "Description" old = true
    ∧ (∀ c, c ≠ "target" →
            lookup_col c (cols old) = lookup_col c (cols df))
    ∧ (∀ c, c ∉ unused_columns →
            lookup_col c (cols new) = lookup_col c (cols old))
    ∧ index old = index df
    ∧ index new = index df
    ∧ (∀ x, x ≠ "dataframe" → g' !! x = g !! x)
    ∧ (∀ l0, l0 ≠ l → l0 ≠ l' → heap m' !! l0 = heap m !! l0)
    ∧ files m' = files m.
Proof.
  intros Hg Hl Hs Hlen Hd.
  pose proof (cell_6_runs lib g m l df speed Hg Hl Hs Hlen Hd) as Hrun.
  cbv zeta in Hrun.
  set (m1 := mkMem (<[l := labelled df speed]> (heap m)) (files m)) in *.
  set (l' := fresh (dom (heap m1))) in *.
  assert (l' ≠ l) as Hne.
  { apply (fresh_loc_ne m1 l (labelled df speed)).
    subst m1. simpl. apply lookup_insert_eq. }
  eexists _, _, l', (labelled df speed), (trimmed (labelled df speed)).
  split; [exact Hrun|].
  split; [apply lookup_insert_eq|]. split; [exact Hne|].
  split; [simpl; rewrite lookup_insert_ne by done; apply lookup_insert_eq|].
  split; [simpl; apply lookup_insert_eq|].
  split; [unfold getitem, labelled; simpl; by rewrite lookup_col_assign_eq|].
  split.
  { unfold getitem, labelled in *. simpl.
    by rewrite lookup_col_assign_ne by done. }
  split.
  { unfold has_col, labelled in *. simpl.
    by rewrite lookup_col_assign_ne by done. }
  split.
  { intros c Hc. unfold labelled. simpl. by apply lookup_col_assign_ne. }
  split.
  { intros c Hc. unfold trimmed. simpl. apply lookup_col_remove_notin.
    intros Hin. apply Hc. by apply list_elem_of_In. }
  split; [done|]. split; [done|]. split.
  { intros x Hx. by rewrite lookup_insert_ne. }
  split; [|done].
  intros l0 H0 H0'. simpl. by rewrite !lookup_insert_ne.
Qed.

Lemma cell_6_labels_in_place_and_drops_into_a_new_frame_witness :
  ∃ g' m' l' old new,
    run toy_lib cell_6 toy_globals toy_csv_mem = (Ok g', m', cell_6)
    ∧ g' !! "dataframe" = Some (VRef l')
    ∧ l' ≠ 0%nat
    ∧ heap m' !! 0%nat = Some old
    ∧ heap m' !! l' = Some new
    ∧ has_col "Description" old = true.
Proof.
  destruct (cell_6_labels_in_place_and_drops_into_a_new_frame toy_lib
              toy_globals toy_csv_mem 0%nat toy_csv
              [CInt 2; CInt 0; CInt 3; CInt 2; CInt 2; CInt 2; CInt 1;
               CInt 4; CInt 1; CInt 4])
    as (g' & m' & l' & old & new & Hrun & Hg & Hne & Hold & Hnew & _ & _
        & Hd & _); try reflexivity.
  exists g', m', l', old, new.
  exact (conj Hrun (conj Hg (conj Hne (conj Hold (conj Hnew Hd))))).
Defined.

Lemma get_ref_inv (g : Globals) x m l m' :
  get_ref g x m = (Ok l, m') → m' = m ∧ g !! x = Some (VRef l).
Proof.
  unfold get_ref, var. unfold_M.
  destruct (g !! x) as [[]|]; simpl; try congruence.
  intros [= -> ->]. done.
Qed.

Lemma deref_inv l m df m' :
  deref l m = (Ok df, m') → m' = m ∧ heap m !! l = Some df.
Proof.
  unfold deref. destruct (heap m !! l); [|done]. by intros [= -> ->].
Qed.

Lemma exec_train_test_split_inv lib dst1 dst2 src g m g' m' :
  exec lib (S_train_test_split dst1 dst2 src) g m = (Ok g', m') →
  ∃ l df part1 part2,
    g !! src = Some (VRef l)
    ∧ heap m !! l = Some df
    ∧ train_test_split lib df (2 / 10)%R = Ok (part1, part2)
    ∧ let l1 := fresh (dom (heap m)) in
      let m1 := mkMem (<[l1 := part1]> (heap m)) (files m) in
      let l2 := fresh (dom (heap m1)) in
      g' = <[dst2 := VRef l2]> (<[dst1 := VRef l1]> g)
      ∧ m' = mkMem (<[l2 := part2]> (heap m1)) (files m).
Proof.
  unfold exec. intros H.
  apply bind_ok_inv in H as (l & m0 & Hl & H).
  apply get_ref_inv in Hl as [-> Hl].
  apply bind_ok_inv in H as (df & m0 & Hdf & H).
  apply deref_inv in Hdf as [-> Hdf].
  apply bind_ok_inv in H as ([part1 part2] & m0 & Hsplit & H).
  unfold lift in Hsplit. injection Hsplit as Hsplit <-.
  unfold alloc in H. unfold_M. simpl in H. injection H as <- <-.
  by exists l, df, part1, part2.
Qed.

Lemma exec_print_len_inv lib src g m g' m' :
  exec lib (S_print_len src) g m = (Ok g', m') → g' = g ∧ m' = m.
Proof.
  unfold exec. intros H.
  apply bind_ok_inv in H as (l & m0 & Hl & H).
  apply get_ref_inv in Hl as [-> Hl].
  apply bind_ok_inv in H as (df & m0 & Hdf & H).
  apply deref_inv in Hdf as [-> Hdf].
  unfold_M. by injection H as <- <-.
Qed.

(** X11.  Cell 6 is not atomic.  On a frame that has [AdoptionSpeed] but no
    [Description] column, the cell stops at [drop] with the [KeyError] of
    pandas for labels that are not columns, after the column assignment:
    the frame that [dataframe] still names has already gained [target]. *)
Theorem cell_6_fails_after_labelling
    (lib : Library) (g : Globals) (m : Mem) (l : loc) (df : DataFrame)
    (speed : list Cell) :
  g !! "dataframe" = Some (VRef l) →
  heap m !! l = Some df →
  getitem df "AdoptionSpeed" = Ok speed →
  length speed = len df →
  has_col "Description" df = false →
  ∃ m',
    run lib cell_6 g m
    = (Raise (KeyError "['Description'] not found in axis"), m', cell_6)
    ∧ heap m' = <[l := labelled df speed]> (heap m)
    ∧ getitem (labelled df speed) "target" = Ok (List.map label_of speed)
    ∧ files m' = files m.
Proof.
  intros Hg Hl Hs Hlen Hd.
  set (m1 := mkMem (<[l := labelled df speed]> (heap m)) (files m)).
  exists m1. split; [|split; [done|split; [|done]]].
  - unfold cell_6.
    erewrite (run_cons_ok lib _ _ g m g m1).
    2:{ unfold exec. rewrite (bind_ok _ _ m l m) by by apply get_ref_ok.
        erewrite bind_ok by by eapply create_target_ok. done. }
    erewrite run_cons_raise; [reflexivity|].
    unfold exec. rewrite (bind_ok _ _ m1 l m1) by by apply get_ref_ok.
    apply bind_raise. unfold drop_unused.
    rewrite (bind_ok _ _ m1 (labelled df speed) m1).
    2:{ apply deref_ok. subst m1. simpl. apply lookup_insert_eq. }
    apply bind_raise. unfold lift, drop, unused_columns. cbn [List.filter].
    assert (has_col "AdoptionSpeed" (labelled df speed) = true) as ->.
    { unfold has_col, labelled. cbn [cols].
      rewrite lookup_col_assign_ne by done.
      unfold getitem in Hs.
      by destruct (lookup_col "AdoptionSpeed" (cols df)). }
    assert (has_col "Description" (labelled df speed) = false) as ->.
    { unfold has_col, labelled in *. cbn [cols].
      by rewrite lookup_col_assign_ne by done. }
    done.
  - unfold getitem, labelled. cbn [cols]. by rewrite lookup_col_assign_eq.
Qed.

Lemma cell_6_fails_after_labelling_witness :
  ∃ m',
    run toy_lib cell_6 {[ "dataframe" := VRef 0%nat ]}
      (mkMem {[ 0%nat := mkDF [0; 1]%Z
                           [("AdoptionSpeed", [CInt 4; CInt 2])] ]} ∅)
    = (Raise (KeyError "['Description'] not found in axis"), m', cell_6).
Proof.
  destruct (cell_6_fails_after_labelling toy_lib
              {[ "dataframe" := VRef 0%nat ]}
              (mkMem {[ 0%nat := mkDF [0; 1]%Z
                                   [("AdoptionSpeed", [CInt 4; CInt 2])] ]}
                     ∅)
              0%nat
              (mkDF [0; 1]%Z [("AdoptionSpeed", [CInt 4; CInt 2])])
              [CInt 4; CInt 2])
    as (m' & Hrun & _); try reflexivity.
  by exists m'.
Defined.

(** The toy split keeps the rows in order, so it hands out each once. *)
Lemma toy_lib_splits_partition : splits_partition toy_lib.
Proof.
  intros df r a b.
  change (train_test_split toy_lib df r) with (toy_split df r).
  unfold toy_split.
  destruct (Nat.eqb _ 0); [done|]. intros [= <- <-].
  unfold rows_between. cbn [index]. rewrite Nat.sub_0_r, skipn_O.
  unfold len. set (n := length (index df)).
  set (k := n - (n + 4) / 5).
  rewrite (firstn_all2 (n := n - k)).
  - by rewrite firstn_skipn.
  - rewrite length_skipn. fold n. apply Nat.eq_le_incl. reflexivity.
Qed.

(** X12.  Cell 7 splits twice with [test_size=0.2]: the frame into a rest
    and [test], then that rest, not the frame, into [train] and [val].
    The three splits are three new objects and the frame is left as it was.
    When the library's split hands out every row once, [train], [val] and
    [test] together hold every row of the frame once. *)
Theorem cell_7_carves_validation_out_of_train
    (lib : Library) (g : Globals) (m : Mem) (l : loc) (df : DataFrame)
    (g' : Globals) (m' : Mem) (entered : list Stmt) :
  g !! "dataframe" = Some (VRef l) →
  heap m !! l = Some df →
  run lib cell_7 g m = (Ok g', m', entered) →
  ∃ rest train val test l_train l_val l_test,
    train_test_split lib df (2 / 10)%R = Ok (rest, test)
    ∧ train_test_split lib rest (2 / 10)%R = Ok (train, val)
    ∧ g' !! "train" = Some (VRef l_train)
    ∧ heap m' !! l_train = Some train
    ∧ g' !! "val" = Some (VRef l_val)
    ∧ heap m' !! l_val = Some val
    ∧ g' !! "test" = Some (VRef l_test)
    ∧ heap m' !! l_test = Some test
    ∧ g' !! "dataframe" = Some (VRef l)
    ∧ heap m' !! l = Some df
    ∧ NoDup [l; l_train; l_val; l_test]
    ∧ (splits_partition lib →
       Permutation (index df) (index train ++ index val ++ index test)).
Proof.
  intros Hg Hl H. unfold cell_7 in H.
  apply run_cons_ok_inv in H as (g1 & m1 & ? & E1 & H).
  apply exec_train_test_split_inv in E1
    as (l0 & df0 & rest & test & Hg0 & Hl0 & Hsplit1 & E1).
  rewrite Hg in Hg0. injection Hg0 as <-.
  rewrite Hl in Hl0. injection Hl0 as <-.
  cbv zeta in E1. destruct E1 as [-> ->].
  apply run_cons_ok_inv in H as (g2 & m2 & ? & E2 & H).
  apply exec_train_test_split_inv in E2
    as (l1 & df1 & train & val & Hg1 & Hl1 & Hsplit2 & E2).
  rewrite lookup_insert_ne, lookup_insert_eq in Hg1 by done.
  injection Hg1 as <-. cbn [heap files] in *.
  set (la := fresh (dom (heap m))) in *.
  set (ha := <[la := rest]> (heap m)) in *.
  set (lb := fresh (dom ha)) in *.
  set (hb := <[lb := test]> ha) in *.
  assert (la ≠ l) as Hal by by eapply fresh_loc_ne.
  assert (lb ≠ l ∧ lb ≠ la) as [Hbl Hba].
  { split.
    - apply (fresh_loc_ne (mkMem ha (files m)) l df). simpl. subst ha.
      by rewrite lookup_insert_ne.
    - apply (fresh_loc_ne (mkMem ha (files m)) la rest). simpl. subst ha.
      apply lookup_insert_eq. }
  assert (hb !! la = Some rest) as Hrest.
  { subst hb ha. rewrite lookup_insert_ne by done. apply lookup_insert_eq. }
  rewrite Hrest in Hl1. injection Hl1 as <-.
  cbv zeta in E2. destruct E2 as [-> ->]. cbn [heap files] in *.
  set (lc := fresh (dom hb)) in *.
  set (hc := <[lc := train]> hb) in *.
  set (ld := fresh (dom hc)) in *.
  set (hd := <[ld := val]> hc) in *.
  assert (lc ≠ l ∧ lc ≠ la ∧ lc ≠ lb) as (Hcl & Hca & Hcb).
  { repeat split.
    - apply (fresh_loc_ne (mkMem hb (files m)) l df). simpl. subst hb ha.
      by rewrite !lookup_insert_ne.
    - by apply (fresh_loc_ne (mkMem hb (files m)) la rest).
    - apply (fresh_loc_ne (mkMem hb (files m)) lb test). simpl. subst hb.
      apply lookup_insert_eq. }
  assert (ld ≠ l ∧ ld ≠ lb ∧ ld ≠ lc) as (Hdl & Hdb & Hdc).
  { repeat split.
    - apply (fresh_loc_ne (mkMem hc (files m)) l df). simpl. subst hc hb ha.
      by rewrite !lookup_insert_ne.
    - apply (fresh_loc_ne (mkMem hc (files m)) lb test). simpl. subst hc hb.
      rewrite lookup_insert_ne by done. apply lookup_insert_eq.
    - apply (fresh_loc_ne (mkMem hc (files m)) lc train). simpl. subst hc.
      apply lookup_insert_eq. }
  apply run_cons_ok_inv in H as (? & ? & ? & E & H).
  apply exec_print_len_inv in E as [-> ->].
  apply run_cons_ok_inv in H as (? & ? & ? & E & H).
  apply exec_print_len_inv in E as [-> ->].
  apply run_cons_ok_inv in H as (? & ? & ? & E & H).
  apply exec_print_len_inv in E as [-> ->].
  simpl in H. injection H as <- <- _.
  exists rest, train, val, test, lc, ld, lb. cbn [heap].
  split; [exact Hsplit1|]. split; [exact Hsplit2|].
  split; [lookup_globals|].
  split; [subst hd hc; lookup_globals|].
  split; [lookup_globals|].
  split; [subst hd; lookup_globals|].
  split; [lookup_globals|].
  split; [subst hd hc hb; lookup_globals|].
  split; [lookup_globals|].
  split; [subst hd hc hb ha; lookup_globals|].
  split.
  { rewrite !NoDup_cons, !not_elem_of_cons.
    repeat split;
      first [congruence | apply not_elem_of_nil | apply NoDup_nil_2]. }
  intros Hpart.
  rewrite (Hpart _ _ _ _ Hsplit1), (Hpart _ _ _ _ Hsplit2).
  by rewrite <- app_assoc.
Qed.

Lemma cell_7_carves_validation_out_of_train_witness :
  ∃ g' m' train val test l_train l_val l_test,
    (run toy_lib cell_7 toy_globals toy_csv_mem).1 = (Ok g', m')
    ∧ g' !! "train" = Some (VRef l_train)
    ∧ heap m' !! l_train = Some train
    ∧ g' !! "val" = Some (VRef l_val)
    ∧ heap m' !! l_val = Some val
    ∧ g' !! "test" = Some (VRef l_test)
    ∧ heap m' !! l_test = Some test
    ∧ Permutation (index toy_csv) (index train ++ index val ++ index test).
Proof.
  destruct (run toy_lib cell_7 toy_globals toy_csv_mem) as [[r m'] t] eqn:E.
  assert (is_ok r = true) as Hok.
  { change r with (r, m', t).1.1. rewrite <- E. vm_compute. reflexivity. }
  destruct r as [g'|e]; [|discriminate Hok].
  destruct (cell_7_carves_validation_out_of_train toy_lib toy_globals
              toy_csv_mem 0%nat toy_csv g' m' t eq_refl eq_refl E)
    as (rest & train & val & test & lt & lv & lte & _ & _ & Ht & Hht & Hv
        & Hhv & Hte & Hhte & _ & _ & _ & Hpart).
  exists g', m', train, val, test, lt, lv, lte.
  split; [reflexivity|].
  repeat (split; [assumption|]).
  apply Hpart, toy_lib_splits_partition.
Defined.

(** A call of [df_to_dataset] with no keyword argument. *)
Lemma exec_df_to_dataset_default lib dst src g m l df labels :
  g !! src = Some (VRef l) →
  heap m !! l = Some df →
  getitem df "target" = Ok labels →
  tensorable df = true →
  0 < len df →
  exec lib (S_df_to_dataset dst src None None) g m =
    (Ok (<[dst := VDataset
             (wrapped true (len df) default_batch_size default_batch_size
                (source_of df labels))]> g),
     mkMem (<[fresh (dom (heap m)) := popped df]> (heap m)) (files m)).
Proof.
  intros Hsrc Hl Ht Hconv Hrows. unfold exec.
  rewrite (bind_ok _ _ m l m) by by apply get_ref_ok.
  rewrite (bind_ok _ _ m default_batch_size m) by done.
  erewrite bind_ok.
  2:{ eapply df_to_dataset_returns; try done. unfold default_batch_size. lia. }
  done.
Qed.

(** X13.  Cell 9 assigns [batch_size = 5] and then calls
    [df_to_dataset(train)] without passing it: on a train frame with rows
    and a label that converts to tensors, [train_ds] is shuffled and
    batched by the default of 32, and the variable is left at 5, unused.
    The [train] frame is unchanged. *)
Theorem cell_9_does_not_pass_its_batch_size
    (lib : Library) (g : Globals) (m : Mem) (l : loc) (df : DataFrame)
    (labels : list Cell) :
  g !! "train" = Some (VRef l) →
  heap m !! l = Some df →
  getitem df "target" = Ok labels →
  tensorable df = true →
  0 < len df →
  ∃ g' m',
    run lib cell_9 g m = (Ok g', m', cell_9)
    ∧ g' !! "batch_size" = Some (VNat 5)
    ∧ g' !! "train_ds"
      = Some (VDataset (wrapped true (len df) 32 32 (source_of df labels)))
    ∧ heap m' !! l = Some df.
Proof.
  intros Hg Hl Ht Hconv Hrows. unfold cell_9.
  eexists _, _. split; [|split; [|split]].
  - erewrite run_cons_ok by reflexivity.
    erewrite run_cons_ok.
    2:{ eapply exec_df_to_dataset_default; [|exact Hl|exact Ht|done|done].
        by rewrite lookup_insert_ne. }
    reflexivity.
  - lookup_globals.
  - lookup_globals.
  - simpl. rewrite lookup_insert_ne; [done|]. by eapply fresh_loc_ne.
Qed.

Lemma cell_9_does_not_pass_its_batch_size_witness :
  ∃ g' m',
    run toy_lib cell_9 toy_splits toy_mem = (Ok g', m', cell_9)
    ∧ g' !! "batch_size" = Some (VNat 5)
    ∧ g' !! "train_ds"
      = Some (VDataset
                (wrapped true 5 32 32
                   (source_of toy_frame
                      [CInt 1; CInt 1; CInt 1; CInt 1; CInt 0]))).
Proof.
  destruct (cell_9_does_not_pass_its_batch_size toy_lib toy_splits toy_mem
              0%nat toy_frame [CInt 1; CInt 1; CInt 1; CInt 1; CInt 0])
    as (g' & m' & Hrun & Hbs & Hds & _).
  - reflexivity.
  - reflexivity.
  - reflexivity.
  - reflexivity.
  - unfold len. simpl. lia.
  - exists g', m'. exact (conj Hrun (conj Hbs Hds)).
Defined.

Lemma get_features_ok (g : Globals) x f m :
  g !! x = Some (VFeatures f) → get_features g x m = (Ok f, m).
Proof.
  intros H. unfold get_features.
  by rewrite (bind_ok _ _ _ _ _ (var_ok _ _ _ _ H)).
Qed.

Lemma lookup_col_of_In name features :
  In name (List.map fst features) →
  ∃ col, lookup_col name features = Some col.
Proof.
  induction features as [|[c v] features IH]; simpl; [done|].
  destruct (String.eqb name c) eqn:E; [by eexists|].
  intros [->|Hin]; [by rewrite String.eqb_refl in E|]. by apply IH.
Qed.

(** The first batch of a shuffled pipeline. *)
Lemma first_batch sigma k bs pf features labels :
  (∀ l, Permutation (sigma l) l) →
  same_length (length labels) features = true →
  0 < bs →
  labels ≠ [] →
  ∃ group,
    iterate sigma
      (take 1 (wrapped true k bs pf (from_tensor_slices features labels)))
    = Ok [stacked (List.map fst features) group]
    ∧ length group = min bs (length labels)
    ∧ Forall (λ e, ∃ i, i < length labels ∧ e = row features labels i)
             group.
Proof.
  intros Hsigma Hwf Hbs Hne.
  set (rows := List.map (row features labels) (seq 0 (length labels))).
  exists (firstn bs (sigma rows)).
  split; [|split].
  - change (iterate sigma (take 1 ?d))
      with (es ← iterate sigma d; Ok (firstn 1 es)).
    pose proof (pipeline_batches sigma true k bs pf features labels
                  Hsigma Hwf Hbs) as Hit.
    cbv zeta in Hit. rewrite Hit, res_bind_ok. fold rows.
    destruct (sigma rows) as [|e es] eqn:E.
    { pose proof (Hsigma rows) as Hp. rewrite E in Hp.
      apply Permutation_nil in Hp. subst rows.
      destruct labels; [done|]. discriminate Hp. }
    by destruct (chunks_cons bs e es) as [rest ->].
  - rewrite length_firstn, (Permutation_length (Hsigma rows)).
    subst rows. by rewrite length_map, length_seq.
  - apply Forall_take. eapply Permutation_Forall.
    { symmetry. apply Hsigma. }
    apply Forall_forall. intros e He. apply list_elem_of_In in He.
    apply in_map_iff in He as (i & <- & Hi).
    apply in_seq in Hi. exists i. split; [lia|done].
Qed.

Lemma stacked_feature_size features labels group k :
  Forall (λ e, ∃ i, i < length labels ∧ e = row features labels i)
         group →
  In k (List.map fst features) →
  length (leaves (TN (List.map (tensor_under k) group))) = length group.
Proof.
  intros Hrows Hin. destruct (lookup_col_of_In _ _ Hin) as [col Hcol].
  cbn [leaves]. rewrite List.map_map.
  induction Hrows as [|e group (i & _ & ->) _ IH]; [done|].
  cbn [List.map List.concat]. rewrite length_app, IH.
  change (leaves (tensor_under k (row features labels i)))
    with (scalars_under k (row features labels i)).
  by rewrite (row_scalars _ _ _ _ _ Hcol).
Qed.

Lemma stacked_label_size features labels group :
  Forall (λ e, ∃ i, i < length labels ∧ e = row features labels i)
         group →
  length (leaves (TN (List.map label_under group))) = length group.
Proof.
  intros Hrows. cbn [leaves]. rewrite List.map_map.
  induction Hrows as [|e group (i & _ & ->) _ IH]; [done|].
  cbn [List.map List.concat]. by rewrite length_app, IH.
Qed.

Lemma cell_9_runs lib (g : Globals) m l df labels :
  g !! "train" = Some (VRef l) →
  heap m !! l = Some df →
  getitem df "target" = Ok labels →
  tensorable df = true →
  0 < len df →
  run lib cell_9 g m
  = (Ok (<["train_ds" := VDataset
             (wrapped true (len df) 32 32 (source_of df labels))]>
           (<["batch_size" := VNat 5]> g)),
     mkMem (<[fresh (dom (heap m)) := popped df]> (heap m)) (files m),
     cell_9).
Proof.
  intros Hg Hl Ht Hconv Hrows. unfold cell_9.
  erewrite run_cons_ok by reflexivity.
  erewrite run_cons_ok.
  2:{ eapply exec_df_to_dataset_default; [|exact Hl|exact Ht|done|done].
      by rewrite lookup_insert_ne. }
  reflexivity.
Qed.

(** X14.  Cells 9 and 10 complete on a well-formed train frame that has rows,
    a label and an [Age] column and converts to tensors (distinct column
    labels, every column of strings or of [int64] integers).  The batch
    that cell 10 takes holds
    [min(32, len(train))] rows: one tensor of that many values under every
    column of the frame but [target], and as many labels. *)
Theorem cell_10_takes_a_batch_of_the_default_size
    (lib : Library) (g : Globals) (m : Mem) (l : loc) (df : DataFrame)
    (labels : list Cell) :
  (∀ es, Permutation (shuffle_order lib es) es) →
  g !! "train" = Some (VRef l) →
  heap m !! l = Some df →
  well_formed df = true →
  tensorable df = true →
  getitem df "target" = Ok labels →
  has_col "Age" df = true →
  0 < len df →
  ∃ g' m' x y,
    run lib (cell_9 ++ cell_10) g m = (Ok g', m', (cell_9 ++ cell_10)%list)
    ∧ g' !! "train_features" = Some (VFeatures x)
    ∧ g' !! "label_batch" = Some (VTensor y)
    ∧ List.map fst x = List.map fst (cols (popped df))
    ∧ length (leaves y) = min 32 (len df)
    ∧ Forall (λ kt, length (leaves (snd kt)) = min 32 (len df)) x.
Proof.
  intros Hsigma Hg Hl Hwf Hconv Ht Hage Hlen.
  pose proof (getitem_length _ _ _ Hwf Ht) as Hlabels.
  pose proof (popped_same_length _ _ Hwf Ht) as Hsame.
  assert (labels ≠ []) as Hne.
  { intros ->. simpl in Hlabels. lia. }
  destruct (first_batch (shuffle_order lib) (len df) 32 32
              (cols (popped df)) labels Hsigma Hsame ltac:(lia) Hne)
    as (group & Hit & Hsize & Hrows).
  set (ks := List.map fst (cols (popped df))) in *.
  set (x := List.map (λ k, (k, TN (List.map (tensor_under k) group))) ks).
  set (y := TN (List.map label_under group)).
  assert (In "Age" ks) as Hin.
  { unfold has_col in Hage.
    destruct (lookup_col "Age" (cols df)) as [col|] eqn:E; [|done].
    apply (lookup_col_In "Age" _ col). unfold popped. cbn [cols].
    rewrite lookup_col_remove_notin; [done|]. by intros [H|[]]. }
  set (g1 := <["train_ds" := VDataset
                 (wrapped true (len df) 32 32 (source_of df labels))]>
               (<["batch_size" := VNat 5]> g)).
  set (m1 := mkMem (<[fresh (dom (heap m)) := popped df]> (heap m))
               (files m)).
  set (g2 := <["label_batch" := VTensor y]>
               (<["train_features" := VFeatures x]> g1)).
  exists g2, m1, x, y.
  split; [|split; [|split; [|split; [|split]]]].
  - rewrite run_app, (cell_9_runs lib g m l df labels Hg Hl Ht Hconv Hlen).
    fold g1 m1. unfold cell_10.
    erewrite (run_cons_ok lib _ _ g1 m1 g2 m1).
    2:{ unfold exec.
        erewrite bind_ok by (apply get_dataset_ok; apply lookup_insert_eq).
        unfold source_of. unfold lift at 1.
        unfold mbind at 1, M_bind at 1. rewrite Hit. done. }
    erewrite (run_cons_ok lib _ _ g2 m1 g2 m1).
    2:{ unfold exec.
        erewrite bind_ok by (apply get_features_ok; subst g2; lookup_globals).
        done. }
    erewrite (run_cons_ok lib _ _ g2 m1 g2 m1).
    2:{ unfold exec.
        erewrite bind_ok by (apply get_features_ok; subst g2; lookup_globals).
        unfold lift. unfold mbind, M_bind. subst x.
        by rewrite (lookup_feature_tabulate "Age" ks _ Hin). }
    erewrite (run_cons_ok lib _ _ g2 m1 g2 m1).
    2:{ unfold exec.
        erewrite bind_ok by (apply var_ok; subst g2; lookup_globals).
        done. }
    reflexivity.
  - subst g2. lookup_globals.
  - subst g2. lookup_globals.
  - subst x. rewrite List.map_map. apply map_id.
  - subst y. rewrite (stacked_label_size _ _ _ Hrows), Hsize. lia.
  - subst x. apply Forall_forall. intros kt Hkt.
    apply list_elem_of_In, in_map_iff in Hkt as (k & <- & Hk). cbn [snd].
    rewrite (stacked_feature_size _ _ _ _ Hrows Hk), Hsize. lia.
Qed.

Lemma cell_10_takes_a_batch_of_the_default_size_witness :
  ∃ g' m' x y,
    run toy_lib (cell_9 ++ cell_10) toy_splits toy_mem
    = (Ok g', m', (cell_9 ++ cell_10)%list)
    ∧ g' !! "train_features" = Some (VFeatures x)
    ∧ g' !! "label_batch" = Some (VTensor y)
    ∧ length (leaves y) = 5.
Proof.
  destruct (cell_10_takes_a_batch_of_the_default_size toy_lib toy_splits
              toy_mem 0%nat toy_frame
              [CInt 1; CInt 1; CInt 1; CInt 1; CInt 0])
    as (g' & m' & x & y & Hrun & Hx & Hy & _ & Hlen & _).
  - intros es. symmetry. apply Permutation_rev.
  - reflexivity.
  - reflexivity.
  - reflexivity.
  - reflexivity.
  - reflexivity.
  - reflexivity.
  - unfold len. simpl. lia.
  - exists g', m', x, y.
    exact (conj Hrun (conj Hx (conj Hy Hlen))).
Defined.

Lemma get_floats_ok (g : Globals) x t m :
  g !! x = Some (VFloats t) → get_floats g x m = (Ok t, m).
Proof.
  intros H. unfold get_floats.
  by rewrite (bind_ok _ _ _ _ _ (var_ok _ _ _ _ H)).
Qed.

Lemma get_sample_ok (g : Globals) x kv m :
  g !! x = Some (VSample kv) → get_sample g x m = (Ok kv, m).
Proof.
  intros H. unfold get_sample.
  by rewrite (bind_ok _ _ _ _ _ (var_ok _ _ _ _ H)).
Qed.

Lemma lift_ok_inv {A} (r : Res A) m a m' :
  lift r m = (Ok a, m') → r = Ok a ∧ m' = m.
Proof. unfold lift. by intros [= -> ->]. Qed.

(** Read the variables a statement needs, when the globals are known. *)
Ltac read_known E :=
  unfold exec in E;
  repeat (erewrite bind_ok in E
            by (first [ apply get_model_ok | apply get_dataset_ok
                      | apply get_features_ok | apply get_floats_ok
                      | apply get_sample_ok | apply get_syms_ok
                      | apply get_sym_ok | apply var_ok ];
                lookup_globals)).

(** The result of a library call that returned. *)
Ltac call_returned E r Hr :=
  let m0 := fresh "m" in
  apply bind_ok_inv in E as (r & m0 & Hr & E);
  apply lift_ok_inv in Hr as [Hr ->].

Ltac finished E := unfold mret, M_ret in E; injection E as <- <-.

(** X15.  From training on, one model is handed along.  [fit] gets the
    model with [train_ds], ten epochs and [val_ds]; the model with the
    weights [fit] returned is the one evaluated on [test_ds] and the one
    saved; [load_model] reads the path [save] wrote, the only file written;
    and [predict] is called on what was loaded, with the sample as a batch
    of one row.  [prob] is the sigmoid of the first row of the
    predictions.  No dataframe is touched. *)
Theorem fitted_model_is_evaluated_saved_and_reloaded
    (lib : Library) (g : Globals) (m : Mem) (model : Model)
    (train_ds val_ds test_ds : Dataset)
    (g' : Globals) (m' : Mem) (entered : list Stmt) :
  g !! "model" = Some (VModel model) →
  g !! "train_ds" = Some (VDataset train_ds) →
  g !! "val_ds" = Some (VDataset val_ds) →
  g !! "test_ds" = Some (VDataset test_ds) →
  run lib cells_22_to_25 g m = (Ok g', m', entered) →
  ∃ w la saved reloaded row rest,
    let fitted := mkModel (inputs model) (output model) (compiled model) w in
    fit lib model train_ds 10 val_ds = Ok w
    ∧ evaluate lib fitted test_ds = Ok la
    ∧ save_model lib fitted = Ok saved
    ∧ files m' = <["my_pet_classifier" := saved]> (files m)
    ∧ load_model lib saved = Ok reloaded
    ∧ predict lib reloaded input_dict = Ok (TN (row :: rest))
    ∧ g' !! "model" = Some (VModel fitted)
    ∧ g' !! "accuracy" = Some (VReal (snd la))
    ∧ g' !! "reloaded_model" = Some (VModel reloaded)
    ∧ g' !! "prob" = Some (VFloats (tmap sigmoid row))
    ∧ heap m' = heap m.
Proof.
  intros Hmodel Htrain Hval Htest H.
  unfold cells_22_to_25, cell_22, cell_23, cell_24, cell_25 in H.
  cbn [app] in H.
  (* fit *)
  apply run_cons_ok_inv in H as (? & ? & ? & E & H).
  read_known E. call_returned E w Hfit. finished E.
  (* evaluate, print *)
  apply run_cons_ok_inv in H as (? & ? & ? & E & H).
  read_known E. call_returned E la Heval. finished E.
  apply run_cons_ok_inv in H as (? & ? & ? & E & H).
  read_known E. finished E.
  (* save, load *)
  apply run_cons_ok_inv in H as (? & ? & ? & E & H).
  read_known E. call_returned E saved Hsave.
  unfold write_file in E. unfold_M. injection E as <- <-.
  apply run_cons_ok_inv in H as (? & ? & ? & E & H).
  unfold exec in E.
  apply bind_ok_inv in E as (saved' & ? & Hread & E).
  unfold read_file in Hread. cbn [files] in Hread.
  rewrite lookup_insert_eq in Hread. injection Hread as <- <-.
  apply bind_ok_inv in E as (reloaded & ? & Hload & E).
  apply lift_ok_inv in Hload as [Hload ->].
  unfold_M. injection E as <- <-.
  (* sample, tensors, predict, sigmoid, print *)
  apply run_cons_ok_inv in H as (? & ? & ? & E & H).
  read_known E. finished E.
  apply run_cons_ok_inv in H as (? & ? & ? & E & H).
  read_known E. finished E.
  apply run_cons_ok_inv in H as (? & ? & ? & E & H).
  read_known E. call_returned E y Hpredict. finished E.
  apply run_cons_ok_inv in H as (? & ? & ? & E & H).
  read_known E.
  destruct y as [|[|row rest]]; try discriminate E.
  finished E.
  apply run_cons_ok_inv in H as (? & ? & ? & E & H).
  read_known E. finished E.
  simpl in H. injection H as <- <- _.
  exists w, la, saved, reloaded, row, rest. cbv zeta.
  split; [exact Hfit|]. split; [exact Heval|]. split; [exact Hsave|].
  split; [reflexivity|]. split; [exact Hload|]. split; [exact Hpredict|].
  repeat split; lookup_globals.
Qed.

Lemma fitted_model_is_evaluated_saved_and_reloaded_witness :
  ∃ g' m' w saved reloaded,
    (run toy_lib cells_22_to_25
       (<["model" := VModel (mkModel [] (Input "Fee" None) None [])]>
          (<["train_ds" := VDataset two_pets]>
             (<["val_ds" := VDataset two_pets]>
                {[ "test_ds" := VDataset two_pets ]})))
       empty_mem).1 = (Ok g', m')
    ∧ fit toy_lib (mkModel [] (Input "Fee" None) None []) two_pets 10 two_pets
      = Ok w
    ∧ save_model toy_lib (mkModel [] (Input "Fee" None) None w) = Ok saved
    ∧ load_model toy_lib saved = Ok reloaded
    ∧ g' !! "reloaded_model" = Some (VModel reloaded).
Proof.
  set (g := <["model" := VModel (mkModel [] (Input "Fee" None) None [])]>
              (<["train_ds" := VDataset two_pets]>
                 (<["val_ds" := VDataset two_pets]>
                    {[ "test_ds" := VDataset two_pets ]}))).
  destruct (run toy_lib cells_22_to_25 g empty_mem) as [[r m'] t] eqn:E.
  assert (is_ok r = true) as Hok.
  { change r with (r, m', t).1.1. rewrite <- E. vm_compute. reflexivity. }
  destruct r as [g'|e]; [|discriminate Hok].
  destruct (fitted_model_is_evaluated_saved_and_reloaded toy_lib g empty_mem
              (mkModel [] (Input "Fee" None) None []) two_pets two_pets
              two_pets g' m' t eq_refl eq_refl eq_refl eq_refl E)
    as (w & la & saved & reloaded & row & rest & Hfit & _ & Hsave & _
        & Hload & _ & _ & _ & Hre & _).
  exists g', m', w, saved, reloaded.
  split; [reflexivity|]. exact (conj Hfit (conj Hsave (conj Hload Hre))).
Defined.

Lemma cells_17_to_19_declare lib g m g' m' entered :
  run lib cells_17_to_19 g m = (Ok g', m', entered) →
  g' !! "all_inputs" = Some (VSyms declared_inputs).
Proof.
  intros H. unfold cells_17_to_19 in H.
  apply run_app_ok_inv in H as (g17 & m17 & ? & ? & H17 & H).
  apply run_app_ok_inv in H as (g18 & m18 & ? & ? & H18 & H19).
  unfold cell_17 in H17.
  apply run_app_ok_inv in H17 as (g0 & m0 & ? & ? & Hnew & Hnum).
  simpl in Hnew. injection Hnew as <- _ _.
  assert (∃ d, g !! "train_ds" = Some (VDataset d)) as [d Hd].
  { pose proof Hnum as Hfirst. unfold numeric_headers in Hfirst.
    cbn [flat_map] in Hfirst.
    apply run_app_ok_inv in Hfirst as (? & ? & ? & ? & Hfirst & _).
    apply numeric_body_reads_train_ds in Hfirst as [d Hd].
    exists d. by rewrite !lookup_insert_ne in Hd. }
  assert (building d [] []
            (<["encoded_features" := VSyms []]>
               (<["all_inputs" := VSyms []]> g))) as Hb0.
  { repeat split; lookup_globals. }
  destruct (numeric_loop_appends _ _ _ _ _ _ _ _ _ _ Hb0 Hnum)
    as (f17 & Hb17 & _).
  destruct (cell_18_appends _ _ _ _ _ _ _ _ _ Hb17 H18)
    as (age & _ & Hb18).
  destruct (categorical_loop_appends _ _ _ _ _ _ _ _ _ _ Hb18 H19)
    as (f19 & (_ & Hins & _) & _).
  rewrite Hins. unfold declared_inputs. by rewrite <- app_assoc.
Qed.

(** X16.  The sample that cell 25 predicts on matches the inputs that cells
    17 to 19 declare, whatever the libraries return: its keys are the names
    of the inputs, each once, and under every name it holds a value of the
    dtype the input was declared with, a string for the ten string inputs
    and a number for [Age], [PhotoAmt] and [Fee]. *)
Theorem sample_has_a_value_for_every_input
    (lib : Library) (g : Globals) (m : Mem)
    (g' : Globals) (m' : Mem) (entered : list Stmt) :
  run lib cells_17_to_19 g m = (Ok g', m', entered) →
  ∃ ins,
    g' !! "all_inputs" = Some (VSyms ins)
    ∧ Permutation (List.map input_name ins)
                  (List.map (λ p, Some (fst p)) sample)
    ∧ NoDup (List.map fst sample)
    ∧ Forall (λ x, ∃ name c,
                input_name x = Some name
                ∧ sample_value name = Some c
                ∧ fits x c = true) ins.
Proof.
  intros H. exists declared_inputs.
  split; [by eapply cells_17_to_19_declare|].
  split; [|split].
  - compute_done.
  - compute_done.
  - unfold declared_inputs.
    repeat (apply Forall_cons_2;
            [eexists _, _; split; [reflexivity|]; split; reflexivity|]).
    apply Forall_nil_2.
Qed.

Lemma sample_has_a_value_for_every_input_witness :
  ∃ g' ins,
    (run toy_lib cells_17_to_19 {[ "train_ds" := VDataset toy_csv_ds ]}
       empty_mem).1.1 = Ok g'
    ∧ g' !! "all_inputs" = Some (VSyms ins)
    ∧ Permutation (List.map input_name ins)
                  (List.map (λ p, Some (fst p)) sample).
Proof.
  set (g := {[ "train_ds" := VDataset toy_csv_ds ]} : Globals).
  destruct (run toy_lib cells_17_to_19 g empty_mem) as [[r m'] t] eqn:E.
  assert (is_ok r = true) as Hok.
  { change r with (r, m', t).1.1. rewrite <- E. vm_compute. reflexivity. }
  destruct r as [g'|e]; [|discriminate Hok].
  destruct (sample_has_a_value_for_every_input toy_lib g empty_mem g' m' t E)
    as (ins & Hins & Hperm & _).
  exists g', ins. split; [reflexivity|]. exact (conj Hins Hperm).
Defined.

Lemma sigmoid_range x : (0 <= sigmoid x <= 1)%R.
Proof.
  unfold sigmoid. pose proof (exp_pos (- x)) as He. split.
  - left. apply Rdiv_lt_0_compat; lra.
  - left. apply (Rmult_lt_reg_r (1 + exp (- x))); [lra|].
    unfold Rdiv. rewrite Rmult_assoc, Rinv_l by lra. lra.
Qed.

Lemma leaves_tmap {A B} (f : A → B) (t : Tensor A) :
  leaves (tmap f t) = List.map f (leaves t).
Proof.
  revert t. fix IH 1. intros [a|ts]; [reflexivity|].
  cbn [tmap leaves].
  induction ts as [|t ts IHts]; [reflexivity|].
  cbn [List.map List.concat]. rewrite List.map_app, IH. f_equal. exact IHts.
Qed.

(** X17.  Cell 25 takes the sigmoid of the first row of the predictions:
    when the cell completes, [prob] has one entry for each entry of that
    row, and every entry lies between 0 and 1, both included.  (In exact
    arithmetic neither bound is reached; in [float32] a confident
    prediction rounds to 0 or to 1.) *)
Theorem cell_25_prints_a_proportion
    (lib : Library) (g : Globals) (m : Mem) (reloaded : Model)
    (g' : Globals) (m' : Mem) (entered : list Stmt) :
  g !! "reloaded_model" = Some (VModel reloaded) →
  run lib cell_25 g m = (Ok g', m', entered) →
  ∃ row rest,
    predict lib reloaded input_dict = Ok (TN (row :: rest))
    ∧ g' !! "prob" = Some (VFloats (tmap sigmoid row))
    ∧ length (leaves (tmap sigmoid row)) = length (leaves row)
    ∧ Forall (λ p, (0 <= p <= 1)%R) (leaves (tmap sigmoid row)).
Proof.
  intros Hmodel H. unfold cell_25 in H.
  apply run_cons_ok_inv in H as (? & ? & ? & E & H).
  read_known E. finished E.
  apply run_cons_ok_inv in H as (? & ? & ? & E & H).
  read_known E. finished E.
  apply run_cons_ok_inv in H as (? & ? & ? & E & H).
  read_known E. call_returned E y Hpredict. finished E.
  apply run_cons_ok_inv in H as (? & ? & ? & E & H).
  read_known E.
  destruct y as [|[|row rest]]; try discriminate E.
  finished E.
  apply run_cons_ok_inv in H as (? & ? & ? & E & H).
  read_known E. finished E.
  simpl in H. injection H as <- <- _.
  exists row, rest. split; [exact Hpredict|]. split; [lookup_globals|].
  rewrite leaves_tmap. split; [apply length_map|].
  apply Forall_forall. intros p Hp.
  apply list_elem_of_In, in_map_iff in Hp as (x & <- & _).
  apply sigmoid_range.
Qed.

Lemma cell_25_prints_a_proportion_witness :
  ∃ g' t,
    (run toy_lib cell_25 {[ "reloaded_model" :=
                             VModel (mkModel [] (Input "Fee" None) None []) ]}
       empty_mem).1.1 = Ok g'
    ∧ g' !! "prob" = Some (VFloats t)
    ∧ Forall (λ p, (0 <= p <= 1)%R) (leaves t).
Proof.
  set (g := {[ "reloaded_model" :=
                 VModel (mkModel [] (Input "Fee" None) None []) ]}
            : Globals).
  destruct (run toy_lib cell_25 g empty_mem) as [[r m'] t] eqn:E.
  assert (is_ok r = true) as Hok.
  { change r with (r, m', t).1.1. rewrite <- E. vm_compute. reflexivity. }
  destruct r as [g'|e]; [|discriminate Hok].
  destruct (cell_25_prints_a_proportion toy_lib g empty_mem
              (mkModel [] (Input "Fee" None) None []) g' m' t eq_refl E)
    as (row & rest & _ & Hprob & _ & Hrange).
  exists g', (tmap sigmoid row). split; [reflexivity|].
  exact (conj Hprob Hrange).
Defined.

(** ** The flow of variables through the script *)

(** Unfold one layer of a computation that returned. *)
Ltac returned H :=
  repeat match type of H with
         | (mbind _ _) _ = (Ok _, _) =>
             let H1 := fresh "Hc" in
             apply bind_ok_inv in H as (? & ? & H1 & H)
         end.

Lemma is_Some_insert_keep (g : Globals) x y v :
  is_Some (g !! x) → is_Some (<[y := v]> g !! x).
Proof.
  intros H. destruct (decide (y = x)) as [->|Hne].
  - rewrite lookup_insert_eq. by eexists.
  - by rewrite lookup_insert_ne.
Qed.

Lemma is_Some_insert_new (g : Globals) x v : is_Some (<[x := v]> g !! x).
Proof. rewrite lookup_insert_eq. by eexists. Qed.

(** A statement that completes keeps what was bound and binds what it
    writes. *)
Lemma exec_binds lib s g m g' m' :
  exec lib s g m = (Ok g', m') →
  (∀ x, is_Some (g !! x) → is_Some (g' !! x))
  ∧ Forall (λ x, is_Some (g' !! x)) (writes s).
Proof.
  intros H.
  destruct s; cbn [exec writes] in *; returned H;
    try (match type of H with
         | context [match ?t with _ => _ end] => destruct t
         end);
    try (match type of H with
         | context [match ?t with _ => _ end] => destruct t
         end);
    try (match type of H with
         | context [match ?t with _ => _ end] => destruct t
         end);
    try (match type of H with
         | context [match ?t with _ => _ end] => destruct t
         end);
    try discriminate H;
    unfold mret, M_ret in H; injection H as <- <-;
    (split;
     [ intros ? ?; repeat apply is_Some_insert_keep; assumption
     | repeat (apply Forall_cons_2;
               [first [ apply is_Some_insert_new
                      | apply is_Some_insert_keep, is_Some_insert_new ]|]);
       apply Forall_nil_2 ]).
Qed.

Lemma var_unbound (g : Globals) x m :
  g !! x = None → var g x m = (Raise (NameError x), m).
Proof. unfold var. by intros ->. Qed.

(** A statement that finds one of its variables unbound does not
    complete. *)
Lemma exec_needs_its_reads lib s g m x :
  x ∈ reads s → g !! x = None → is_ok (exec lib s g m).1 = false.
Proof.
  intros Hx Hnone.
  destruct s; cbn [reads] in Hx;
    try (match type of Hx with
         | context [match ?t with _ => _ end] => destruct t
         end);
    repeat (apply elem_of_cons in Hx as [->|Hx]);
    try (by apply elem_of_nil in Hx);
    cbn [exec];
    unfold get_ref, get_nat, get_dataset, get_features, get_floats, get_sym,
      get_syms, get_model, get_sample, var, mbind, M_bind, mret, M_ret, raise;
    rewrite ?Hnone; try reflexivity;
    repeat (match goal with
            | |- context [match ?g !! ?y with _ => _ end] =>
                destruct (g !! y) as [[]|]; try reflexivity
            end; rewrite ?Hnone; try reflexivity).
Qed.

(** Whether a statement completes, what it raises and what it leaves in the
    store depend on the globals through the variables it reads only. *)
Lemma exec_consults_its_reads_only lib s (g1 g2 : Globals) m :
  Forall (λ x, g1 !! x = g2 !! x) (reads s) →
  match exec lib s g1 m, exec lib s g2 m with
  | (Ok _, m1), (Ok _, m2) => m1 = m2
  | (Raise e1, m1), (Raise e2, m2) => e1 = e2 ∧ m1 = m2
  | _, _ => False
  end.
Proof.
  intros H.
  destruct s; cbn [reads] in H;
    try (match type of H with
         | context [match ?t with _ => _ end] => destruct t
         end);
    repeat (apply Forall_cons in H as [? H]);
    cbn [exec];
    unfold get_ref, get_nat, get_dataset, get_features, get_floats, get_sym,
      get_syms, get_model, get_sample, var, mbind, M_bind, mret, M_ret, raise,
      lift;
    repeat match goal with
           | E : g1 !! ?x = g2 !! ?x |- _ => rewrite E; clear E
           end;
    repeat (case_match; simplify_eq; try done); done.
Qed.

Lemma bound_in_app a b x : bound_in (a ++ b) x = bound_in a x || bound_in b x.
Proof. unfold bound_in. apply existsb_app. Qed.

Lemma bound_in_elem_of defined x : bound_in defined x = true ↔ x ∈ defined.
Proof.
  unfold bound_in. rewrite existsb_exists. split.
  - intros (y & Hy & E). apply String.eqb_eq in E as ->.
    by apply list_elem_of_In.
  - intros H. exists x. split; [by apply list_elem_of_In|].
    apply String.eqb_refl.
Qed.

Lemma bound_before_use_sound lib script :
  ∀ defined g0 m0 pre s post g m entered,
    bound_before_use defined script = true →
    (∀ x, x ∈ defined → is_Some (g0 !! x)) →
    script = (pre ++ s :: post)%list →
    run lib pre g0 m0 = (Ok g, m, entered) →
    Forall (λ x, is_Some (g !! x)) (reads s).
Proof.
  intros defined g0 m0 pre. revert script defined g0 m0.
  induction pre as [|p pre IH];
    intros script defined g0 m0 s post g m entered Hcheck Hdef -> Hrun.
  - simpl in Hrun. injection Hrun as <- <- _.
    cbn [app bound_before_use] in Hcheck.
    apply andb_prop in Hcheck as [Hreads _].
    apply Forall_forall. intros x Hx. apply Hdef, bound_in_elem_of.
    rewrite forallb_forall in Hreads. apply Hreads.
    by apply list_elem_of_In.
  - apply run_cons_ok_inv in Hrun as (g1 & m1 & t & Hexec & Hrun).
    cbn [app bound_before_use] in Hcheck.
    apply andb_prop in Hcheck as [_ Hcheck].
    destruct (exec_binds _ _ _ _ _ _ Hexec) as [Hkeep Hnew].
    eapply (IH _ (writes p ++ defined)%list g1 m1);
      [exact Hcheck| |reflexivity|exact Hrun].
    intros x Hx. apply elem_of_app in Hx as [Hx|Hx].
    + rewrite Forall_forall in Hnew. by apply Hnew.
    + by apply Hkeep, Hdef.
Qed.

(** X18.  Run from the top in a fresh kernel, the notebook never reaches a
    statement with one of its variables unbound, whatever the libraries
    return: every variable a statement reads has been bound by a statement
    that completed before it.  The variables a statement reads are those
    it needs, since it does not complete when one of them is unbound, and
    the only ones on which it depends whether it completes. *)
Theorem notebook_binds_every_variable_before_it_reads_it
    (lib : Library) (pre : list Stmt) (s : Stmt) (post : list Stmt)
    (g : Globals) (m : Mem) (entered : list Stmt) :
  notebook = (pre ++ s :: post)%list →
  run lib pre ∅ empty_mem = (Ok g, m, entered) →
  Forall (λ x, is_Some (g !! x)) (reads s)
  ∧ (∀ g0 m0 x, x ∈ reads s → g0 !! x = None →
                is_ok (exec lib s g0 m0).1 = false)
  ∧ (∀ g1 g2 m0, Forall (λ x, g1 !! x = g2 !! x) (reads s) →
                 is_ok (exec lib s g1 m0).1 = is_ok (exec lib s g2 m0).1).
Proof.
  intros Hsplit Hrun. split; [|split].
  - eapply (bound_before_use_sound lib notebook []);
      [|  |exact Hsplit|exact Hrun].
    + vm_compute. reflexivity.
    + intros x Hx. by apply elem_of_nil in Hx.
  - intros g0 m0 x. apply exec_needs_its_reads.
  - intros g1 g2 m0 Hsame.
    pose proof (exec_consults_its_reads_only lib s g1 g2 m0 Hsame) as H.
    by destruct (exec lib s g1 m0) as [[]], (exec lib s g2 m0) as [[]].
Qed.

Lemma notebook_binds_every_variable_before_it_reads_it_witness :
  ∃ g, (run toy_lib cell_4 ∅ empty_mem).1.1 = Ok g
       ∧ is_Some (g !! "dataframe").
Proof.
  destruct (run toy_lib cell_4 ∅ empty_mem) as [[r m] t] eqn:E.
  assert (is_ok r = true) as Hok.
  { change r with (r, m, t).1.1. rewrite <- E. vm_compute. reflexivity. }
  destruct r as [g|e]; [|discriminate Hok].
  destruct (notebook_binds_every_variable_before_it_reads_it toy_lib cell_4
              (S_head "dataframe")
              (cell_6 ++ cell_7 ++ demonstration ++ cell_16 ++ cell_17
               ++ cell_18 ++ cell_19 ++ cell_20 ++ cell_21 ++ cell_22
               ++ cell_23 ++ cell_24 ++ cell_25)%list
              g m t eq_refl E) as [Hreads _].
  exists g. split; [reflexivity|].
  by apply Forall_cons in Hreads as [Hdf _].
Defined.

(** X19.  The held-out splits are used for nothing but what they are held
    out for: in the whole notebook [val_ds] is read by [fit], as validation
    data, and by no other statement, and [test_ds] by [evaluate] alone; the
    frames [val] and [test] are only measured and wrapped.  No layer is
    adapted on them. *)
Theorem held_out_splits_are_read_once :
  statements_reading "val_ds" notebook
  = [S_fit "model" "train_ds" "val_ds" 10]
  ∧ statements_reading "test_ds" notebook
    = [S_evaluate "loss" "accuracy" "model" "test_ds"]
  ∧ statements_reading "val" notebook
    = [S_print_len "val";
       S_df_to_dataset "val_ds" "val" (Some false) (Some "batch_size")]
  ∧ statements_reading "test" notebook
    = [S_print_len "test";
       S_df_to_dataset "test_ds" "test" (Some false) (Some "batch_size")].
Proof. repeat split; vm_compute; reflexivity. Qed.

(** X20.  Nothing that the demonstration cells (9 to 15) bind reaches the
    model: each variable they bind is either never read afterwards, or
    bound anew by cell 16 before any statement reads it, as [batch_size]
    and [train_ds] are. *)
Theorem demonstration_bindings_are_dead :
  notebook
  = (cell_4 ++ cell_5 ++ cell_6 ++ cell_7 ++ demonstration
     ++ after_demonstration)%list
  ∧ flat_map writes demonstration
    = ["batch_size"; "train_ds"; "train_features"; "label_batch";
       "photo_count_col"; "layer"; "type_col"; "layer"; "type_col";
       "category_encoding_layer"]
  ∧ Forall (λ x, rebound_before_read x after_demonstration = true)
           (flat_map writes demonstration)
  ∧ statements_reading "batch_size" after_demonstration
    = [S_df_to_dataset "train_ds" "train" None (Some "batch_size");
       S_df_to_dataset "val_ds" "val" (Some false) (Some "batch_size");
       S_df_to_dataset "test_ds" "test" (Some false) (Some "batch_size")].
Proof.
  split; [reflexivity|]. split; [reflexivity|]. split.
  - apply Forall_forall. intros x Hx. apply list_elem_of_In in Hx.
    revert x Hx.
    apply (proj1 (forallb_forall
                    (λ x, rebound_before_read x after_demonstration) _)).
    vm_compute. reflexivity.
  - vm_compute. reflexivity.
Qed.

(** ** The notebook runs to its end *)

Lemma completes_nil lib g m : completes lib [] g m g m.
Proof. reflexivity. Qed.

Lemma completes_cons lib s script g m g1 m1 g2 m2 :
  exec lib s g m = (Ok g1, m1) →
  completes lib script g1 m1 g2 m2 →
  completes lib (s :: script) g m g2 m2.
Proof.
  unfold completes. intros Hs Hrest.
  by rewrite (run_cons_ok _ _ _ _ _ _ _ Hs), Hrest.
Qed.

Lemma completes_app lib script1 script2 g m g1 m1 g2 m2 :
  completes lib script1 g m g1 m1 →
  completes lib script2 g1 m1 g2 m2 →
  completes lib (script1 ++ script2) g m g2 m2.
Proof.
  unfold completes. intros H1 H2. by rewrite run_app, H1, H2.
Qed.

(** A statement that completes leaves alone the variables it does not
    write. *)
Lemma exec_frame lib s g m g' m' x :
  exec lib s g m = (Ok g', m') → x ∉ writes s → g' !! x = g !! x.
Proof.
  intros H Hx.
  destruct s; cbn [exec writes] in *; returned H;
    try (match type of H with
         | context [match ?t with _ => _ end] => destruct t
         end);
    try (match type of H with
         | context [match ?t with _ => _ end] => destruct t
         end);
    try (match type of H with
         | context [match ?t with _ => _ end] => destruct t
         end);
    try (match type of H with
         | context [match ?t with _ => _ end] => destruct t
         end);
    try discriminate H;
    unfold mret, M_ret in H; injection H as <- <-;
    repeat (apply not_elem_of_cons in Hx as [? Hx]);
    by rewrite ?lookup_insert_ne.
Qed.

Lemma completes_frame lib script g m g' m' x :
  completes lib script g m g' m' →
  x ∉ flat_map writes script →
  g' !! x = g !! x.
Proof.
  unfold completes. revert g m.
  induction script as [|s script IH]; intros g m H Hx.
  - simpl in H. by injection H as <- <-.
  - cbn [flat_map] in Hx. apply not_elem_of_app in Hx as [Hs Hx].
    apply run_cons_ok_inv in H as (g1 & m1 & t & Hexec & Hrun).
    rewrite <- (exec_frame _ _ _ _ _ _ _ Hexec Hs).
    apply (IH g1 m1); [|exact Hx].
    pose proof (run_ok_entered_all lib script g1 m1 g') as Hall.
    rewrite Hrun in Hall. simpl in Hall. by rewrite Hrun, Hall.
Qed.

Lemma keeps_refl m : keeps m m.
Proof. by intros l df. Qed.

Lemma keeps_trans m1 m2 m3 : keeps m1 m2 → keeps m2 m3 → keeps m1 m3.
Proof. intros H1 H2 l df H. by apply H2, H1. Qed.

Lemma alloc_keeps df m :
  ∃ l m', alloc df m = (Ok l, m')
          ∧ heap m' !! l = Some df
          ∧ files m' = files m
          ∧ keeps m m'.
Proof.
  eexists _, _. split; [reflexivity|]. simpl.
  split; [apply lookup_insert_eq|]. split; [done|].
  intros l0 df0 H0. simpl. rewrite lookup_insert_ne; [done|].
  by eapply fresh_loc_ne.
Qed.

Lemma exec_train_test_split lib dst1 dst2 src (g : Globals) m l df
    part1 part2 :
  g !! src = Some (VRef l) →
  heap m !! l = Some df →
  train_test_split lib df (2 / 10)%R = Ok (part1, part2) →
  ∃ l1 l2 m',
    exec lib (S_train_test_split dst1 dst2 src) g m
    = (Ok (<[dst2 := VRef l2]> (<[dst1 := VRef l1]> g)), m')
    ∧ heap m' !! l1 = Some part1
    ∧ heap m' !! l2 = Some part2
    ∧ keeps m m'.
Proof.
  intros Hg Hl Hsplit.
  destruct (alloc_keeps part1 m) as (l1 & m1 & Ha1 & Hl1 & _ & Hk1).
  destruct (alloc_keeps part2 m1) as (l2 & m2 & Ha2 & Hl2 & _ & Hk2).
  exists l1, l2, m2. split; [|split; [by apply Hk2|split; [done|]]].
  - unfold exec.
    rewrite (bind_ok _ _ m l m) by by apply get_ref_ok.
    rewrite (bind_ok _ _ m df m) by by apply deref_ok.
    rewrite (bind_ok _ _ m (part1, part2) m)
      by (unfold lift; by rewrite Hsplit).
    cbn [fst snd].
    rewrite (bind_ok _ _ m l1 m1) by done.
    by rewrite (bind_ok _ _ m1 l2 m2).
  - by eapply keeps_trans.
Qed.

Lemma exec_print_len lib src (g : Globals) m l df :
  g !! src = Some (VRef l) →
  heap m !! l = Some df →
  exec lib (S_print_len src) g m = (Ok g, m).
Proof.
  intros Hg Hl. unfold exec.
  rewrite (bind_ok _ _ m l m) by by apply get_ref_ok.
  by rewrite (bind_ok _ _ m df m) by by apply deref_ok.
Qed.

Lemma exec_wrap lib dst src sk bk (g : Globals) m l df bs :
  g !! src = Some (VRef l) →
  heap m !! l = Some df →
  has_col "target" df = true →
  tensorable df = true →
  0 < len df →
  0 < bs →
  match bk with
  | Some x => g !! x = Some (VNat bs)
  | None => bs = default_batch_size
  end →
  ∃ labels m',
    getitem df "target" = Ok labels
    ∧ exec lib (S_df_to_dataset dst src sk bk) g m
      = (Ok (<[dst := VDataset
                 (wrapped (default default_shuffle sk) (len df) bs bs
                    (source_of df labels))]> g), m')
    ∧ keeps m m'
    ∧ files m' = files m.
Proof.
  intros Hg Hl Ht Hconv Hrows Hpos Hbs. unfold has_col in Ht.
  destruct (lookup_col "target" (cols df)) as [labels|] eqn:E; [|done].
  assert (getitem df "target" = Ok labels) as Hget.
  { unfold getitem. by rewrite E. }
  exists labels,
    (mkMem (<[fresh (dom (heap m)) := popped df]> (heap m)) (files m)).
  split; [done|]. split; [|split; [|done]].
  - unfold exec.
    rewrite (bind_ok _ _ m l m) by by apply get_ref_ok.
    rewrite (bind_ok _ _ m bs m).
    2:{ destruct bk as [x|]; [by apply get_nat_ok|by subst]. }
    erewrite bind_ok by by eapply df_to_dataset_returns.
    done.
  - intros l0 df0 H0. simpl. rewrite lookup_insert_ne; [done|].
    by eapply fresh_loc_ne.
Qed.

(** Cells 4 to 7: load, label and split. *)
Lemma cells_4_to_7_complete lib csv speed rest test train val :
  get_file lib "petfinder_mini.zip" dataset_url = Ok tt →
  read_csv lib csv_file = Ok csv →
  getitem csv "AdoptionSpeed" = Ok speed →
  length speed = len csv →
  has_col "Description" csv = true →
  train_test_split lib (trimmed (labelled csv speed)) (2 / 10)%R
  = Ok (rest, test) →
  train_test_split lib rest (2 / 10)%R = Ok (train, val) →
  ∃ g m l_train l_val l_test,
    completes lib (cell_4 ++ cell_5 ++ cell_6 ++ cell_7) ∅ empty_mem g m
    ∧ g !! "train" = Some (VRef l_train)
    ∧ heap m !! l_train = Some train
    ∧ g !! "val" = Some (VRef l_val)
    ∧ heap m !! l_val = Some val
    ∧ g !! "test" = Some (VRef l_test)
    ∧ heap m !! l_test = Some test.
Proof.
  intros Hget Hread Hspeed Hlen Hdesc Hsplit1 Hsplit2.
  (* cell 4 *)
  destruct (alloc_keeps csv empty_mem) as (l0 & m0 & Ha0 & Hl0 & _ & _).
  set (g0 := <["dataframe" := VRef l0]> (∅ : Globals)).
  assert (completes lib cell_4 ∅ empty_mem g0 m0) as H4.
  { eapply completes_cons.
    { unfold exec. unfold lift, mbind, M_bind. by rewrite Hget. }
    eapply completes_cons; [|apply completes_nil].
    unfold exec.
    rewrite (bind_ok _ _ empty_mem csv empty_mem)
      by (unfold lift; by rewrite Hread).
    by rewrite (bind_ok _ _ empty_mem l0 m0). }
  (* cell 5 *)
  assert (completes lib cell_5 g0 m0 g0 m0) as H5.
  { eapply completes_cons; [|apply completes_nil].
    unfold exec.
    rewrite (bind_ok _ _ m0 l0 m0)
      by (apply get_ref_ok; apply lookup_insert_eq).
    by rewrite (bind_ok _ _ m0 csv m0) by by apply deref_ok. }
  (* cell 6 *)
  pose proof (cell_6_runs lib g0 m0 l0 csv speed
                (lookup_insert_eq _ _ _) Hl0 Hspeed Hlen Hdesc) as H6.
  cbv zeta in H6.
  set (m1 := mkMem (<[l0 := labelled csv speed]> (heap m0)) (files m0)) in *.
  set (l1 := fresh (dom (heap m1))) in *.
  set (m2 := mkMem (<[l1 := trimmed (labelled csv speed)]> (heap m1))
               (files m1)) in *.
  set (g2 := <["dataframe" := VRef l1]> g0) in *.
  (* cell 7 *)
  destruct (exec_train_test_split lib "train" "test" "dataframe" g2 m2 l1
              _ rest test (lookup_insert_eq _ _ _)
              (lookup_insert_eq _ _ _) Hsplit1)
    as (la & lb & m3 & E1 & Hla & Hlb & Hk3).
  set (g3 := <["test" := VRef lb]> (<["train" := VRef la]> g2)) in *.
  destruct (exec_train_test_split lib "train" "val" "train" g3 m3 la
              rest train val ltac:(subst g3; lookup_globals) Hla Hsplit2)
    as (lc & ld & m4 & E2 & Hlc & Hld & Hk4).
  set (g4 := <["val" := VRef ld]> (<["train" := VRef lc]> g3)) in *.
  assert (completes lib cell_7 g2 m2 g4 m4) as H7.
  { eapply completes_cons; [exact E1|].
    eapply completes_cons; [exact E2|].
    eapply completes_cons.
    { eapply exec_print_len; [subst g4; lookup_globals|exact Hlc]. }
    eapply completes_cons.
    { eapply exec_print_len; [subst g4; lookup_globals|exact Hld]. }
    eapply completes_cons; [|apply completes_nil].
    eapply exec_print_len; [subst g4 g3; lookup_globals|by apply Hk4]. }
  exists g4, m4, lc, ld, lb.
  split.
  { eapply completes_app; [exact H4|].
    eapply completes_app; [exact H5|].
    eapply completes_app; [exact H6|exact H7]. }
  split; [subst g4; lookup_globals|]. split; [exact Hlc|].
  split; [subst g4; lookup_globals|]. split; [exact Hld|].
  split; [subst g4 g3; lookup_globals|]. by apply Hk4.
Qed.

(** *** The demonstration cells *)

Lemma row_tensor features labels name col i :
  lookup_col name features = Some col →
  tensor_under name (row features labels i)
  = T0 (default (CInt 0) (col !! i)).
Proof.
  intros Hcol. unfold tensor_under, row.
  assert (lookup_feature name
            (List.map (λ p : string * list Cell,
                         (p.1, T0 (default (CInt 0) (p.2 !! i)))) features)
          = Ok (T0 (default (CInt 0) (col !! i)))) as ->; [|done].
  induction features as [|[c v] features IH]; [done|].
  simpl in *. destruct (String.eqb name c); [by injection Hcol as ->|].
  by apply IH.
Qed.

(** Under a column, a batch of rows holds a vector of values of the
    column. *)
Lemma group_tensor features labels group name col :
  Forall (λ e, ∃ i, i < length labels ∧ e = row features labels i)
         group →
  same_length (length labels) features = true →
  lookup_col name features = Some col →
  ∃ vs, TN (List.map (tensor_under name) group) = vec vs
        ∧ Forall (λ v, v ∈ col) vs.
Proof.
  intros Hrows Hwf Hcol.
  pose proof (same_length_lookup _ _ _ _ Hwf Hcol) as Hlen.
  induction Hrows as [|e group (i & Hi & ->) _ (vs & Hvs & Hin)].
  - by exists [].
  - destruct (lookup_lt_is_Some_2 col i) as [c Hc]; [lia|].
    exists (c :: vs). split.
    + unfold vec in *. cbn [List.map].
      rewrite (row_tensor _ _ _ _ _ Hcol), Hc. simpl.
      by injection Hvs as ->.
    + constructor; [|done]. by eapply list_elem_of_lookup_2.
Qed.

Lemma Normalization_call_vec l vs :
  Forall (λ v, is_int v = true) vs →
  Normalization_call l (vec vs)
  = Ok (vec (List.map (λ v, normalize l (float_of v)) vs)).
Proof.
  intros H. unfold Normalization_call, vec. cbn [tmapM].
  rewrite list_mapM_map.
  rewrite (list_mapM_ok_map _ (λ v, T0 (normalize l (float_of v)))).
  - rewrite res_bind_ok. by rewrite List.map_map.
  - eapply Forall_impl; [exact H|]. by intros [z|s].
Qed.

Lemma accepts_int dtype v :
  dtype ≠ "string" → is_int v = true → accepts (kind_for dtype) v = true.
Proof.
  intros Hne Hv. unfold kind_for. apply String.eqb_neq in Hne as ->.
  by destruct v.
Qed.

Lemma accepts_str v : is_int v = false → accepts (kind_for "string") v = true.
Proof. by destruct v. Qed.

Lemma popped_column df c col :
  c ≠ "target" →
  lookup_col c (cols df) = Some col →
  lookup_col c (cols (popped df)) = Some col.
Proof.
  intros Hne Hcol. unfold popped. cbn [cols].
  rewrite lookup_col_remove_notin; [done|]. intros [H|[]]. congruence.
Qed.

Lemma cell_9_completes lib (g : Globals) m l train labels :
  g !! "train" = Some (VRef l) →
  heap m !! l = Some train →
  getitem train "target" = Ok labels →
  tensorable train = true →
  0 < len train →
  ∃ g' m',
    completes lib cell_9 g m g' m'
    ∧ g' !! "train_ds"
      = Some (VDataset (wrapped true (len train) 32 32
                          (source_of train labels)))
    ∧ keeps m m'
    ∧ files m' = files m.
Proof.
  intros Hg Hl Ht Hconv Hrows. eexists _, _.
  split; [exact (cell_9_runs lib g m l train labels Hg Hl Ht Hconv Hrows)|].
  split; [lookup_globals|]. split; [|done].
  intros l0 df0 H0. simpl. rewrite lookup_insert_ne; [done|].
  by eapply fresh_loc_ne.
Qed.

Lemma first_batch_feature train labels x y name col :
  first_batch_of train labels x y →
  well_formed train = true →
  getitem train "target" = Ok labels →
  name ≠ "target" →
  lookup_col name (cols train) = Some col →
  ∃ vs, lookup_feature name x = Ok (vec vs) ∧ Forall (λ v, v ∈ col) vs.
Proof.
  intros (group & Hrows & -> & _) Hwf Ht Hne Hcol.
  pose proof (popped_column _ _ _ Hne Hcol) as Hcol'.
  destruct (group_tensor _ _ _ _ _ Hrows (popped_same_length _ _ Hwf Ht)
              Hcol') as (vs & Hvs & Hin).
  exists vs. split; [|done].
  rewrite (lookup_feature_tabulate name _
             (λ k, TN (List.map (tensor_under k) group))).
  - by rewrite Hvs.
  - by eapply lookup_col_In.
Qed.

Lemma cell_10_completes lib (g : Globals) m train labels :
  (∀ es, Permutation (shuffle_order lib es) es) →
  g !! "train_ds"
  = Some (VDataset (wrapped true (len train) 32 32
                      (source_of train labels))) →
  well_formed train = true →
  getitem train "target" = Ok labels →
  0 < len train →
  int_column train "Age" →
  ∃ g' x y,
    completes lib cell_10 g m g' m
    ∧ g' !! "train_features" = Some (VFeatures x)
    ∧ first_batch_of train labels x y.
Proof.
  intros Hsigma Hds Hwf Ht Hlen (ages & Hage & _).
  pose proof (getitem_length _ _ _ Hwf Ht) as Hlabels.
  pose proof (popped_same_length _ _ Hwf Ht) as Hsame.
  assert (labels ≠ []) as Hne.
  { intros ->. simpl in Hlabels. lia. }
  destruct (first_batch (shuffle_order lib) (len train) 32 32
              (cols (popped train)) labels Hsigma Hsame ltac:(lia) Hne)
    as (group & Hit & _ & Hrows).
  set (ks := List.map fst (cols (popped train))) in *.
  set (x := List.map (λ k, (k, TN (List.map (tensor_under k) group))) ks).
  set (y := TN (List.map label_under group)).
  assert (first_batch_of train labels x y) as Hfirst.
  { by exists group. }
  set (g2 := <["label_batch" := VTensor y]>
               (<["train_features" := VFeatures x]> g)).
  exists g2, x, y. split; [|split; [subst g2; lookup_globals|done]].
  unfold cell_10.
  eapply (completes_cons _ _ _ g m g2 m).
  { unfold exec.
    erewrite bind_ok by (apply get_dataset_ok; exact Hds).
    unfold source_of. unfold lift at 1.
    unfold mbind at 1, M_bind at 1. rewrite Hit. done. }
  eapply (completes_cons _ _ _ g2 m g2 m).
  { unfold exec.
    erewrite bind_ok by (apply get_features_ok; subst g2; lookup_globals).
    done. }
  eapply (completes_cons _ _ _ g2 m g2 m).
  { unfold exec.
    erewrite bind_ok by (apply get_features_ok; subst g2; lookup_globals).
    destruct (first_batch_feature train labels x y "Age" ages
                Hfirst Hwf Ht ltac:(done) Hage) as (vs & Hvs & _).
    unfold lift. unfold mbind, M_bind. by rewrite Hvs. }
  eapply (completes_cons _ _ _ g2 m g2 m); [|apply completes_nil].
  unfold exec.
  erewrite bind_ok by (apply var_ok; subst g2; lookup_globals).
  done.
Qed.

Lemma cell_12_completes lib (g : Globals) m train labels x y photos :
  (∀ es, Permutation (shuffle_order lib es) es) →
  g !! "train_ds"
  = Some (VDataset (wrapped true (len train) 32 32
                      (source_of train labels))) →
  g !! "train_features" = Some (VFeatures x) →
  first_batch_of train labels x y →
  well_formed train = true →
  getitem train "target" = Ok labels →
  lookup_col "PhotoAmt" (cols train) = Some photos →
  Forall (λ v, is_int v = true) photos →
  ∃ g', completes lib cell_12 g m g' m.
Proof.
  intros Hsigma Hds Hx Hfirst Hwf Ht Hcol Hint.
  destruct (first_batch_feature train labels x y "PhotoAmt" photos
              Hfirst Hwf Ht ltac:(done) Hcol) as (vs & Hvs & Hin).
  set (layer := adapt_statistics (List.map float_of photos)).
  set (g1 := <["photo_count_col" := VTensor (vec vs)]> g).
  set (g2 := <["layer" := VNormalization layer]> g1).
  exists g2. unfold cell_12.
  eapply (completes_cons _ _ _ g m g1 m).
  { unfold exec.
    erewrite bind_ok by (apply get_features_ok; exact Hx).
    unfold lift. unfold mbind, M_bind. by rewrite Hvs. }
  eapply (completes_cons _ _ _ g1 m g2 m).
  { unfold exec.
    erewrite bind_ok
      by (apply get_dataset_ok; subst g1; lookup_globals).
    unfold source_of, lift. unfold mbind, M_bind.
    rewrite (get_normalization_layer_of_column (shuffle_order lib)
               "PhotoAmt" (cols (popped train)) labels photos
               true (len train) 32 32 Hsigma
               (popped_same_length _ _ Hwf Ht)
               (popped_column train "PhotoAmt" photos ltac:(done) Hcol)
               Hint ltac:(lia)).
    done. }
  eapply (completes_cons _ _ _ g2 m g2 m); [|apply completes_nil].
  unfold exec.
  erewrite bind_ok by (apply var_ok; subst g2; lookup_globals).
  erewrite bind_ok by (apply var_ok; subst g2 g1; lookup_globals).
  cbn [apply_layer]. unfold lift. unfold mbind, M_bind.
  rewrite Normalization_call_vec; [done|].
  apply Forall_forall. intros v Hv.
  rewrite Forall_forall in Hin, Hint. by apply Hint, Hin.
Qed.

(** A cell that takes a column of the batch, builds the category layer of
    that column and applies it to the batch (cells 14 and 15). *)
Lemma category_demonstration_completes lib (g : Globals) m train labels x y
    col_var layer_var name dtype max_tokens col :
  (∀ es, Permutation (shuffle_order lib es) es) →
  g !! "train_ds"
  = Some (VDataset (wrapped true (len train) 32 32
                      (source_of train labels))) →
  g !! "train_features" = Some (VFeatures x) →
  first_batch_of train labels x y →
  well_formed train = true →
  getitem train "target" = Ok labels →
  name ≠ "target" →
  lookup_col name (cols train) = Some col →
  Forall (λ v, accepts (kind_for dtype) v = true) col →
  (∀ n, max_tokens = Some n → 1 < n) →
  col_var ≠ "train_ds" →
  layer_var ≠ col_var →
  ∃ g',
    completes lib
      [ S_getitem col_var "train_features" name;
        S_get_category_encoding_layer layer_var name "train_ds" dtype
                                      max_tokens;
        S_apply None layer_var col_var ] g m g' m.
Proof.
  intros Hsigma Hds Hx Hfirst Hwf Ht Hname Hcol Hacc Hmax Hv1 Hv2.
  destruct (first_batch_feature train labels x y name col
              Hfirst Hwf Ht Hname Hcol) as (vs & Hvs & Hin).
  set (layer := mkCategoryLayer
                  (mkIndexLookup (kind_for dtype) max_tokens
                     (learn_vocabulary max_tokens col))
                  (mkCategoryEncoding
                     (S (length (learn_vocabulary max_tokens col))))).
  set (g1 := <[col_var := VTensor (vec vs)]> g).
  set (g2 := <[layer_var := VCategoryLayer layer]> g1).
  exists g2.
  eapply (completes_cons _ _ _ g m g1 m).
  { unfold exec.
    erewrite bind_ok by (apply get_features_ok; exact Hx).
    unfold lift. unfold mbind, M_bind. by rewrite Hvs. }
  eapply (completes_cons _ _ _ g1 m g2 m).
  { unfold exec.
    erewrite bind_ok
      by (apply get_dataset_ok; subst g1;
          rewrite lookup_insert_ne by done; exact Hds).
    unfold source_of, lift. unfold mbind, M_bind.
    rewrite (get_category_encoding_layer_of_column (shuffle_order lib)
               name (cols (popped train)) labels col
               true (len train) 32 32 dtype max_tokens Hsigma
               (popped_same_length _ _ Hwf Ht)
               (popped_column _ _ _ Hname Hcol) Hacc ltac:(lia) Hmax).
    done. }
  eapply (completes_cons _ _ _ g2 m g2 m); [|apply completes_nil].
  unfold exec.
  erewrite bind_ok by (apply var_ok; subst g2; apply lookup_insert_eq).
  erewrite bind_ok
    by (apply var_ok; subst g2 g1; rewrite lookup_insert_ne by done;
        apply lookup_insert_eq).
  cbn [apply_layer]. unfold lift. unfold mbind, M_bind.
  rewrite CategoryLayer_call_vec; [done| |done].
  apply Forall_forall. intros v Hv. cbn [layer index_layer kind].
  rewrite Forall_forall in Hin, Hacc. by apply Hacc, Hin.
Qed.

Lemma trainable_label train :
  trainable train → ∃ labels, getitem train "target" = Ok labels.
Proof.
  intros (_ & _ & Ht & _). unfold has_col in Ht. unfold getitem.
  destruct (lookup_col "target" (cols train)); [by eexists|done].
Qed.

Lemma demonstration_completes lib (g : Globals) m l train :
  (∀ es, Permutation (shuffle_order lib es) es) →
  g !! "train" = Some (VRef l) →
  heap m !! l = Some train →
  trainable train →
  ∃ g' m',
    completes lib demonstration g m g' m'
    ∧ keeps m m'
    ∧ files m' = files m.
Proof.
  intros Hsigma Hg Hl Htrain.
  destruct (trainable_label _ Htrain) as [labels Ht].
  destruct Htrain as (Hwf & Hlen & _ & Hints & Hstrs & Hconv).
  apply Forall_cons in Hints as [Hage Hints].
  apply Forall_cons in Hints as [(photos & Hphotos & Hpint) _].
  apply Forall_cons in Hstrs as [(types & Htypes & Htstr) _].
  destruct (cell_9_completes lib g m l train labels Hg Hl Ht Hconv Hlen)
    as (g9 & m9 & H9 & Hds & Hkeep & Hfiles).
  destruct (cell_10_completes lib g9 m9 train labels Hsigma Hds Hwf Ht Hlen
              Hage) as (g10 & x & y & H10 & Hx & Hfirst).
  assert (g10 !! "train_ds"
          = Some (VDataset (wrapped true (len train) 32 32
                              (source_of train labels)))) as Hds10.
  { rewrite (completes_frame _ _ _ _ _ _ "train_ds" H10); [done|].
    compute_done. }
  destruct (cell_12_completes lib g10 m9 train labels x y photos Hsigma
              Hds10 Hx Hfirst Hwf Ht Hphotos Hpint) as (g12 & H12).
  assert (g12 !! "train_ds"
          = Some (VDataset (wrapped true (len train) 32 32
                              (source_of train labels)))
          ∧ g12 !! "train_features" = Some (VFeatures x)) as [Hds12 Hx12].
  { split.
    - rewrite (completes_frame _ _ _ _ _ _ "train_ds" H12); [done|].
      compute_done.
    - rewrite (completes_frame _ _ _ _ _ _ "train_features" H12); [done|].
      compute_done. }
  assert (Forall (λ v, accepts (kind_for "string") v = true) types)
    as Htacc.
  { eapply Forall_impl; [exact Htstr|]. intros v. apply accepts_str. }
  destruct (category_demonstration_completes lib g12 m9 train labels x y
              "type_col" "layer" "Type" "string" None types Hsigma Hds12
              Hx12 Hfirst Hwf Ht ltac:(done) Htypes Htacc ltac:(done)
              ltac:(done) ltac:(done))
    as (g14 & H14).
  fold cell_14 in H14.
  assert (g14 !! "train_ds"
          = Some (VDataset (wrapped true (len train) 32 32
                              (source_of train labels)))
          ∧ g14 !! "train_features" = Some (VFeatures x)) as [Hds14 Hx14].
  { split.
    - rewrite (completes_frame _ _ _ _ _ _ "train_ds" H14); [done|].
      compute_done.
    - rewrite (completes_frame _ _ _ _ _ _ "train_features" H14); [done|].
      compute_done. }
  destruct Hage as (ages & Hages & Haint).
  assert (Forall (λ v, accepts (kind_for "int64") v = true) ages)
    as Haacc.
  { eapply Forall_impl; [exact Haint|]. intros v. by apply accepts_int. }
  assert (∀ n, Some 5 = Some n → 1 < n) as Hmax.
  { intros n [= <-]. lia. }
  destruct (category_demonstration_completes lib g14 m9 train labels x y
              "type_col" "category_encoding_layer" "Age" "int64" (Some 5)
              ages Hsigma Hds14 Hx14 Hfirst Hwf Ht ltac:(done) Hages Haacc
              Hmax ltac:(done) ltac:(done))
    as (g15 & H15).
  fold cell_15 in H15.
  exists g15, m9. split; [|done].
  unfold demonstration.
  eapply completes_app; [exact H9|].
  eapply completes_app; [exact H10|].
  eapply completes_app; [exact H12|].
  eapply completes_app; [exact H14|exact H15].
Qed.

Lemma cell_16_completes lib (g : Globals) m l_train l_val l_test
    train val test :
  g !! "train" = Some (VRef l_train) →
  heap m !! l_train = Some train →
  g !! "val" = Some (VRef l_val) →
  heap m !! l_val = Some val →
  g !! "test" = Some (VRef l_test) →
  heap m !! l_test = Some test →
  held_out train →
  held_out val →
  held_out test →
  ∃ g' m' labels d_val d_test,
    completes lib cell_16 g m g' m'
    ∧ getitem train "target" = Ok labels
    ∧ g' !! "train_ds"
      = Some (VDataset (wrapped true (len train) 256 256
                          (source_of train labels)))
    ∧ g' !! "val_ds" = Some (VDataset d_val)
    ∧ g' !! "test_ds" = Some (VDataset d_test)
    ∧ files m' = files m.
Proof.
  intros Hgt Hlt Hgv Hlv Hgte Hlte (Hrt & Ht & Hct) (Hrv & Hv & Hcv)
         (Hrte & Hte & Hcte).
  set (g0 := <["batch_size" := VNat 256]> g).
  destruct (exec_wrap lib "train_ds" "train" None (Some "batch_size") g0 m
              l_train train 256) as (labels & m1 & Hlabels & E1 & K1 & F1);
    [subst g0; lookup_globals|done|done|done|done|lia
    |subst g0; lookup_globals|].
  set (g1 := <["train_ds" := _]> g0) in E1.
  destruct (exec_wrap lib "val_ds" "val" (Some false) (Some "batch_size")
              g1 m1 l_val val 256) as (lv & m2 & _ & E2 & K2 & F2);
    [subst g1 g0; lookup_globals|by apply K1|done|done|done|lia
    |subst g1 g0; lookup_globals|].
  set (g2 := <["val_ds" := _]> g1) in E2.
  destruct (exec_wrap lib "test_ds" "test" (Some false) (Some "batch_size")
              g2 m2 l_test test 256) as (lte & m3 & _ & E3 & K3 & F3);
    [subst g2 g1 g0; lookup_globals|by apply K2, K1|done|done|done|lia
    |subst g2 g1 g0; lookup_globals|].
  set (g3 := <["test_ds" := _]> g2) in E3.
  exists g3, m3, labels. eexists _, _.
  split; [|split; [exact Hlabels|split; [|split; [|split]]]].
  - unfold cell_16.
    eapply (completes_cons _ _ _ g m g0 m); [reflexivity|].
    eapply completes_cons; [exact E1|].
    eapply completes_cons; [exact E2|].
    eapply completes_cons; [exact E3|apply completes_nil].
  - subst g3 g2 g1. lookup_globals.
  - subst g3 g2. lookup_globals.
  - subst g3. lookup_globals.
  - congruence.
Qed.

(** *** The cells that build the model *)

Lemma numeric_body_completes lib (g : Globals) m train labels header col
    ins feats :
  (∀ es, Permutation (shuffle_order lib es) es) →
  let d := wrapped true (len train) 256 256 (source_of train labels) in
  building d ins feats g →
  well_formed train = true →
  getitem train "target" = Ok labels →
  header ≠ "target" →
  lookup_col header (cols train) = Some col →
  Forall (λ v, is_int v = true) col →
  ∃ g' x,
    completes lib (numeric_body header) g m g' m
    ∧ building d (ins ++ [Input header None]) (feats ++ [x]) g'.
Proof.
  intros Hsigma d (Hd & Hins & Hfeats) Hwf Ht Hne Hcol Hint.
  set (layer := adapt_statistics (List.map float_of col)).
  set (g1 := <["numeric_col" := VSym (Input header None)]> g).
  set (g2 := <["normalization_layer" := VNormalization layer]> g1).
  set (g3 := <["encoded_numeric_col" :=
                 VSym (Normalize layer (Input header None))]> g2).
  set (g4 := <["all_inputs" := VSyms (ins ++ [Input header None])]> g3).
  set (g5 := <["encoded_features" :=
                 VSyms (feats ++ [Normalize layer (Input header None)])]>
               g4).
  exists g5, (Normalize layer (Input header None)). split.
  - unfold numeric_body.
    eapply (completes_cons _ _ _ g m g1 m); [reflexivity|].
    eapply (completes_cons _ _ _ g1 m g2 m).
    { unfold exec.
      erewrite bind_ok
        by (apply get_dataset_ok; subst g1; lookup_globals).
      unfold d, source_of, lift. unfold mbind, M_bind.
      rewrite (get_normalization_layer_of_column (shuffle_order lib)
                 header (cols (popped train)) labels col
                 true (len train) 256 256 Hsigma
                 (popped_same_length _ _ Hwf Ht)
                 (popped_column train header col Hne Hcol)
                 Hint ltac:(lia)).
      done. }
    eapply (completes_cons _ _ _ g2 m g3 m).
    { apply exec_apply_normalization; subst g2 g1; lookup_globals. }
    eapply (completes_cons _ _ _ g3 m g4 m).
    { apply exec_append; subst g3 g2 g1; lookup_globals. }
    eapply (completes_cons _ _ _ g4 m g5 m); [|apply completes_nil].
    apply exec_append; subst g4 g3 g2 g1; lookup_globals.
  - subst g5 g4 g3 g2 g1. repeat split; lookup_globals.
Qed.

(** The five statements that declare an input, build the category layer
    of its column and collect both. *)
Ltac encoding_steps lib g m train labels header dtype col ins feats
    in_var enc_var Hsigma Hwf Ht Hne Hcol Hacc :=
  let layer := constr:(mkCategoryLayer
                  (mkIndexLookup (kind_for dtype) (Some 5)
                     (learn_vocabulary (Some 5) col))
                  (mkCategoryEncoding
                     (S (length (learn_vocabulary (Some 5) col))))) in
  let x := constr:(Encode (index_layer layer) (encoder_layer layer)
                          (Input header (Some dtype))) in
  set (g1 := <[in_var := VSym (Input header (Some dtype))]> g);
  set (g2 := <["encoding_layer" := VCategoryLayer layer]> g1);
  set (g3 := <[enc_var := VSym x]> g2);
  set (g4 := <["all_inputs" :=
                 VSyms (ins ++ [Input header (Some dtype)])]> g3);
  set (g5 := <["encoded_features" := VSyms (feats ++ [x])]> g4);
  exists g5, x; split;
  [ eapply (completes_cons _ _ _ g m g1 m); [reflexivity|];
    eapply (completes_cons _ _ _ g1 m g2 m);
    [ unfold exec;
      erewrite bind_ok
        by (apply get_dataset_ok; subst g1; lookup_globals);
      unfold source_of, lift; unfold mbind, M_bind;
      rewrite (get_category_encoding_layer_of_column (shuffle_order lib)
                 header (cols (popped train)) labels col
                 true (len train) 256 256 dtype (Some 5) Hsigma
                 (popped_same_length _ _ Hwf Ht)
                 (popped_column train header col Hne Hcol)
                 Hacc ltac:(lia)
                 ltac:(intros ? [= <-]; lia));
      done |];
    eapply (completes_cons _ _ _ g2 m g3 m);
    [ apply exec_apply_category; subst g2 g1; lookup_globals |];
    eapply (completes_cons _ _ _ g3 m g4 m);
    [ apply exec_append; subst g3 g2 g1; lookup_globals |];
    eapply (completes_cons _ _ _ g4 m g5 m); [|apply completes_nil];
    apply exec_append; subst g4 g3 g2 g1; lookup_globals
  | subst g5 g4 g3 g2 g1; repeat split; lookup_globals ].

Lemma cell_18_completes lib (g : Globals) m train labels col ins feats :
  (∀ es, Permutation (shuffle_order lib es) es) →
  let d := wrapped true (len train) 256 256 (source_of train labels) in
  building d ins feats g →
  well_formed train = true →
  getitem train "target" = Ok labels →
  lookup_col "Age" (cols train) = Some col →
  Forall (λ v, is_int v = true) col →
  ∃ g' x,
    completes lib cell_18 g m g' m
    ∧ building d (ins ++ [Input "Age" (Some "int64")]) (feats ++ [x]) g'.
Proof.
  intros Hsigma d (Hd & Hins & Hfeats) Hwf Ht Hcol Hint.
  assert ("Age" ≠ "target") as Hne by done.
  assert (Forall (λ v, accepts (kind_for "int64") v = true) col) as Hacc.
  { eapply Forall_impl; [exact Hint|]. intros v. by apply accepts_int. }
  unfold cell_18, d in *.
  encoding_steps lib g m train labels "Age" "int64" col ins feats
    "age_col" "encoded_age_col" Hsigma Hwf Ht Hne Hcol Hacc.
Qed.

Lemma categorical_body_completes lib (g : Globals) m train labels header
    col ins feats :
  (∀ es, Permutation (shuffle_order lib es) es) →
  let d := wrapped true (len train) 256 256 (source_of train labels) in
  building d ins feats g →
  well_formed train = true →
  getitem train "target" = Ok labels →
  header ≠ "target" →
  lookup_col header (cols train) = Some col →
  Forall (λ v, is_int v = false) col →
  ∃ g' x,
    completes lib (categorical_body header) g m g' m
    ∧ building d (ins ++ [Input header (Some "string")]) (feats ++ [x]) g'.
Proof.
  intros Hsigma d (Hd & Hins & Hfeats) Hwf Ht Hne Hcol Hstr.
  assert (Forall (λ v, accepts (kind_for "string") v = true) col) as Hacc.
  { eapply Forall_impl; [exact Hstr|]. intros v. apply accepts_str. }
  unfold categorical_body, d in *.
  encoding_steps lib g m train labels header "string" col ins feats
    "categorical_col" "encoded_categorical_col" Hsigma Hwf Ht Hne Hcol Hacc.
Qed.

Lemma numeric_loop_completes lib train labels headers :
  (∀ es, Permutation (shuffle_order lib es) es) →
  let d := wrapped true (len train) 256 256 (source_of train labels) in
  well_formed train = true →
  getitem train "target" = Ok labels →
  Forall (λ h, h ≠ "target" ∧ int_column train h) headers →
  ∀ (g : Globals) m ins feats,
    building d ins feats g →
    ∃ g' ins' feats',
      completes lib (flat_map numeric_body headers) g m g' m
      ∧ building d ins' feats' g'.
Proof.
  intros Hsigma d Hwf Ht Hall.
  induction Hall as [|h headers (Hne & col & Hcol & Hint) _ IH];
    intros g m ins feats Hb.
  - exists g, ins, feats. split; [apply completes_nil|done].
  - destruct (numeric_body_completes lib g m train labels h col ins feats
                Hsigma Hb Hwf Ht Hne Hcol Hint) as (g1 & x & H1 & Hb1).
    destruct (IH g1 m _ _ Hb1) as (g2 & ins' & feats' & H2 & Hb2).
    exists g2, ins', feats'. split; [|done].
    cbn [flat_map]. by eapply completes_app.
Qed.

Lemma categorical_loop_completes lib train labels headers :
  (∀ es, Permutation (shuffle_order lib es) es) →
  let d := wrapped true (len train) 256 256 (source_of train labels) in
  well_formed train = true →
  getitem train "target" = Ok labels →
  Forall (λ h, h ≠ "target" ∧ str_column train h) headers →
  ∀ (g : Globals) m ins feats,
    building d ins feats g →
    ∃ g' ins' feats',
      completes lib (flat_map categorical_body headers) g m g' m
      ∧ building d ins' feats' g'.
Proof.
  intros Hsigma d Hwf Ht Hall.
  induction Hall as [|h headers (Hne & col & Hcol & Hstr) _ IH];
    intros g m ins feats Hb.
  - exists g, ins, feats. split; [apply completes_nil|done].
  - destruct (categorical_body_completes lib g m train labels h col ins
                feats Hsigma Hb Hwf Ht Hne Hcol Hstr)
      as (g1 & x & H1 & Hb1).
    destruct (IH g1 m _ _ Hb1) as (g2 & ins' & feats' & H2 & Hb2).
    exists g2, ins', feats'. split; [|done].
    cbn [flat_map]. by eapply completes_app.
Qed.

Lemma cells_17_to_19_complete lib (g : Globals) m train labels :
  (∀ es, Permutation (shuffle_order lib es) es) →
  g !! "train_ds"
  = Some (VDataset (wrapped true (len train) 256 256
                      (source_of train labels))) →
  trainable train →
  getitem train "target" = Ok labels →
  ∃ g' d ins feats,
    completes lib cells_17_to_19 g m g' m
    ∧ building d ins feats g'.
Proof.
  intros Hsigma Hds (Hwf & _ & _ & Hints & Hstrs & _) Ht.
  apply Forall_cons in Hints as [(ages & Hages & Haint) Hints].
  set (d := wrapped true (len train) 256 256 (source_of train labels)).
  set (g0 := <["encoded_features" := VSyms []]>
               (<["all_inputs" := VSyms []]> g)).
  assert (building d [] [] g0) as Hb0.
  { subst g0. repeat split; lookup_globals. }
  destruct (numeric_loop_completes lib train labels numeric_headers
              Hsigma Hwf Ht) with (g := g0) (m := m) (ins := @nil Sym)
              (feats := @nil Sym)
    as (g17 & ins17 & feats17 & H17 & Hb17); [|exact Hb0|].
  { assert ("target" ∉ numeric_headers) as Hnot by compute_done.
    rewrite Forall_forall in Hints. apply Forall_forall. intros h Hh.
    split; [by intros ->|by apply Hints]. }
  destruct (cell_18_completes lib g17 m train labels ages ins17 feats17
              Hsigma Hb17 Hwf Ht Hages Haint) as (g18 & x & H18 & Hb18).
  destruct (categorical_loop_completes lib train labels categorical_cols
              Hsigma Hwf Ht) with (g := g18) (m := m)
              (ins := (ins17 ++ [Input "Age" (Some "int64")])%list)
              (feats := (feats17 ++ [x])%list)
    as (g19 & ins19 & feats19 & H19 & Hb19); [|exact Hb18|].
  { assert ("target" ∉ categorical_cols) as Hnot by compute_done.
    rewrite Forall_forall in Hstrs. apply Forall_forall. intros h Hh.
    split; [by intros ->|by apply Hstrs]. }
  exists g19, d, ins19, feats19. split; [|done].
  unfold cells_17_to_19, cell_17.
  eapply completes_app.
  { eapply (completes_cons _ _ _ g m _ m); [reflexivity|].
    eapply (completes_cons _ _ _ _ m g0 m); [reflexivity|exact H17]. }
  eapply completes_app; [exact H18|exact H19].
Qed.

Lemma is_ok_returns {A} (r : Res A) : is_ok r = true → ∃ a, r = Ok a.
Proof. destruct r; [by eexists|done]. Qed.

(** Read the variables the statement of the goal needs. *)
Ltac known :=
  unfold exec;
  repeat (erewrite bind_ok
            by (first [ apply get_model_ok | apply get_dataset_ok
                      | apply get_features_ok | apply get_floats_ok
                      | apply get_sample_ok | apply get_syms_ok
                      | apply get_sym_ok | apply var_ok ];
                lookup_globals)).

(** With libraries that return, the model is built, trained, evaluated,
    saved, reloaded and asked for a prediction. *)
Lemma cells_20_to_25_complete lib (g : Globals) m d ins feats d_val d_test :
  obliging lib →
  building d ins feats g →
  g !! "val_ds" = Some (VDataset d_val) →
  g !! "test_ds" = Some (VDataset d_test) →
  ∃ g' m', completes lib cells_20_to_25 g m g' m'.
Proof.
  intros (_ & _ & Hplot & Hfit & Heval & Hsave & Hload & Hpredict)
         (Hd & Hins & Hfeats) Hval Htest.
  set (head := Dense 1 None
                 (Dropout (5 / 10)%R
                    (Dense 32 (Some "relu") (Concatenate feats)))).
  set (model := mkModel ins head
                  (Some (mkCompile "adam"
                           "BinaryCrossentropy(from_logits=True)"
                           ["accuracy"]))
                  (initializer lib head)).
  destruct (is_ok_returns _ (Hfit model d 10 d_val)) as [w Hw].
  set (fitted := mkModel ins head (compiled model) w).
  destruct (is_ok_returns _ (Heval fitted d_test)) as [la Hla].
  destruct (is_ok_returns _ (Hsave fitted)) as [saved Hsaved].
  destruct (is_ok_returns _ (Hload saved)) as [reloaded Hreloaded].
  destruct (Hpredict reloaded input_dict) as (row & rest & Hrow).
  set (m1 := mkMem (heap m) (<["my_pet_classifier" := saved]> (files m))).
  eexists _, m1. unfold cells_20_to_25, cell_20, cell_21, cell_22, cell_23,
    cell_24, cell_25. cbn [app].
  (* cell 20 *)
  eapply (completes_cons _ _ _ _ m _ m); [known; reflexivity|].
  eapply (completes_cons _ _ _ _ m _ m); [known; reflexivity|].
  eapply (completes_cons _ _ _ _ m _ m); [known; reflexivity|].
  eapply (completes_cons _ _ _ _ m _ m); [known; reflexivity|].
  eapply (completes_cons _ _ _ _ m _ m); [known; reflexivity|].
  eapply (completes_cons _ _ _ _ m _ m); [known; reflexivity|].
  (* cell 21 *)
  eapply (completes_cons _ _ _ _ m _ m).
  { known. unfold lift. unfold mbind, M_bind. by rewrite Hplot. }
  (* cell 22 *)
  eapply (completes_cons _ _ _ _ m _ m).
  { known. unfold lift. unfold mbind, M_bind.
    change (fit lib _ d 10 d_val) with (fit lib model d 10 d_val).
    rewrite Hw. reflexivity. }
  (* cell 23 *)
  eapply (completes_cons _ _ _ _ m _ m).
  { known. unfold lift. unfold mbind, M_bind.
    change (evaluate lib _ d_test) with (evaluate lib fitted d_test).
    rewrite Hla. reflexivity. }
  eapply (completes_cons _ _ _ _ m _ m); [known; reflexivity|].
  (* cell 24 *)
  eapply (completes_cons _ _ _ _ m _ m1).
  { known. unfold lift. unfold mbind, M_bind.
    change (save_model lib _) with (save_model lib fitted).
    rewrite Hsaved. reflexivity. }
  eapply (completes_cons _ _ _ _ m1 _ m1).
  { unfold exec. unfold read_file, lift. unfold mbind, M_bind.
    subst m1. cbn [files]. rewrite lookup_insert_eq, Hreloaded.
    reflexivity. }
  (* cell 25 *)
  eapply (completes_cons _ _ _ _ m1 _ m1); [known; reflexivity|].
  eapply (completes_cons _ _ _ _ m1 _ m1); [known; reflexivity|].
  eapply (completes_cons _ _ _ _ m1 _ m1).
  { known. unfold lift. unfold mbind, M_bind.
    change (List.map _ sample) with input_dict.
    rewrite Hrow. reflexivity. }
  eapply (completes_cons _ _ _ _ m1 _ m1); [known; reflexivity|].
  eapply (completes_cons _ _ _ _ m1 _ m1); [known; reflexivity|].
  apply completes_nil.
Qed.

Lemma toy_lib_obliging : obliging toy_lib.
Proof.
  split; [reflexivity|]. split.
  { intros es. symmetry. apply Permutation_rev. }
  repeat split; try done.
  intros model x. by eexists _, _.
Qed.

Lemma toy_train_trainable : trainable toy_train.
Proof.
  split; [reflexivity|]. split; [unfold len; simpl; lia|].
  split; [reflexivity|]. split.
  - repeat (apply Forall_cons_2;
            [eexists; split; [reflexivity|repeat constructor]|]).
    apply Forall_nil_2.
  - split; [|reflexivity].
    repeat (apply Forall_cons_2;
            [eexists; split; [reflexivity|repeat constructor]|]).
    apply Forall_nil_2.
Qed.

(** X21.  With libraries that do what they are asked and a CSV of the
    expected layout, the notebook runs from its first statement to its
    last: no statement of its own raises.  What is expected is that the CSV
    holds [AdoptionSpeed] and [Description], that the two splits return,
    that each of the three splits has rows and its label and converts to
    tensors (distinct column labels, every column of strings or of [int64]
    integers), and that the train split has integer columns [Age],
    [PhotoAmt] and [Fee] and the ten string columns. *)
Theorem notebook_runs_to_the_end
    (lib : Library) (csv : DataFrame) (speed : list Cell)
    (rest test train val : DataFrame) :
  obliging lib →
  read_csv lib csv_file = Ok csv →
  getitem csv "AdoptionSpeed" = Ok speed →
  length speed = len csv →
  has_col "Description" csv = true →
  train_test_split lib (trimmed (labelled csv speed)) (2 / 10)%R
  = Ok (rest, test) →
  train_test_split lib rest (2 / 10)%R = Ok (train, val) →
  trainable train →
  held_out val →
  held_out test →
  ∃ g' m', run lib notebook ∅ empty_mem = (Ok g', m', notebook).
Proof.
  intros Hlib Hread Hspeed Hlen Hdesc Hsplit1 Hsplit2 Htrain Hval Htest.
  pose proof Hlib as (Hget & Hsigma & _).
  destruct (cells_4_to_7_complete lib csv speed rest test train val
              Hget Hread Hspeed Hlen Hdesc Hsplit1 Hsplit2)
    as (g7 & m7 & lt & lv & lte & H7 & Hgt & Hlt & Hgv & Hlv & Hgte & Hlte).
  destruct (demonstration_completes lib g7 m7 lt train Hsigma Hgt Hlt
              Htrain) as (g15 & m15 & H15 & Hkeep & _).
  assert (g15 !! "train" = Some (VRef lt)
          ∧ g15 !! "val" = Some (VRef lv)
          ∧ g15 !! "test" = Some (VRef lte)) as (Hgt' & Hgv' & Hgte').
  { rewrite !(completes_frame _ _ _ _ _ _ _ H15); [done|..]; compute_done. }
  pose proof Htrain as (_ & Hrows & Htarget & _ & _ & Hconv).
  destruct (cell_16_completes lib g15 m15 lt lv lte train val test
              Hgt' (Hkeep _ _ Hlt) Hgv' (Hkeep _ _ Hlv) Hgte'
              (Hkeep _ _ Hlte) (conj Hrows (conj Htarget Hconv)) Hval Htest)
    as (g16 & m16 & labels & d_val & d_test & H16 & Hlabels & Hds & Hdv
        & Hdt & _).
  destruct (cells_17_to_19_complete lib g16 m16 train labels Hsigma Hds
              Htrain Hlabels) as (g19 & d & ins & feats & H19 & Hb).
  assert (g19 !! "val_ds" = Some (VDataset d_val)
          ∧ g19 !! "test_ds" = Some (VDataset d_test)) as [Hdv' Hdt'].
  { rewrite !(completes_frame _ _ _ _ _ _ _ H19); [done|..]; compute_done. }
  destruct (cells_20_to_25_complete lib g19 m16 d ins feats d_val d_test
              Hlib Hb Hdv' Hdt') as (g25 & m25 & H25).
  exists g25, m25.
  change notebook
    with ((cell_4 ++ cell_5 ++ cell_6 ++ cell_7)
          ++ demonstration ++ cell_16 ++ cells_17_to_19
          ++ cells_20_to_25)%list.
  eapply completes_app; [exact H7|].
  eapply completes_app; [exact H15|].
  eapply completes_app; [exact H16|].
  eapply completes_app; [exact H19|exact H25].
Qed.

Lemma notebook_runs_to_the_end_witness :
  ∃ g' m', run toy_lib notebook ∅ empty_mem = (Ok g', m', notebook).
Proof.
  apply (notebook_runs_to_the_end toy_lib toy_csv toy_speed toy_rest
           toy_test toy_train toy_val).
  - apply toy_lib_obliging.
  - reflexivity.
  - reflexivity.
  - reflexivity.
  - reflexivity.
  - reflexivity.
  - reflexivity.
  - apply toy_train_trainable.
  - split; [unfold len; simpl; lia|]. split; reflexivity.
  - split; [unfold len; simpl; lia|]. split; reflexivity.
Defined.

(** ** C10: failures of the libraries *)

Lemma void_raise {A} (r : Res A) e : void r = Raise e → r = Raise e.
Proof. destruct r; [done|]. by intros [= ->]. Qed.

Lemma lift_raise {A B} (r : Res A) (k : A → M B) m e :
  r = Raise e → (x ← lift r; k x) m = (Raise e, m).
Proof. intros ->. reflexivity. Qed.

(** The statement passes the library's exception on, and leaves the store
    as it found it. *)
Lemma call_raises lib c g m e :
  outcome lib c g m = Some (Raise e) →
  exec lib (statement_of c) g m = (Raise e, m).
Proof.
  destruct c; cbn [outcome statement_of exec];
    unfold frame_of, model_of, features_of, dataset_of.
  - intros [= H]. unfold lift, mbind, M_bind. by rewrite H.
  - intros [= H%void_raise]. by apply lift_raise.
  - destruct (g !! "dataframe") as [[]|] eqn:Hg; try done.
    destruct (heap m !! l) as [df|] eqn:Hl; [|done]. simpl.
    intros [= H%void_raise].
    rewrite (bind_ok _ _ m l m) by by apply get_ref_ok.
    rewrite (bind_ok _ _ m df m) by by apply deref_ok.
    by apply lift_raise.
  - destruct (g !! "train") as [[]|] eqn:Hg; try done.
    destruct (heap m !! l) as [df|] eqn:Hl; [|done]. simpl.
    intros [= H%void_raise].
    rewrite (bind_ok _ _ m l m) by by apply get_ref_ok.
    rewrite (bind_ok _ _ m df m) by by apply deref_ok.
    by apply lift_raise.
  - destruct (g !! "model") as [[]|] eqn:Hg; try done. simpl.
    intros [= H].
    rewrite (bind_ok _ _ m m0 m) by by apply get_model_ok.
    unfold lift, mbind, M_bind. by rewrite H.
  - destruct (g !! "model") as [[]|] eqn:Hg; try done. simpl.
    destruct (g !! "train_ds") as [[]|] eqn:Ht; try done. simpl.
    destruct (g !! "val_ds") as [[]|] eqn:Hv; try done. simpl.
    intros [= H%void_raise].
    rewrite (bind_ok _ _ m m0 m) by by apply get_model_ok.
    rewrite (bind_ok _ _ m ds m) by by apply get_dataset_ok.
    rewrite (bind_ok _ _ m ds0 m) by by apply get_dataset_ok.
    by apply lift_raise.
  - destruct (g !! "model") as [[]|] eqn:Hg; try done. simpl.
    destruct (g !! "test_ds") as [[]|] eqn:Ht; try done. simpl.
    intros [= H%void_raise].
    rewrite (bind_ok _ _ m m0 m) by by apply get_model_ok.
    rewrite (bind_ok _ _ m ds m) by by apply get_dataset_ok.
    by apply lift_raise.
  - destruct (g !! "model") as [[]|] eqn:Hg; try done. simpl.
    intros [= H%void_raise].
    rewrite (bind_ok _ _ m m0 m) by by apply get_model_ok.
    by apply lift_raise.
  - destruct (files m !! "my_pet_classifier") as [saved|] eqn:Hf; [|done].
    simpl. intros [= H%void_raise].
    rewrite (bind_ok _ _ m saved m) by (unfold read_file; by rewrite Hf).
    by apply lift_raise.
  - destruct (g !! "reloaded_model") as [[]|] eqn:Hg; try done. simpl.
    destruct (g !! "input_dict") as [[]|] eqn:Ht; try done. simpl.
    intros [= H%void_raise].
    rewrite (bind_ok _ _ m m0 m) by by apply get_model_ok.
    rewrite (bind_ok _ _ m x m) by by apply get_features_ok.
    by apply lift_raise.
Qed.

Lemma completes_app_inv lib a b g m g' m' :
  completes lib (a ++ b) g m g' m' →
  ∃ g1 m1, completes lib a g m g1 m1 ∧ completes lib b g1 m1 g' m'.
Proof.
  unfold completes. intros H.
  apply run_app_ok_inv in H as (g1 & m1 & t1 & t2 & H1 & H2).
  exists g1, m1. split.
  - pose proof (run_ok_entered_all lib a g m g1) as Ha.
    rewrite H1 in Ha. simpl in Ha. by rewrite H1, Ha.
  - pose proof (run_ok_entered_all lib b g1 m1 g') as Hb.
    rewrite H2 in Hb. simpl in Hb. by rewrite H2, Hb.
Qed.

Lemma completes_cons_inv lib s script g m g' m' :
  completes lib (s :: script) g m g' m' →
  ∃ g1 m1, exec lib s g m = (Ok g1, m1)
           ∧ completes lib script g1 m1 g' m'.
Proof.
  intros H. apply (completes_app_inv lib [s] script) in H
    as (g1 & m1 & Hs & Hrest).
  exists g1, m1. split; [|done].
  unfold completes in Hs. simpl in Hs.
  destruct (exec lib s g m) as [[g2|e] m2]; [|done].
  by injection Hs as -> ->.
Qed.

Lemma completes_snoc_inv lib pre s g m g' m' :
  completes lib (pre ++ [s]) g m g' m' →
  ∃ g1 m1, completes lib pre g m g1 m1 ∧ exec lib s g1 m1 = (Ok g', m').
Proof.
  intros H. apply completes_app_inv in H as (g1 & m1 & Hpre & Hs).
  exists g1, m1. split; [done|].
  apply completes_cons_inv in Hs as (g2 & m2 & Hs & Hnil).
  unfold completes in Hnil. simpl in Hnil. by injection Hnil as <- <-.
Qed.

(** What a statement bound is still bound when the statements that follow
    do not bind the variable anew. *)
Lemma bound_since lib pre s post x (P : Val → Prop) g0 m0 g m :
  (∀ g1 m1 g2 m2, exec lib s g1 m1 = (Ok g2, m2) →
                  ∃ v, g2 !! x = Some v ∧ P v) →
  x ∉ flat_map writes post →
  completes lib (pre ++ s :: post) g0 m0 g m →
  ∃ v, g !! x = Some v ∧ P v.
Proof.
  intros Hs Hx H.
  apply completes_app_inv in H as (g1 & m1 & _ & H).
  apply completes_cons_inv in H as (g2 & m2 & Hexec & Hpost).
  rewrite (completes_frame _ _ _ _ _ _ _ Hpost Hx).
  by eapply Hs.
Qed.

(** Invert a statement that completed. *)
Ltac completed H :=
  cbn [exec] in H; returned H;
  repeat match type of H with
         | context [match ?t with _ => _ end] => destruct t
         end;
  try discriminate H;
  unfold mret, M_ret in H; injection H as <- <-.

Lemma df_to_dataset_binds lib dst src sk bk g m g' m' :
  exec lib (S_df_to_dataset dst src sk bk) g m = (Ok g', m') →
  ∃ v, g' !! dst = Some v ∧ is_dataset v.
Proof.
  intros H. completed H. eexists. split; [apply lookup_insert_eq|].
  by eexists.
Qed.

Lemma compile_binds lib model g m g' m' :
  exec lib (S_compile model) g m = (Ok g', m') →
  ∃ v, g' !! model = Some v ∧ is_model v.
Proof.
  intros H. completed H. eexists. split; [apply lookup_insert_eq|].
  by eexists.
Qed.

Lemma fit_binds lib model train val n g m g' m' :
  exec lib (S_fit model train val n) g m = (Ok g', m') →
  ∃ v, g' !! model = Some v ∧ is_model v.
Proof.
  intros H. completed H. eexists. split; [apply lookup_insert_eq|].
  by eexists.
Qed.

Lemma load_model_binds lib dst path g m g' m' :
  exec lib (S_load_model dst path) g m = (Ok g', m') →
  ∃ v, g' !! dst = Some v ∧ is_model v.
Proof.
  intros H. completed H. eexists. split; [apply lookup_insert_eq|].
  by eexists.
Qed.

Lemma convert_to_tensor_binds lib dst src g m g' m' :
  exec lib (S_convert_to_tensor dst src) g m = (Ok g', m') →
  ∃ v, g' !! dst = Some v ∧ is_features v.
Proof.
  intros H. completed H. eexists. split; [apply lookup_insert_eq|].
  by eexists.
Qed.

(** After [drop], the variable names a frame of the store. *)
Lemma drop_unused_binds lib x g m g' m' :
  exec lib (S_drop_unused x) g m = (Ok g', m') → is_Some (frame_of g' m' x).
Proof.
  intros H. cbn [exec] in H. returned H.
  unfold mret, M_ret in H. injection H as <- <-.
  unfold drop_unused in Hc0. returned Hc0.
  unfold alloc in Hc0. injection Hc0 as <- <-.
  unfold frame_of. rewrite lookup_insert_eq. simpl.
  rewrite lookup_insert_eq. by eexists.
Qed.

Lemma train_test_split_binds lib dst1 dst2 src g m g' m' :
  dst1 ≠ dst2 →
  exec lib (S_train_test_split dst1 dst2 src) g m = (Ok g', m') →
  is_Some (frame_of g' m' dst1).
Proof.
  intros Hne H.
  apply exec_train_test_split_inv in H
    as (l & df & part1 & part2 & _ & _ & _ & H).
  cbv zeta in H. destruct H as [-> ->].
  unfold frame_of. rewrite lookup_insert_ne, lookup_insert_eq by done.
  simpl. rewrite lookup_insert_ne.
  - rewrite lookup_insert_eq. by eexists.
  - pose proof (fresh_loc_ne
                  (mkMem (<[fresh (dom (heap m)) := part1]> (heap m))
                         (files m))
                  (fresh (dom (heap m))) part1) as Hfresh.
    simpl in Hfresh. apply Hfresh, lookup_insert_eq.
Qed.

Lemma save_writes lib model path g m g' m' :
  exec lib (S_save model path) g m = (Ok g', m') →
  is_Some (files m' !! path).
Proof.
  intros H. cbn [exec] in H. returned H.
  unfold mret, M_ret in H. injection H as <- <-.
  unfold write_file in Hc1. injection Hc1 as _ <-. simpl.
  rewrite lookup_insert_eq. by eexists.
Qed.

Lemma plot_model_keeps lib model g m g' m' :
  exec lib (S_plot_model model) g m = (Ok g', m') → g' = g.
Proof. intros H. by completed H. Qed.

(** When the script has run up to a call, the statement finds what it
    passes to the library: the call is made. *)
Lemma call_is_made lib c g m :
  completes lib (before_call c) ∅ empty_mem g m →
  is_Some (outcome lib c g m).
Proof.
  destruct c; cbn [outcome]; intros H.
  - by eexists.
  - by eexists.
  - change (before_call call_split_frame)
      with (firstn 4 notebook ++ [S_drop_unused "dataframe"])%list in H.
    apply completes_snoc_inv in H as (g1 & m1 & _ & H).
    apply drop_unused_binds in H as [df ->]. by eexists.
  - change (before_call call_split_train)
      with (firstn 5 notebook
            ++ [S_train_test_split "train" "test" "dataframe"])%list in H.
    apply completes_snoc_inv in H as (g1 & m1 & _ & H).
    apply train_test_split_binds in H as [df ->]; [|done]. by eexists.
  - change (before_call call_plot_model)
      with (firstn 101 notebook ++ [S_compile "model"])%list in H.
    apply completes_snoc_inv in H as (g1 & m1 & _ & H).
    apply compile_binds in H as (v & Hv & mo & ->).
    unfold model_of. rewrite Hv. by eexists.
  - assert (∃ v, g !! "model" = Some v ∧ is_model v)
      as (? & Hmodel & mo & ->).
    { eapply (bound_since lib (firstn 101 notebook) (S_compile "model")
                [S_plot_model "model"]); [apply compile_binds| |exact H].
      compute_done. }
    assert (∃ v, g !! "train_ds" = Some v ∧ is_dataset v)
      as (? & Htrain & dt & ->).
    { eapply (bound_since lib (firstn 26 notebook)
                (S_df_to_dataset "train_ds" "train" None (Some "batch_size"))
                (firstn 76 (skipn 27 notebook)));
        [apply df_to_dataset_binds| |exact H].
      compute_done. }
    assert (∃ v, g !! "val_ds" = Some v ∧ is_dataset v)
      as (? & Hval & dv & ->).
    { eapply (bound_since lib (firstn 27 notebook)
                (S_df_to_dataset "val_ds" "val" (Some false)
                   (Some "batch_size"))
                (firstn 75 (skipn 28 notebook)));
        [apply df_to_dataset_binds| |exact H].
      compute_done. }
    unfold model_of, dataset_of. rewrite Hmodel, Htrain, Hval. by eexists.
  - assert (∃ v, g !! "model" = Some v ∧ is_model v)
      as (? & Hmodel & mo & ->).
    { change (before_call call_evaluate)
        with (firstn 103 notebook
              ++ [S_fit "model" "train_ds" "val_ds" 10])%list in H.
      apply completes_snoc_inv in H as (g1 & m1 & _ & H).
      by apply fit_binds in H. }
    assert (∃ v, g !! "test_ds" = Some v ∧ is_dataset v)
      as (? & Htest & dt & ->).
    { eapply (bound_since lib (firstn 28 notebook)
                (S_df_to_dataset "test_ds" "test" (Some false)
                   (Some "batch_size"))
                (firstn 75 (skipn 29 notebook)));
        [apply df_to_dataset_binds| |exact H].
      compute_done. }
    unfold model_of, dataset_of. rewrite Hmodel, Htest. by eexists.
  - assert (∃ v, g !! "model" = Some v ∧ is_model v)
      as (? & Hmodel & mo & ->).
    { eapply (bound_since lib (firstn 103 notebook)
                (S_fit "model" "train_ds" "val_ds" 10)
                (firstn 2 (skipn 104 notebook)));
        [apply fit_binds| |exact H].
      compute_done. }
    unfold model_of. rewrite Hmodel. by eexists.
  - change (before_call call_load_model)
      with (firstn 106 notebook
            ++ [S_save "model" "my_pet_classifier"])%list in H.
    apply completes_snoc_inv in H as (g1 & m1 & _ & H).
    apply save_writes in H as [saved ->]. by eexists.
  - assert (∃ v, g !! "reloaded_model" = Some v ∧ is_model v)
      as (? & Hmodel & mo & ->).
    { eapply (bound_since lib (firstn 107 notebook)
                (S_load_model "reloaded_model" "my_pet_classifier")
                (firstn 2 (skipn 108 notebook)));
        [apply load_model_binds| |exact H].
      compute_done. }
    assert (∃ v, g !! "input_dict" = Some v ∧ is_features v)
      as (? & Hx & x & ->).
    { change (before_call call_predict)
        with (firstn 109 notebook
              ++ [S_convert_to_tensor "input_dict" "sample"])%list in H.
      apply completes_snoc_inv in H as (g1 & m1 & _ & H).
      by apply convert_to_tensor_binds in H. }
    unfold model_of, features_of. rewrite Hmodel, Hx. by eexists.
Qed.

Lemma through_call c :
  firstn (S (position_of c)) notebook
  = (before_call c ++ [statement_of c])%list.
Proof. by destruct c. Qed.

(** C10.  Nothing in the notebook handles a failure.  The notebook calls
    the libraries whose outcome it cannot determine in ten statements: the
    download, [read_csv], the two splits, [plot_model], [fit], [evaluate],
    [save], [load_model] and [predict].  Whenever the script has run up to
    one of them, the statement makes its call, and if the library raises,
    the run of the notebook ends there with that very exception and with
    the store as it was when the call was made: nothing is caught, retried
    or repaired, and no later statement is entered.  The same holds of
    whatever any statement of the script raises. *)
Theorem notebook_does_not_handle_failures (lib : Library) :
  List.filter calls_library notebook = List.map statement_of library_calls
  ∧ (∀ c, notebook !! position_of c = Some (statement_of c))
  ∧ (∀ c g m,
       completes lib (before_call c) ∅ empty_mem g m →
       ∃ r, outcome lib c g m = Some r
            ∧ ∀ e, r = Raise e →
                   run lib notebook ∅ empty_mem
                   = (Raise e, m, (before_call c ++ [statement_of c])%list))
  ∧ (∀ i s g m e m',
       notebook !! i = Some s →
       completes lib (firstn i notebook) ∅ empty_mem g m →
       exec lib s g m = (Raise e, m') →
       run lib notebook ∅ empty_mem
       = (Raise e, m', (firstn i notebook ++ [s])%list)).
Proof.
  split; [reflexivity|]. split; [by intros []|]. split.
  - intros c g m H.
    destruct (call_is_made lib c g m H) as [r Hr].
    exists r. split; [exact Hr|]. intros e ->.
    rewrite <- (firstn_skipn (S (position_of c)) notebook) at 1.
    rewrite through_call, <- app_assoc.
    apply (run_stops_at_raise lib _ _ _ _ _ g m); [exact H|].
    by apply call_raises.
  - intros i s g m e m' Hs H Hraise.
    rewrite <- (take_drop_middle notebook i s Hs) at 1.
    by apply (run_stops_at_raise lib _ _ _ _ _ g m).
Qed.

Lemma notebook_does_not_handle_failures_witness :
  ∃ g m,
    completes untrained_lib (before_call call_fit) ∅ empty_mem g m
    ∧ run untrained_lib notebook ∅ empty_mem
      = (Raise (LibraryError "fit" 1), m,
         (before_call call_fit ++ [statement_of call_fit])%list).
Proof.
  destruct (run untrained_lib (before_call call_fit) ∅ empty_mem)
    as [[r m] t] eqn:E.
  assert (is_ok r = true) as Hok.
  { change r with (r, m, t).1.1. rewrite <- E. vm_compute. reflexivity. }
  destruct r as [g|e]; [|discriminate Hok].
  assert (completes untrained_lib (before_call call_fit) ∅ empty_mem g m)
    as Hrun.
  { pose proof (run_ok_entered_all untrained_lib (before_call call_fit)
                  ∅ empty_mem g) as Hall.
    rewrite E in Hall. specialize (Hall eq_refl). simpl in Hall.
    unfold completes. by rewrite E, Hall. }
  destruct (notebook_does_not_handle_failures untrained_lib)
    as (_ & _ & Hcalls & _).
  destruct (Hcalls call_fit g m Hrun) as (r & Hr & Hraise).
  exists g, m. split; [exact Hrun|]. apply Hraise.
  cbn [outcome] in Hr.
  destruct (model_of g "model"); [|discriminate Hr].
  destruct (dataset_of g "train_ds"); [|discriminate Hr].
  destruct (dataset_of g "val_ds"); [|discriminate Hr].
  by injection Hr as <-.
Defined.
